(** * Bayesian bandits with action sampling: model and properties

    A shallow embedding of [src/src/BayesianBanditsSampling.py]
    (classes [BayesianBanditSampling] and
    [BayesianBanditSamplingMonteCarlo]).

    Conventions of the model.
    - A numpy [float64] is an exact rational extended with [nan] and the
      two infinities (type [float]); rounding and overflow of finite
      values are not modelled.  The arrays [actions] and [returns] and
      the hyperparameters only ever hold finite numbers and are typed
      [Q].
    - [self] is split into the immutable configuration [Config] and the
      mutable attributes [State]; methods are computations in a state
      and exception monad that keeps the state reached when an
      exception is raised.
    - Random draws ([scipy] [rvs], [np.random.multinomial]) and the two
      transcendental functions are read from a [World], fixed in advance
      and indexed by the time step of the call. *)

From Stdlib Require Import QArith Qround Lqa.
From stdpp Require Import list strings.

(** ** numpy scalars *)

Inductive float : Type :=
| NaN
| NInf
| Fin (q : Q)
| PInf.

Definition Qsgn (q : Q) : comparison := (q ?= 0)%Q.

Definition is_nan (x : float) : bool :=
  match x with NaN => true | _ => false end.

(** [x == np.inf] *)
Definition is_inf (x : float) : bool :=
  match x with PInf => true | _ => false end.

Definition fneg (x : float) : float :=
  match x with
  | NaN => NaN
  | NInf => PInf
  | Fin q => Fin (- q)%Q
  | PInf => NInf
  end.

Definition fadd (x y : float) : float :=
  match x, y with
  | NaN, _ | _, NaN => NaN
  | PInf, NInf | NInf, PInf => NaN
  | PInf, _ | _, PInf => PInf
  | NInf, _ | _, NInf => NInf
  | Fin a, Fin b => Fin (a + b)%Q
  end.

Definition fsub (x y : float) : float := fadd x (fneg y).

(** The infinity with the sign of [s]; [nan] for sign zero. *)
Definition inf_of_sign (s : comparison) : float :=
  match s with Gt => PInf | Lt => NInf | Eq => NaN end.

Definition sign_mul (s1 s2 : comparison) : comparison :=
  match s1, s2 with
  | Eq, _ | _, Eq => Eq
  | Gt, Gt | Lt, Lt => Gt
  | _, _ => Lt
  end.

Definition fsign (x : float) : comparison :=
  match x with
  | NaN => Eq
  | NInf => Lt
  | Fin q => Qsgn q
  | PInf => Gt
  end.

Definition fmul (x y : float) : float :=
  match x, y with
  | NaN, _ | _, NaN => NaN
  | Fin a, Fin b => Fin (a * b)%Q
  | _, _ => inf_of_sign (sign_mul (fsign x) (fsign y))
  end.

(** numpy true division of float64 scalars: a zero divisor gives an
    infinity (or [nan] for [0/0]) and a warning, never an exception. *)
Definition fdiv (x y : float) : float :=
  match x, y with
  | NaN, _ | _, NaN => NaN
  | Fin a, Fin b =>
      match Qsgn b with
      | Eq => inf_of_sign (Qsgn a)
      | _ => Fin (a / b)%Q
      end
  | Fin _, _ => Fin 0
  | _, Fin b =>
      match Qsgn b with
      | Eq => x
      | s => inf_of_sign (sign_mul (fsign x) s)
      end
  | _, _ => NaN
  end.

(** IEEE [<=]: false as soon as one side is [nan]. *)
Definition fle (x y : float) : bool :=
  match x, y with
  | NaN, _ | _, NaN => false
  | NInf, _ | _, PInf => true
  | Fin a, Fin b => Qle_bool a b
  | _, _ => false
  end.

(** [np.maximum] and [np.minimum] propagate [nan]. *)
Definition fmax (x y : float) : float :=
  if is_nan x then x else if is_nan y then y
  else if fle y x then x else y.

Definition fmin (x y : float) : float :=
  if is_nan x then x else if is_nan y then y
  else if fle x y then x else y.

Definition of_nat (n : nat) : float := Fin (inject_Z (Z.of_nat n)).

(** Python [int(x)] on a finite float truncates toward zero. *)
Definition Qtrunc (q : Q) : Z :=
  if Qle_bool 0 q then Qfloor q else Qceiling q.

(** ** Exceptions and the method monad *)

Inductive ExnKind : Type :=
| ValueError | TypeError | KeyError | IndexError | OverflowError.

Record Exn : Type := Exc { exn_kind : ExnKind; exn_msg : string }.

Inductive Res (S A : Type) : Type :=
| Ok (a : A) (s : S)
| Raise (e : Exn) (s : S).
Arguments Ok {S A} a s.
Arguments Raise {S A} e s.

Definition Py (S A : Type) : Type := S -> Res S A.

Definition ret {S A} (a : A) : Py S A := fun s => Ok a s.
Definition raise {S A} (k : ExnKind) (msg : string) : Py S A :=
  fun s => Raise (Exc k msg) s.
Definition bind {S A B} (m : Py S A) (f : A -> Py S B) : Py S B :=
  fun s => match m s with
           | Ok a s' => f a s'
           | Raise e s' => Raise e s'
           end.
Definition get {S} : Py S S := fun s => Ok s s.
Definition modify {S} (f : S -> S) : Py S unit := fun s => Ok tt (f s).

(** An operation that numpy refuses with an exception. *)
Definition lift {S A} (k : ExnKind) (msg : string) (o : option A) : Py S A :=
  match o with Some a => ret a | None => raise k msg end.

Declare Scope py_scope.
Delimit Scope py_scope with py.
Notation "x <- c1 ;; c2" := (bind c1 (fun x => c2))
  (at level 100, c1 at next level, right associativity) : py_scope.
Notation "c1 ;; c2" := (bind c1 (fun _ => c2))
  (at level 100, right associativity) : py_scope.

(** [for x in xs: body x], stopping at the first exception. *)
Fixpoint for_each {S A} (xs : list A) (body : A -> Py S unit) : Py S unit :=
  match xs with
  | [] => ret tt
  | x :: xs' => (body x ;; for_each xs' body)%py
  end.

(** The state reached, whatever the outcome. *)
Definition final {S A} (r : Res S A) : S :=
  match r with Ok _ s => s | Raise _ s => s end.

Definition raised {S A} (r : Res S A) : option ExnKind :=
  match r with Ok _ _ => None | Raise e _ => Some (exn_kind e) end.

(** ** numpy arrays *)

(** A two-dimensional array: its shape and its entries.  Every access
    checks the shape, as numpy does. *)
Record ndarray (A : Type) : Type := NdArray {
  shape0 : nat;
  shape1 : nat;
  item : nat -> nat -> A
}.
Arguments NdArray {A} _ _ _.
Arguments shape0 {A} _.
Arguments shape1 {A} _.
Arguments item {A} _ _ _.

(** [np.zeros((rows, cols))] *)
Definition zeros (rows cols : nat) : ndarray Q := NdArray rows cols (fun _ _ => 0%Q).
Definition fzeros (rows cols : nat) : ndarray float :=
  NdArray rows cols (fun _ _ => Fin 0).

(** [a[k, t]]; [None] stands for numpy's [IndexError]. *)
Definition getitem {A} (a : ndarray A) (k t : nat) : option A :=
  if (k <? shape0 a) && (t <? shape1 a) then Some (item a k t) else None.

(** The array after [a[k, t] = v]. *)
Definition put_item {A} (a : ndarray A) (k t : nat) (v : A) : ndarray A :=
  NdArray (shape0 a) (shape1 a)
    (fun i j => if (i =? k) && (j =? t) then v else item a i j).

(** [a[k, t] = v]; [None] stands for [IndexError]. *)
Definition setitem {A} (a : ndarray A) (k t : nat) (v : A) : option (ndarray A) :=
  if (k <? shape0 a) && (t <? shape1 a) then Some (put_item a k t v) else None.

(** [a[:, t]] *)
Definition column {A} (a : ndarray A) (t : nat) : list A :=
  map (fun k => item a k t) (seq 0 (shape0 a)).

Definition getcol {A} (a : ndarray A) (t : nat) : option (list A) :=
  if t <? shape1 a then Some (column a t) else None.

(** The entry of [vec] used for row [k] when [vec] is assigned to a
    column: a vector of length one is broadcast. *)
Definition bcast_nth {A} (d : A) (vec : list A) (k : nat) : A :=
  if length vec =? 1 then nth 0 vec d else nth k vec d.

(** The array after [a[:, t] = vec]. *)
Definition put_col {A} (d : A) (a : ndarray A) (t : nat) (vec : list A) : ndarray A :=
  NdArray (shape0 a) (shape1 a)
    (fun i j => if j =? t then bcast_nth d vec i else item a i j).

(** [a[:, t] = vec] once [t] is known to be in range; [None] stands for
    the [ValueError] of a shape mismatch. *)
Definition setcol {A} (d : A) (a : ndarray A) (t : nat) (vec : list A) : option (ndarray A) :=
  if (length vec =? shape0 a) || (length vec =? 1)
  then Some (put_col d a t vec)
  else None.

Definition Qsum (l : list Q) : Q := foldr Qplus 0%Q l.

(** [a[:, :n].sum(axis=1)]: the slice is clipped to the array. *)
Definition sum_axis1_upto (a : ndarray Q) (n : nat) : list Q :=
  map (fun k => Qsum (map (item a k) (seq 0 (n `min` shape1 a)))) (seq 0 (shape0 a)).

(** Elementwise operation on two column vectors with numpy broadcasting
    along the arm axis; [None] stands for [ValueError]. *)
Definition broadcast2 (f : Q -> Q -> Q) (u v : list Q) : option (list Q) :=
  if length u =? length v then Some (zip_with f u v)
  else if length u =? 1 then Some (map (f (nth 0 u 0%Q)) v)
  else if length v =? 1 then Some (map (fun x => f x (nth 0 v 0%Q)) u)
  else None.

(** [argmax]: index of the first maximum.  numpy replaces the running
    maximum when [not (x <= best)] and stops at the first [nan]. *)
Fixpoint argmax_from {A} (le : A -> A -> bool) (stop : A -> bool)
    (bi : nat) (b : A) (i : nat) (l : list A) : nat :=
  match l with
  | [] => bi
  | x :: l' =>
      if stop b then bi
      else if le x b then argmax_from le stop bi b (S i) l'
      else argmax_from le stop i x (S i) l'
  end.

Definition argmax {A} (le : A -> A -> bool) (stop : A -> bool) (l : list A) : option nat :=
  match l with
  | [] => None
  | x :: l' => Some (argmax_from le stop 0 x 1 l')
  end.

Definition Qargmax : list Q -> option nat := argmax Qle_bool (fun _ => false).
Definition fargmax : list float -> option nat := argmax fle is_nan.
Definition nargmax : list nat -> option nat := argmax Nat.leb (fun _ => false).

(** [np.where(col == 1)[0][0]] *)
Fixpoint first_index {A} (p : A -> bool) (l : list A) : option nat :=
  match l with
  | [] => None
  | x :: l' => if p x then Some 0 else S <$> first_index p l'
  end.

(** [x.mean()] and [x.var()] of a one-dimensional array of finite
    numbers; both divide by the length and give [nan] on an empty array.
    The sums and quotients are exact: what numpy loses by rounding to
    [float64] is not modelled. *)
Definition fsum (l : list float) : float := foldr fadd (Fin 0) l.

Definition fmean (xs : list Q) : float :=
  fdiv (Fin (Qsum xs)) (of_nat (length xs)).

Definition fvar (xs : list Q) : float :=
  let m := fmean xs in
  fdiv (fsum (map (fun x => let d := fsub (Fin x) m in fmul d d) xs))
       (of_nat (length xs)).

(** ** The bandit object *)

(** [reward_function]: the name of the [scipy] distribution and its
    [mean] method; the draws of its [rvs] are in the [World]. *)
Record RewardFunction : Type := {
  dist_name : string;
  dist_mean : Q -> Q
}.

(** [reward_prior]: the name of the prior distribution and its
    hyperparameters, column vectors over the arms. *)
Record RewardPrior : Type := {
  prior_name : string;
  alpha : list Q;
  beta : list Q
}.

(** [sampling]: a dictionary with the key ['type'] and the keys of the
    numeric knobs; a key that is absent is [None]. *)
Record Sampling : Type := {
  stype : string;
  s_n_samples : option float;
  s_n_0 : option float;
  s_n : option float;
  s_n_max : option float
}.

Record Config : Type := {
  K : nat;
  reward_function : RewardFunction;
  reward_prior : RewardPrior;
  sampling : Sampling;
  M : nat
}.

(** [actions_predictive_density]: a dictionary with the keys ['mean']
    and ['var']. *)
Record Density : Type := {
  mean : ndarray float;
  var : ndarray float
}.

Record State : Type := {
  reward_posterior_alpha : list (list Q);
  reward_posterior_beta : list (list Q);
  actions_predictive_density : Density;
  actions : ndarray Q;
  returns : ndarray Q;
  returns_expected : ndarray float;
  n_samples : list float
}.

(** Outcomes of the library calls the methods make. *)
Record World : Type := {
  (** [beta.rvs(alpha, beta, size=(K, M))] at step [t]: entry [(k, m)] *)
  beta_rvs : nat -> list Q -> list Q -> nat -> nat -> Q;
  (** [np.random.multinomial(1, pvals, size)] at step [t]: the category
      of draw [i].  numpy draws a category below [len(pvals)]; a larger
      number here stands for a row without a 1. *)
  multinomial_draw : nat -> list float -> nat -> nat;
  (** [reward_function['dist'].rvs] on the configured arguments at step
      [t] *)
  reward_rvs : nat -> list Q;
  (** [np.log] and [np.sqrt] on a positive integer *)
  np_log_pos : nat -> Q;
  np_sqrt_pos : nat -> Q
}.

Definition set_posterior_alpha (v : list (list Q)) (s : State) : State :=
  {| reward_posterior_alpha := v;
     reward_posterior_beta := reward_posterior_beta s;
     actions_predictive_density := actions_predictive_density s;
     actions := actions s; returns := returns s;
     returns_expected := returns_expected s; n_samples := n_samples s |}.

Definition set_posterior_beta (v : list (list Q)) (s : State) : State :=
  {| reward_posterior_alpha := reward_posterior_alpha s;
     reward_posterior_beta := v;
     actions_predictive_density := actions_predictive_density s;
     actions := actions s; returns := returns s;
     returns_expected := returns_expected s; n_samples := n_samples s |}.

Definition set_density (v : Density) (s : State) : State :=
  {| reward_posterior_alpha := reward_posterior_alpha s;
     reward_posterior_beta := reward_posterior_beta s;
     actions_predictive_density := v;
     actions := actions s; returns := returns s;
     returns_expected := returns_expected s; n_samples := n_samples s |}.

Definition set_actions (v : ndarray Q) (s : State) : State :=
  {| reward_posterior_alpha := reward_posterior_alpha s;
     reward_posterior_beta := reward_posterior_beta s;
     actions_predictive_density := actions_predictive_density s;
     actions := v; returns := returns s;
     returns_expected := returns_expected s; n_samples := n_samples s |}.

Definition set_returns (v : ndarray Q) (s : State) : State :=
  {| reward_posterior_alpha := reward_posterior_alpha s;
     reward_posterior_beta := reward_posterior_beta s;
     actions_predictive_density := actions_predictive_density s;
     actions := actions s; returns := v;
     returns_expected := returns_expected s; n_samples := n_samples s |}.

Definition set_returns_expected (v : ndarray float) (s : State) : State :=
  {| reward_posterior_alpha := reward_posterior_alpha s;
     reward_posterior_beta := reward_posterior_beta s;
     actions_predictive_density := actions_predictive_density s;
     actions := actions s; returns := returns s;
     returns_expected := v; n_samples := n_samples s |}.

Definition set_n_samples (v : list float) (s : State) : State :=
  {| reward_posterior_alpha := reward_posterior_alpha s;
     reward_posterior_beta := reward_posterior_beta s;
     actions_predictive_density := actions_predictive_density s;
     actions := actions s; returns := returns s;
     returns_expected := returns_expected s; n_samples := v |}.

Definition set_mean (v : ndarray float) (s : State) : State :=
  set_density {| mean := v; var := var (actions_predictive_density s) |} s.

Definition set_var (v : ndarray float) (s : State) : State :=
  set_density {| mean := mean (actions_predictive_density s); var := v |} s.

(** Keys with which the code indexes [actions_predictive_density]: a
    string, or the tuple [(slice(None), t)] written [[:, t]]. *)
Inductive Key : Type :=
| KStr (name : string)
| KColumn (t : nat).

(** [dict.__getitem__]: a tuple holding a slice cannot be hashed
    ([TypeError]; from Python 3.12 on it can, and the lookup fails with
    [KeyError] instead). *)
Definition dict_getitem (d : Density) (key : Key) : Py State (ndarray float) :=
  match key with
  | KStr name =>
      if String.eqb name "mean" then ret (mean d)
      else if String.eqb name "var" then ret (var d)
      else raise KeyError name
  | KColumn _ => raise TypeError "unhashable type: 'slice'"
  end.

(** [a[:, t]] and [a[:, t] = vec] and [a[k, t] = v] as statements. *)
Definition read_col {A} (a : ndarray A) (t : nat) : Py State (list A) :=
  lift IndexError "index is out of bounds for axis 1" (getcol a t).

Definition assign_col {A} (d : A) (a : ndarray A) (t : nat) (vec : list A)
    : Py State (ndarray A) :=
  if t <? shape1 a
  then lift ValueError "could not broadcast input array" (setcol d a t vec)
  else raise IndexError "index is out of bounds for axis 1".

Definition read_item {A} (a : ndarray A) (k t : nat) : Py State A :=
  lift IndexError "index is out of bounds" (getitem a k t).

Definition assign_item {A} (a : ndarray A) (k t : nat) (v : A) : Py State (ndarray A) :=
  lift IndexError "index is out of bounds" (setitem a k t v).

(** [sampling[key]] *)
Definition knob (key : string) (o : option float) : Py State float :=
  lift KeyError key o.

(** ** Methods of [BayesianBanditSamplingMonteCarlo] *)

Section Methods.
Variable c : Config.
Variable w : World.

Local Open Scope py_scope.

(** [__init__]: the posterior lists start with the prior's
    hyperparameters.  The arrays are attributes that [execute] creates
    before anything reads them; until then they are modelled as empty. *)
Definition init : State :=
  {| reward_posterior_alpha := [alpha (reward_prior c)];
     reward_posterior_beta := [beta (reward_prior c)];
     actions_predictive_density := {| mean := fzeros 0 0; var := fzeros 0 0 |};
     actions := zeros 0 0;
     returns := zeros 0 0;
     returns_expected := fzeros 0 0;
     n_samples := [] |}.

(** *** [update_reward_posterior] (lines 70-89) *)

Definition broadcast_error : string := "operands could not be broadcast together".

Definition update_reward_posterior (t : nat) : Py State unit :=
  if String.eqb (dist_name (reward_function c)) "bernoulli"
     && String.eqb (prior_name (reward_prior c)) "beta"
  then
    s <- get ;;
    let s_t := sum_axis1_upto (returns s) (t + 1) in
    let n_t := sum_axis1_upto (actions s) (t + 1) in
    a' <- lift ValueError broadcast_error
            (broadcast2 Qplus (alpha (reward_prior c)) s_t) ;;
    modify (fun s => set_posterior_alpha (reward_posterior_alpha s ++ [a']) s) ;;
    d <- lift ValueError broadcast_error (broadcast2 Qminus n_t s_t) ;;
    b' <- lift ValueError broadcast_error
            (broadcast2 Qplus (beta (reward_prior c)) d) ;;
    modify (fun s => set_posterior_beta (reward_posterior_beta s ++ [b']) s)
  else
    raise ValueError
      ("Invalid reward_function=" ++ dist_name (reward_function c)
       ++ " with reward_prior=" ++ prior_name (reward_prior c)
       ++ " combination").

(** *** [compute_action_predictive_density] (lines 174-205) *)

(** Length along the arm axis of two broadcast column vectors. *)
Definition broadcast_len (n1 n2 : nat) : option nat :=
  if n1 =? n2 then Some n1
  else if n1 =? 1 then Some n2
  else if n2 =? 1 then Some n1
  else None.

(** [rvs(alpha, beta, size=(K, M))]: the hyperparameters must broadcast
    to the requested size; the draws come from the world.  That [scipy]
    also refuses hyperparameters that are not positive is not
    modelled. *)
Definition rvs_samples (t : nat) (a b : list Q) : option (list (list Q)) :=
  match broadcast_len (length a) (length b) with
  | Some n =>
      if (n =? K c) || (n =? 1)
      then Some (map (fun k => map (beta_rvs w t a b k) (seq 0 (M c))) (seq 0 (K c)))
      else None
  | None => None
  end.

(** [x.argmax(axis=0)] of a matrix given by its rows, with [ncols]
    columns: an empty arm axis is refused. *)
Definition argmax_axis0 (rows : list (list Q)) (ncols : nat) : option (list nat) :=
  match rows with
  | [] => None
  | _ => mapM (fun m => Qargmax (map (fun row => nth m row 0%Q) rows)) (seq 0 ncols)
  end.

(** Row [k] of [(idx[None,:] == np.arange(K)[:,None]).astype(int)] *)
Definition indicator (k : nat) (idx : list nat) : list Q :=
  map (fun a => if a =? k then 1%Q else 0%Q) idx.

Definition compute_action_predictive_density (t : nat) : Py State unit :=
  s <- get ;;
  hyper <- (if String.eqb (prior_name (reward_prior c)) "beta"
            then
              a <- lift IndexError "list index out of range"
                     (last (reward_posterior_alpha s)) ;;
              b <- lift IndexError "list index out of range"
                     (last (reward_posterior_beta s)) ;;
              ret (a, b)
            else
              raise ValueError
                ("reward_prior=" ++ prior_name (reward_prior c)
                 ++ " not implemented yet")) ;;
  reward_params_samples <-
    lift ValueError "size does not match the broadcast shape of the parameters"
      (rvs_samples t (fst hyper) (snd hyper)) ;;
  let returns_expected_samples :=
    if String.eqb (dist_name (reward_function c)) "bernoulli"
    then reward_params_samples
    else map (map (dist_mean (reward_function c))) reward_params_samples in
  re <- assign_col (Fin 0) (returns_expected s) t
          (map fmean returns_expected_samples) ;;
  modify (set_returns_expected re) ;;
  idx <- lift ValueError "attempt to get argmax of an empty sequence"
           (argmax_axis0 returns_expected_samples (M c)) ;;
  s <- get ;;
  m <- dict_getitem (actions_predictive_density s) (KStr "mean") ;;
  m' <- assign_col (Fin 0) m t
          (map (fun k => fmean (indicator k idx)) (seq 0 (K c))) ;;
  modify (set_mean m') ;;
  idx <- lift ValueError "attempt to get argmax of an empty sequence"
           (argmax_axis0 returns_expected_samples (M c)) ;;
  s <- get ;;
  v <- dict_getitem (actions_predictive_density s) (KStr "var") ;;
  v' <- assign_col (Fin 0) v t
          (map (fun k => fvar (indicator k idx)) (seq 0 (K c))) ;;
  modify (set_var v').

(** *** [execute] (lines 91-147) *)

Definition np_log (t : nat) : float :=
  match t with
  | O => NInf
  | _ => Fin (np_log_pos w t)
  end.

Definition np_sqrt (t : nat) : float :=
  match t with
  | O => Fin 0
  | _ => Fin (np_sqrt_pos w t)
  end.

(** [self.actions_predictive_density['mean'][:,t].argmax()] *)
Definition most_probable_arm (t : nat) : Py State nat :=
  s <- get ;;
  m <- dict_getitem (actions_predictive_density s) (KStr "mean") ;;
  col <- read_col m t ;;
  lift ValueError "attempt to get argmax of an empty sequence" (fargmax col).

(** Lines 109-131: the value assigned to [n_samples[t]]. *)
Definition samples_needed (t : nat) : Py State float :=
  let sp := sampling c in
  if String.eqb (stype sp) "static" then
    knob "n_samples" (s_n_samples sp)
  else if String.eqb (stype sp) "linear" then
    n0 <- knob "n_0" (s_n_0 sp) ;;
    n <- knob "n" (s_n sp) ;;
    ret (fmax (fadd n0 (fmul n (of_nat t))) (Fin 1))
  else if String.eqb (stype sp) "logT" then
    ret (fmax (np_log t) (Fin 1))
  else if String.eqb (stype sp) "sqrtT" then
    ret (fmax (np_sqrt t) (Fin 1))
  else if String.eqb (stype sp) "invVar" then
    s <- get ;;
    v <- dict_getitem (actions_predictive_density s) (KStr "var") ;;
    a <- most_probable_arm t ;;
    x <- read_item v a t ;;
    n_max <- knob "n_max" (s_n_max sp) ;;
    ret (fmin (fmax (fdiv (Fin 1) x) (Fin 1)) n_max)
  else if String.eqb (stype sp) "invPFA" then
    s <- get ;;
    m <- dict_getitem (actions_predictive_density s) (KStr "mean") ;;
    a <- most_probable_arm t ;;
    x <- read_item m a t ;;
    n_max <- knob "n_max" (s_n_max sp) ;;
    ret (fmin (fmax (fdiv (Fin 1) (fsub (Fin 1) x)) (Fin 1)) n_max)
  else if String.eqb (stype sp) "argMax" then
    ret PInf
  else
    raise ValueError ("Invalid sampling type=" ++ stype sp).

(** [self.n_samples[t] = x] *)
Definition store_n_samples (t : nat) (x : float) : Py State unit :=
  s <- get ;;
  if t <? length (n_samples s)
  then modify (set_n_samples (<[t := x]> (n_samples s)))
  else raise IndexError "index is out of bounds for axis 0".

(** [int(x)] *)
Definition py_int (x : float) : Py State Z :=
  match x with
  | NaN => raise ValueError "cannot convert float NaN to integer"
  | NInf | PInf => raise OverflowError "cannot convert float infinity to integer"
  | Fin q => ret (Qtrunc q)
  end.

Definition is_prob (x : float) : bool :=
  match x with
  | Fin q => Qle_bool 0 q && Qle_bool q 1
  | _ => false
  end.

(** What [np.random.multinomial] accepts as [pvals]: numbers of
    [[0, 1]] whose sum, the last one left out, is at most 1 (numpy
    allows an excess of [1e-12], which exact sums do not need). *)
Definition valid_pvals (pvals : list float) : bool :=
  forallb is_prob pvals
  && fle (fsum (take (length pvals - 1) pvals)) (Fin 1).

Definition one_hot_row (n i : nat) : list nat :=
  map (fun k => if k =? i then 1 else 0) (seq 0 n).

(** [np.random.multinomial(1, pvals, size=size)]: [size] rows, each
    with a single 1 at the category drawn. *)
Definition multinomial (t : nat) (pvals : list float) (size : Z)
    : Py State (list (list nat)) :=
  if negb (valid_pvals pvals) then
    raise ValueError "pvals < 0, pvals > 1 or sum(pvals[:-1]) > 1.0"
  else if (size <? 0)%Z then
    raise ValueError "negative dimensions are not allowed"
  else
    ret (map (fun i => one_hot_row (length pvals) (multinomial_draw w t pvals i))
           (seq 0 (Z.to_nat size))).

(** [x.sum(axis=0)] of a matrix of [n] columns given by its rows *)
Definition sum_axis0 (n : nat) (rows : list (list nat)) : list nat :=
  foldr (zip_with Nat.add) (replicate n 0) rows.

(** [x.argmax()] of a two-dimensional array: over the flattened array *)
Definition ravel {A} (a : ndarray A) : list A :=
  concat (map (fun k => map (item a k) (seq 0 (shape1 a))) (seq 0 (shape0 a))).

(** Line 140, the votes:
    [np.random.multinomial(1, mean[:,t], size=int(n))] for the budget
    [n] of step [t]. *)
Definition draw_votes (t : nat) (n : float) : Py State (list (list nat)) :=
  s <- get ;;
  m <- dict_getitem (actions_predictive_density s) (KStr "mean") ;;
  pvals <- read_col m t ;;
  size <- py_int n ;;
  multinomial t pvals size.

(** Lines 134-141: pick the next action and record it. *)
Definition pick_action (t : nat) : Py State nat :=
  s <- get ;;
  n <- lift IndexError "index is out of bounds for axis 0" (n_samples s !! t) ;;
  if is_inf n then
    x <- dict_getitem (actions_predictive_density s) (KColumn t) ;;
    action <- lift ValueError "attempt to get argmax of an empty sequence"
                (fargmax (ravel x)) ;;
    acts <- assign_item (actions s) action t 1%Q ;;
    modify (set_actions acts) ;;
    ret action
  else
    votes <- draw_votes t n ;;
    a <- lift ValueError "attempt to get argmax of an empty sequence"
           (nargmax (sum_axis0 (shape0 (mean (actions_predictive_density s))) votes)) ;;
    acts <- assign_item (actions s) a t 1%Q ;;
    modify (set_actions acts) ;;
    col <- read_col acts t ;;
    lift IndexError "index 0 is out of bounds for axis 0 with size 0"
      (first_index (Qeq_bool 1) col).

(** Line 144: the return of the chosen arm. *)
Definition draw_return (t action : nat) : Py State unit :=
  r <- lift IndexError "index is out of bounds for axis 0"
         (reward_rvs w t !! action) ;;
  s <- get ;;
  rets <- assign_item (returns s) action t r ;;
  modify (set_returns rets).

(** Lines 95-99 *)
Definition allocate (t_max : nat) (s : State) : State :=
  {| reward_posterior_alpha := reward_posterior_alpha s;
     reward_posterior_beta := reward_posterior_beta s;
     actions_predictive_density :=
       {| mean := fzeros (K c) t_max; var := fzeros (K c) t_max |};
     actions := zeros (K c) t_max;
     returns := zeros (K c) t_max;
     returns_expected := fzeros (K c) t_max;
     n_samples := replicate t_max (Fin 1) |}.

(** The body of the loop over [t]. *)
Definition execute_step (t : nat) : Py State unit :=
  compute_action_predictive_density t ;;
  n <- samples_needed t ;;
  store_n_samples t n ;;
  action <- pick_action t ;;
  draw_return t action ;;
  update_reward_posterior t.

(** [execute(t_max)] cut after the first [n] iterations of its loop. *)
Definition execute_steps (t_max n : nat) : Py State unit :=
  modify (allocate t_max) ;;
  for_each (seq 0 n) execute_step.

Definition execute (t_max : nat) : Py State unit :=
  execute_steps t_max t_max.

End Methods.

(** ** Example configurations and worlds *)

Definition bernoulli : RewardFunction :=
  {| dist_name := "bernoulli"; dist_mean := fun p => p |}.

Definition gaussian : RewardFunction :=
  {| dist_name := "norm"; dist_mean := fun p => p |}.

(** A [Beta(1, 1)] prior on each of [k] arms. *)
Definition beta_prior (k : nat) : RewardPrior :=
  {| prior_name := "beta"; alpha := replicate k 1%Q; beta := replicate k 1%Q |}.

Definition gamma_prior (k : nat) : RewardPrior :=
  {| prior_name := "gamma"; alpha := replicate k 1%Q; beta := replicate k 1%Q |}.

Definition mode (name : string) : Sampling :=
  {| stype := name; s_n_samples := None; s_n_0 := None; s_n := None;
     s_n_max := None |}.

Definition static (n : float) : Sampling :=
  {| stype := "static"; s_n_samples := Some n; s_n_0 := None; s_n := None;
     s_n_max := None |}.

Definition capped (name : string) (n_max : float) : Sampling :=
  {| stype := name; s_n_samples := None; s_n_0 := None; s_n := None;
     s_n_max := Some n_max |}.

Definition bandit (rf : RewardFunction) (rp : nat -> RewardPrior) (sp : Sampling)
    (k m : nat) : Config :=
  {| K := k; reward_function := rf; reward_prior := rp k; sampling := sp; M := m |}.

(** A world whose posterior draws favour arm 0 in two draws out of
    three, whose votes alternate between the arms, arm 1 first, and
    whose rewards are 1 for arm 1 and 0 for arm 0. *)
Definition demo_world : World :=
  {| beta_rvs := fun t a b k m =>
       if (k + m) mod 3 =? 0 then (3 # 4)%Q else (1 # 4)%Q;
     multinomial_draw := fun t pvals i => (i + 1) mod 2;
     reward_rvs := fun t => [0%Q; 1%Q];
     np_log_pos := fun t => (inject_Z (Z.log2 (Z.of_nat t)) * (7 # 10))%Q;
     np_sqrt_pos := fun t => (inject_Z (Z.sqrt (10000 * Z.of_nat t)) / 100)%Q |}.

(** ** Vocabulary of the properties *)

Definition has_shape {A} (a : ndarray A) (rows cols : nat) : bool :=
  (shape0 a =? rows) && (shape1 a =? cols).

(** The arrays of [s] are those of a run of horizon [t_max]. *)
Definition allocated (c : Config) (t_max : nat) (s : State) : bool :=
  has_shape (mean (actions_predictive_density s)) (K c) t_max
  && has_shape (var (actions_predictive_density s)) (K c) t_max
  && has_shape (actions s) (K c) t_max
  && has_shape (returns s) (K c) t_max
  && has_shape (returns_expected s) (K c) t_max
  && (length (n_samples s) =? t_max).

(** The prior has one hyperparameter pair per arm. *)
Definition prior_ok (c : Config) : bool :=
  (length (alpha (reward_prior c)) =? K c)
  && (length (beta (reward_prior c)) =? K c).

(** The latest posterior snapshot has one hyperparameter pair per arm. *)
Definition hyper_ok (c : Config) (s : State) : bool :=
  match last (reward_posterior_alpha s), last (reward_posterior_beta s) with
  | Some a, Some b => (length a =? K c) && (length b =? K c)
  | _, _ => false
  end.

Definition beta_named (c : Config) : bool :=
  String.eqb (prior_name (reward_prior c)) "beta".

Definition bernoulli_beta (c : Config) : bool :=
  String.eqb (dist_name (reward_function c)) "bernoulli" && beta_named c.

Definition is_ok {S A} (r : Res S A) : bool :=
  match r with Ok _ _ => true | Raise _ _ => false end.

Definition zero_one (x : Q) : Prop := x = 0%Q \/ x = 1%Q.

Definition Qlen {A} (l : list A) : Q := inject_Z (Z.of_nat (length l)).

Section Estimator.
Variable c : Config.
Variable w : World.

(** The expected returns sampled at step [t] from the hyperparameters
    [a] and [b]: one row per arm, one column per draw. *)
Definition expected_samples (t : nat) (a b : list Q) : list (list Q) :=
  let samples := map (fun k => map (beta_rvs w t a b k) (seq 0 (M c))) (seq 0 (K c)) in
  if String.eqb (dist_name (reward_function c)) "bernoulli"
  then samples
  else map (map (dist_mean (reward_function c))) samples.

(** The arm with the largest expected return in each draw. *)
Definition best_arms (t : nat) (a b : list Q) : list nat :=
  map (fun m => default 0 (Qargmax (map (fun row => nth m row 0%Q)
                                      (expected_samples t a b))))
      (seq 0 (M c)).

(** The state after the estimator has written column [t]. *)
Definition density_written (t : nat) (a b : list Q) (s : State) : State :=
  let idx := best_arms t a b in
  let s1 := set_returns_expected
              (put_col (Fin 0) (returns_expected s) t
                 (map fmean (expected_samples t a b))) s in
  let s2 := set_mean
              (put_col (Fin 0) (mean (actions_predictive_density s1)) t
                 (map (fun k => fmean (indicator k idx)) (seq 0 (K c)))) s1 in
  set_var
    (put_col (Fin 0) (var (actions_predictive_density s2)) t
       (map (fun k => fvar (indicator k idx)) (seq 0 (K c)))) s2.
End Estimator.

(** The sum of [f 0], ..., [f (n - 1)]. *)
Fixpoint sum_upto (f : nat -> Q) (n : nat) : Q :=
  match n with
  | O => 0%Q
  | S n' => (sum_upto f n' + f n')%Q
  end.

(** Arm [k]'s recorded returns and action indicators summed over the
    times [0..t]. *)
Definition successes (s : State) (k t : nat) : Q :=
  sum_upto (item (returns s) k) (S t).

Definition trials (s : State) (k t : nat) : Q :=
  sum_upto (item (actions s) k) (S t).

(** The state after [update_reward_posterior] has appended the
    snapshots [a'] and [b']. *)
Definition posterior_appended (a' b' : list Q) (s : State) : State :=
  set_posterior_beta (reward_posterior_beta s ++ [b'])
    (set_posterior_alpha (reward_posterior_alpha s ++ [a']) s).

(** The number of votes for arm [k]. *)
Fixpoint count_votes (votes : list nat) (k : nat) : nat :=
  match votes with
  | [] => 0
  | v :: votes' => (if v =? k then 1 else 0) + count_votes votes' k
  end.

(** The votes drawn at step [t] for the vote probabilities [pvals] when
    [n] votes are drawn. *)
Definition votes_of (w : World) (t : nat) (pvals : list float) (n : nat) : list nat :=
  map (multinomial_draw w t pvals) (seq 0 n).

(** [a] is the first maximum of [tally] over the arms below [n]. *)
Definition first_max (n : nat) (tally : nat -> nat) (a : nat) : Prop :=
  a < n
  /\ (forall k, k < n -> tally k <= tally a)
  /\ (forall k, k < a -> tally k < tally a).

(** Column [t] of the action record is still blank. *)
Definition blank_column (s : State) (t : nat) : Prop :=
  forall k, item (actions s) k t = 0%Q.

(** Column [t] of [a] is one-hot: 1 in exactly one row, 0 in the
    others. *)
Definition one_hot_column (a : ndarray Q) (t : nat) : Prop :=
  exists i, i < shape0 a
            /\ forall k, k < shape0 a -> item a k t = if k =? i then 1%Q else 0%Q.

(** The sampling modes whose budget is capped by [n_max]. *)
Definition capped_mode (c : Config) : bool :=
  String.eqb (stype (sampling c)) "invVar"
  || String.eqb (stype (sampling c)) "invPFA".

(** The sampling modes [logT] and [sqrtT]. *)
Definition time_mode (c : Config) : bool :=
  String.eqb (stype (sampling c)) "logT"
  || String.eqb (stype (sampling c)) "sqrtT".

(** The action record, the return record and the posterior history of
    [s'] are those of [s]. *)
Definition same_log (s s' : State) : Prop :=
  actions s' = actions s
  /\ returns s' = returns s
  /\ reward_posterior_alpha s' = reward_posterior_alpha s
  /\ reward_posterior_beta s' = reward_posterior_beta s.

(** The action columns of the first [n] steps are one-hot; those from
    step [n] on are blank. *)
Definition one_hot_upto (s : State) (n : nat) : Prop :=
  forall t, t < n -> one_hot_column (actions s) t.

Definition blank_from (s : State) (n : nat) : Prop :=
  forall t, n <= t -> blank_column s t.

(** The action and return records have the shape of a run of horizon
    [t_max]. *)
Definition log_shaped (c : Config) (t_max : nat) (s : State) : Prop :=
  shape0 (actions s) = K c /\ shape1 (actions s) = t_max
  /\ shape0 (returns s) = K c /\ shape1 (returns s) = t_max.

(** The posterior history holds [n + 1] snapshots, and snapshot [i]
    is the prior plus the successes, resp. the failures, of the first
    [i] steps. *)
Definition snapshots_ok (c : Config) (s : State) (n : nat) : Prop :=
  length (reward_posterior_alpha s) = S n
  /\ length (reward_posterior_beta s) = S n
  /\ forall i k, i <= n -> k < K c ->
       (nth k (nth i (reward_posterior_alpha s) []) 0
        == nth k (alpha (reward_prior c)) 0 + sum_upto (item (returns s) k) i)%Q
       /\ (nth k (nth i (reward_posterior_beta s) []) 0
           == nth k (beta (reward_prior c)) 0
              + (sum_upto (item (actions s) k) i - sum_upto (item (returns s) k) i))%Q.

(** A return is recorded only where the action is, and lies in
    [[0, 1]]. *)
Definition dominated (s : State) : Prop :=
  forall k j, (0 <= item (returns s) k j)%Q
              /\ (item (returns s) k j <= item (actions s) k j)%Q.

Definition log_blank_from (s : State) (n : nat) : Prop :=
  forall t k, n <= t -> item (actions s) k t = 0%Q /\ item (returns s) k t = 0%Q.

(** The log of a run of horizon [t_max] after [n] posterior updates. *)
Definition history_ok (c : Config) (t_max : nat) (s : State) (n : nat) : Prop :=
  log_shaped c t_max s /\ snapshots_ok c s n.

(** The rewards drawn are 0 or 1. *)
Definition bernoulli_rewards (w : World) : Prop :=
  forall t, Forall zero_one (reward_rvs w t).

(** The seven names that [execute] accepts as [sampling['type']]. *)
Definition supported_mode (name : string) : bool :=
  String.eqb name "static" || String.eqb name "linear"
  || String.eqb name "logT" || String.eqb name "sqrtT"
  || String.eqb name "invVar" || String.eqb name "invPFA"
  || String.eqb name "argMax".

(** The messages of the three configuration errors. *)
Definition invalid_sampling (c : Config) : string :=
  "Invalid sampling type=" ++ stype (sampling c).

Definition prior_not_implemented (c : Config) : string :=
  "reward_prior=" ++ prior_name (reward_prior c) ++ " not implemented yet".

Definition invalid_combination (c : Config) : string :=
  "Invalid reward_function=" ++ dist_name (reward_function c)
  ++ " with reward_prior=" ++ prior_name (reward_prior c) ++ " combination".

(** The state in which step 0 of a fresh run leaves the estimator. *)
Definition first_density (c : Config) (w : World) (t_max : nat) : State :=
  density_written c w 0 (alpha (reward_prior c)) (beta (reward_prior c))
    (allocate c t_max (init c)).

(** ** Concrete bandits

    Two Bernoulli arms with a [Beta(1, 1)] prior each and [M = 3] draws,
    under different sampling policies, run in [demo_world]. *)

Definition demo_static : Config :=
  bandit bernoulli beta_prior (static (Fin (5 # 2))) 2 3.

Definition demo_argmax : Config :=
  bandit bernoulli beta_prior (mode "argMax") 2 3.

Definition demo_logT : Config :=
  bandit bernoulli beta_prior (mode "logT") 2 3.

Definition demo_invVar : Config :=
  bandit bernoulli beta_prior (capped "invVar" (Fin 25)) 2 3.

(** A cap below one sample. *)
Definition demo_low_cap : Config :=
  bandit bernoulli beta_prior (capped "invVar" (Fin (1 # 2))) 2 3.

(** A sampling mode that [execute] does not know. *)
Definition demo_unsupported : Config :=
  bandit bernoulli beta_prior (mode "thompson") 2 3.

(** Pairings other than Bernoulli/Beta. *)
Definition demo_gaussian : Config :=
  bandit gaussian beta_prior (static (Fin 1)) 2 3.

Definition demo_gamma : Config :=
  bandit bernoulli gamma_prior (static (Fin 1)) 2 3.

(** A Monte Carlo estimator without any draw. *)
Definition demo_no_draws : Config :=
  bandit bernoulli beta_prior (static (Fin 1)) 2 0.

(** The state of [demo_static] at step 0 once the budget is stored. *)
Definition demo_voting_state : State :=
  set_n_samples [Fin (5 # 2); Fin 1; Fin 1] (first_density demo_static demo_world 3).

(** The number of votes that a call of [draw_votes] has returned. *)
Definition votes_drawn (r : Res State (list (list nat))) : option nat :=
  match r with
  | Ok rows _ => Some (length rows)
  | Raise _ _ => None
  end.

(** ** Vocabulary of the further properties *)

Definition linear (n_0 n : float) : Sampling :=
  {| stype := "linear"; s_n_samples := None; s_n_0 := Some n_0; s_n := Some n;
     s_n_max := None |}.

(** The key of [sampling] that the budget computation of the mode of
    [c] looks up first among those that are absent. *)
Definition missing_knob (c : Config) : option string :=
  let sp := sampling c in
  if String.eqb (stype sp) "static" then
    match s_n_samples sp with None => Some "n_samples" | Some _ => None end
  else if String.eqb (stype sp) "linear" then
    match s_n_0 sp, s_n sp with
    | None, _ => Some "n_0"
    | Some _, None => Some "n"
    | Some _, Some _ => None
    end
  else if capped_mode c then
    match s_n_max sp with None => Some "n_max" | Some _ => None end
  else None.

(** The budget [n_0 + n * t] of the mode [linear] before its floor. *)
Definition linear_ramp (n_0 n : Q) (t : nat) : Q :=
  (n_0 + n * inject_Z (Z.of_nat t))%Q.

Definition demo_linear : Config :=
  bandit bernoulli beta_prior (linear (Fin (1 # 2)) (Fin (3 # 2))) 2 3.

(** The mode [linear] without its keys. *)
Definition demo_no_knob : Config :=
  bandit bernoulli beta_prior (mode "linear") 2 3.

(** The state of [demo_static] at step 0 with the budget [x] stored. *)
Definition demo_budget_state (x : float) : State :=
  set_n_samples [x; Fin 1; Fin 1] (first_density demo_static demo_world 3).

(** [a] is the first maximum of [f] over the arms below [n]. *)
Definition Qfirst_max (n : nat) (f : nat -> Q) (a : nat) : Prop :=
  a < n
  /\ (forall k, k < n -> (f k <= f a)%Q)
  /\ (forall k, k < a -> (f k < f a)%Q).

(** The expected return of arm [k] in draw [m] of step [t]: the
    parameter sampled from the posterior for a Bernoulli reward, the
    mean of the reward distribution at that parameter otherwise. *)
Definition sample_of (c : Config) (w : World) (t : nat) (a b : list Q)
    (k m : nat) : Q :=
  let x := beta_rvs w t a b k m in
  if String.eqb (dist_name (reward_function c)) "bernoulli" then x
  else dist_mean (reward_function c) x.

(** The number of draws of step [t] in which arm [k] has the largest
    expected return. *)
Definition wins (c : Config) (w : World) (t : nat) (a b : list Q) (k : nat) : nat :=
  count_votes (best_arms c w t a b) k.

(** [a'] has the shape of [a] and its entries outside column [t]. *)
Definition same_off_column {A} (t : nat) (a a' : ndarray A) : Prop :=
  shape0 a' = shape0 a /\ shape1 a' = shape1 a
  /\ forall k j, j <> t -> item a' k j = item a k j.

(** A capped mode with a single Monte Carlo draw. *)
Definition demo_single_draw : Config :=
  bandit bernoulli beta_prior (capped "invPFA" (Fin 25)) 2 1.

(** Every return recorded in [s] is 0, or is the reward drawn at its
    step for its arm, which the action record marks as chosen. *)
Definition returns_justified (w : World) (s : State) : Prop :=
  forall t k,
    item (returns s) k t = 0%Q
    \/ (item (actions s) k t = 1%Q
        /\ reward_rvs w t !! k = Some (item (returns s) k t)).

(** In the first [n] steps the return recorded for the chosen arm is
    the reward drawn for it. *)
Definition returns_recorded (w : World) (s : State) (n : nat) : Prop :=
  forall t k, t < n -> item (actions s) k t = 1%Q ->
              reward_rvs w t !! k = Some (item (returns s) k t).


(** Two Bernoulli arms whose Beta prior has [na] alpha entries and
    [nb] beta entries. *)
Definition demo_prior (na nb : nat) : Config :=
  {| K := 2; reward_function := bernoulli;
     reward_prior := {| prior_name := "beta"; alpha := replicate na 1%Q;
                        beta := replicate nb 2%Q |};
     sampling := static (Fin 1); M := 3 |}.

(** The largest number of votes per step that the statement on
    complete runs covers. *)
Definition max_votes : Z := 1000000.

(** The sampling dictionary holds what the mode of [c] needs for a
    budget of at most [max_votes] votes at every step of a run of
    horizon [t_max]: for [static] a finite [n_samples] that [int] maps
    into [[0, max_votes]]; for [linear] a finite [n_0 >= - max_votes]
    and a finite [n >= 0] with [n_0 + n * t_max <= max_votes]; for
    [invVar] and [invPFA] a finite [n_max] of [[1, max_votes]]; [logT]
    and [sqrtT] need no key.  The mode [argMax] is left out. *)
Definition budget_configured (c : Config) (t_max : nat) : bool :=
  let sp := sampling c in
  let top := inject_Z max_votes in
  if String.eqb (stype sp) "static" then
    match s_n_samples sp with
    | Some (Fin q) => (0 <=? Qtrunc q)%Z && (Qtrunc q <=? max_votes)%Z
    | _ => false
    end
  else if String.eqb (stype sp) "linear" then
    match s_n_0 sp, s_n sp with
    | Some (Fin n_0), Some (Fin n) =>
        Qle_bool (- top) n_0 && Qle_bool 0 n
        && Qle_bool (linear_ramp n_0 n t_max) top
    | _, _ => false
    end
  else if time_mode c then true
  else if capped_mode c then
    match s_n_max sp with
    | Some (Fin m) => Qle_bool 1 m && Qle_bool m top
    | _ => false
    end
  else false.

(** [np.log] and [np.sqrt] return at most [max_votes] on the steps of
    a run of horizon [t_max]. *)
Definition time_values_bounded (w : World) (t_max : nat) : Prop :=
  forall t, t < t_max ->
    (np_log_pos w t <= inject_Z max_votes)%Q
    /\ (np_sqrt_pos w t <= inject_Z max_votes)%Q.

(** The hyperparameters of the prior are positive, as [scipy] requires
    of the parameters of a Beta distribution. *)
Definition prior_positive (c : Config) : Prop :=
  forall k, k < K c ->
    (0 < nth k (alpha (reward_prior c)) 0)%Q
    /\ (0 < nth k (beta (reward_prior c)) 0)%Q.

(** Every draw of rewards of the first [t_max] steps has an entry for
    each arm. *)
Definition rewards_cover (c : Config) (w : World) (t_max : nat) : Prop :=
  forall t, t < t_max -> K c <= length (reward_rvs w t).

(** The budgets stored for the first [n] steps are finite numbers that
    [int] maps into [[0, max_votes]]. *)
Definition budgets_ok (s : State) (n : nat) : Prop :=
  forall t, t < n ->
    exists q, n_samples s !! t = Some (Fin q)
              /\ (0 <= Qtrunc q)%Z /\ (Qtrunc q <= max_votes)%Z.

(** Every snapshot of the posterior history holds positive
    hyperparameters for each arm. *)
Definition history_positive (c : Config) (s : State) : Prop :=
  forall i k, i < length (reward_posterior_alpha s) -> k < K c ->
    (0 < nth k (nth i (reward_posterior_alpha s) []) 0)%Q
    /\ (0 < nth k (nth i (reward_posterior_beta s) []) 0)%Q.

(** The state of a run of horizon [t_max] before iteration [n]. *)
Definition run_ready (c : Config) (t_max : nat) (s : State) (n : nat) : Prop :=
  allocated c t_max s = true /\ hyper_ok c s = true /\ blank_from s n
  /\ budgets_ok s n /\ length (reward_posterior_alpha s) = S n.

(** * Properties *)

(** ** The monad *)

Lemma bind_Ok {S A B} (m : Py S A) (f : A -> Py S B) s a s' :
  m s = Ok a s' -> bind m f s = f a s'.
Proof. intros H. unfold bind. now rewrite H. Qed.

Lemma bind_Raise {S A B} (m : Py S A) (f : A -> Py S B) s e s' :
  m s = Raise e s' -> bind m f s = Raise e s'.
Proof. intros H. unfold bind. now rewrite H. Qed.


Lemma for_each_app {S A} (xs ys : list A) (body : A -> Py S unit) s :
  for_each (xs ++ ys) body s
  = bind (for_each xs body) (fun _ => for_each ys body) s.
Proof.
  revert s. induction xs as [|x xs IH]; intros s; simpl.
  - reflexivity.
  - unfold bind in *. destruct (body x s) as [[] s1|e s1]; [|reflexivity].
    apply IH.
Qed.

(** ** Sums of rationals *)

Lemma Qsum_app l1 l2 : (Qsum (l1 ++ l2) == Qsum l1 + Qsum l2)%Q.
Proof.
  induction l1 as [|x l1 IH]; simpl.
  - ring.
  - unfold Qsum in *. simpl. rewrite IH. ring.
Qed.

Lemma Qsum_map_plus {A} (f g : A -> Q) l :
  (Qsum (map (fun k => f k + g k) l) == Qsum (map f l) + Qsum (map g l))%Q.
Proof.
  induction l as [|x l IH]; unfold Qsum in *; simpl.
  - ring.
  - rewrite IH. ring.
Qed.

Lemma Qsum_map_ext {A} (f g : A -> Q) l :
  (forall x, In x l -> (f x == g x)%Q) -> (Qsum (map f l) == Qsum (map g l))%Q.
Proof.
  induction l as [|x l IH]; unfold Qsum in *; simpl; intros H.
  - reflexivity.
  - rewrite IH by auto. rewrite (H x) by auto. reflexivity.
Qed.

Lemma Qsum_delta (a n : nat) :
  a < n ->
  (Qsum (map (fun k => if a =? k then 1 else 0) (seq 0 n)) == 1)%Q.
Proof.
  induction n as [|n IH]; intros Ha; [lia|].
  rewrite seq_S, map_app, Qsum_app. simpl.
  destruct (Nat.eq_dec a n) as [->|Hne].
  - rewrite Nat.eqb_refl.
    rewrite (Qsum_map_ext _ (fun _ => 0%Q)).
    + assert (H0 : forall l : list nat, (Qsum (map (fun _ => 0%Q) l) == 0)%Q).
      { induction l as [|y l IHl]; unfold Qsum in *; simpl; [reflexivity|].
        rewrite IHl. ring. }
      rewrite H0. unfold Qsum; simpl. ring.
    + intros x Hx. apply in_seq in Hx.
      destruct (Nat.eqb_spec n x); [lia|reflexivity].
  - rewrite IH by lia. destruct (Nat.eqb_spec a n); [lia|].
    unfold Qsum; simpl. ring.
Qed.

(** ** Mean and variance of 0/1 samples *)


Lemma Qlen_cons {A} (x : A) l : (Qlen (x :: l) == Qlen l + 1)%Q.
Proof.
  unfold Qlen. cbn [length]. rewrite Nat2Z.inj_succ, <- Z.add_1_r.
  rewrite inject_Z_plus. reflexivity.
Qed.

Lemma Qlen_pos {A} (l : list A) : 0 < length l -> (0 < Qlen l)%Q.
Proof.
  intros H. unfold Qlen. change 0%Q with (inject_Z 0).
  rewrite <- Zlt_Qlt. lia.
Qed.

Lemma Qsgn_Qlen {A} (l : list A) : 0 < length l -> Qsgn (Qlen l) = Gt.
Proof.
  intros H. unfold Qsgn. apply Qgt_alt. now apply Qlen_pos.
Qed.

Lemma fmean_Fin xs :
  0 < length xs -> fmean xs = Fin (Qsum xs / Qlen xs).
Proof.
  intros H. unfold fmean, fdiv, of_nat. fold (Qlen xs).
  now rewrite Qsgn_Qlen.
Qed.

Lemma fsum_map_Fin {A} (g : A -> Q) xs :
  fsum (map (fun x => Fin (g x)) xs) = Fin (Qsum (map g xs)).
Proof.
  induction xs as [|x xs IH]; [reflexivity|].
  unfold fsum, Qsum in *. cbn [map foldr]. now rewrite IH.
Qed.

Lemma fvar_Fin xs :
  0 < length xs ->
  fvar xs =
  Fin (Qsum (map (fun x => (x + - (Qsum xs / Qlen xs)) * (x + - (Qsum xs / Qlen xs)))%Q xs)
       / Qlen xs).
Proof.
  intros H. unfold fvar. rewrite fmean_Fin by assumption.
  cbn [fsub fneg fadd fmul]. rewrite fsum_map_Fin.
  unfold fdiv, of_nat. fold (Qlen xs). now rewrite Qsgn_Qlen.
Qed.

Lemma Qsum_cons x l : Qsum (x :: l) = (x + Qsum l)%Q.
Proof. reflexivity. Qed.

Lemma Qsum_zero_one_bounds xs :
  Forall zero_one xs -> (0 <= Qsum xs /\ Qsum xs <= Qlen xs)%Q.
Proof.
  induction 1 as [|x xs Hx _ IH].
  - unfold Qsum, Qlen; simpl. split; apply Qle_refl.
  - rewrite Qsum_cons, Qlen_cons. destruct IH as [IH1 IH2].
    destruct Hx as [-> | ->]; split; lra.
Qed.

Lemma Qsum_sq_dev xs m :
  Forall zero_one xs ->
  (Qsum (map (fun x => (x + - m) * (x + - m)) xs)
   == Qsum xs - 2 * m * Qsum xs + Qlen xs * m * m)%Q.
Proof.
  induction 1 as [|x xs Hx _ IH].
  - unfold Qsum, Qlen; simpl. ring.
  - cbn [map]. rewrite !Qsum_cons, Qlen_cons, IH.
    destruct Hx as [-> | ->]; ring.
Qed.

(** The population variance of 0/1 samples is [m (1 - m)] for their
    mean [m], hence at most a quarter. *)
Lemma zero_one_mean_var xs :
  Forall zero_one xs -> 0 < length xs ->
  exists m v : Q,
    fmean xs = Fin m /\ fvar xs = Fin v
    /\ (m == Qsum xs / Qlen xs)%Q
    /\ (0 <= m)%Q /\ (m <= 1)%Q
    /\ (v == m * (1 - m))%Q /\ (0 <= v)%Q /\ (v <= 1 # 4)%Q.
Proof.
  intros H01 Hlen.
  pose proof (Qlen_pos xs Hlen) as Hn.
  destruct (Qsum_zero_one_bounds xs H01) as [Hs0 Hs1].
  set (m := (Qsum xs / Qlen xs)%Q).
  assert (Hm : (m * Qlen xs == Qsum xs)%Q).
  { unfold m. field. intros E. rewrite E in Hn. now apply Qlt_irrefl in Hn. }
  assert (Hm0 : (0 <= m)%Q).
  { unfold m. apply Qle_shift_div_l; [assumption|]. lra. }
  assert (Hm1 : (m <= 1)%Q).
  { unfold m. apply Qle_shift_div_r; [assumption|]. lra. }
  assert (Hv : (Qsum (map (fun x => (x + - m) * (x + - m)) xs) / Qlen xs
                == m * (1 - m))%Q).
  { rewrite Qsum_sq_dev by assumption. rewrite <- Hm. field.
    intros E. rewrite E in Hn. now apply Qlt_irrefl in Hn. }
  exists m, (Qsum (map (fun x => (x + - m) * (x + - m))%Q xs) / Qlen xs)%Q.
  split; [now apply fmean_Fin|]. split; [now apply fvar_Fin|].
  split; [reflexivity|]. split; [assumption|]. split; [assumption|].
  split; [assumption|]. rewrite Hv. clearbody m. clear Hv Hm.
  assert (H1 : (0 <= m * (1 - m))%Q) by (apply Qmult_le_0_compat; lra).
  assert (H2 : (0 <= (m - (1 # 2)) * (m - (1 # 2)))%Q).
  { destruct (Qlt_le_dec m (1 # 2)) as [Hlt|Hge].
    - assert (E : ((m - (1 # 2)) * (m - (1 # 2))
                   == ((1 # 2) - m) * ((1 # 2) - m))%Q) by ring.
      rewrite E. apply Qmult_le_0_compat; lra.
    - apply Qmult_le_0_compat; lra. }
  split; [assumption|].
  assert (E : (m * (1 - m) == (1 # 4) - (m - (1 # 2)) * (m - (1 # 2)))%Q) by ring.
  rewrite E. lra.
Qed.

Lemma indicator_zero_one k idx : Forall zero_one (indicator k idx).
Proof.
  unfold indicator. apply Forall_forall. intros x Hx.
  apply list_elem_of_In, in_map_iff in Hx. destruct Hx as [a [<- _]].
  destruct (a =? k); [now right|now left].
Qed.

Lemma length_indicator k idx : length (indicator k idx) = length idx.
Proof. unfold indicator. now rewrite length_map. Qed.

(** Each draw votes for exactly one arm: the counts sum to the number
    of draws. *)
Lemma Qsum_indicator (n : nat) idx :
  Forall (fun a => a < n) idx ->
  (Qsum (map (fun k => Qsum (indicator k idx)) (seq 0 n)) == Qlen idx)%Q.
Proof.
  induction 1 as [|a idx Ha _ IH].
  - unfold indicator; simpl.
    induction (seq 0 n) as [|y l IHl]; [reflexivity|].
    cbn [map]. rewrite Qsum_cons, IHl. unfold Qsum, Qlen; simpl. ring.
  - unfold indicator in *. cbn [map].
    rewrite (Qsum_map_ext _
      (fun k => (if a =? k then 1 else 0)
                + Qsum (map (fun a0 => if a0 =? k then 1%Q else 0%Q) idx))%Q).
    + rewrite Qsum_map_plus, IH, Qsum_delta, Qlen_cons by assumption. ring.
    + intros k _. rewrite Qsum_cons. reflexivity.
Qed.

(** ** [argmax] *)

Lemma argmax_from_lt {A} (le : A -> A -> bool) stop bi b i l :
  bi < i -> argmax_from le stop bi b i l < i + length l.
Proof.
  revert bi b i. induction l as [|x l IH]; intros bi b i Hlt; cbn [argmax_from length].
  - lia.
  - destruct (stop b); [lia|].
    destruct (le x b).
    + specialize (IH bi b (S i)). lia.
    + specialize (IH i x (S i)). lia.
Qed.

Lemma argmax_Some_lt {A} (le : A -> A -> bool) stop l a :
  argmax le stop l = Some a -> a < length l.
Proof.
  destruct l as [|x l]; [discriminate|]. cbn [argmax length].
  intros [= <-]. pose proof (argmax_from_lt le stop 0 x 1 l). lia.
Qed.

Lemma argmax_is_Some {A} (le : A -> A -> bool) stop l :
  0 < length l -> is_Some (argmax le stop l).
Proof. destruct l; cbn [length]; [lia|]. intros _. now eexists. Qed.

Lemma mapM_total {A B} (f : A -> option B) (d : B) l :
  (forall x, In x l -> is_Some (f x)) ->
  mapM f l = Some (map (fun x => default d (f x)) l).
Proof.
  intros H. apply mapM_Some_2.
  induction l as [|x l IH]; cbn [map]; constructor.
  - destruct (H x) as [y Hy]; [now left|]. now rewrite Hy.
  - apply IH. intros y Hy. apply H. now right.
Qed.

Section EstimatorFacts.
Variable c : Config.
Variable w : World.

Lemma length_expected_samples t a b :
  length (expected_samples c w t a b) = K c.
Proof.
  unfold expected_samples.
  destruct (String.eqb _ _); rewrite ?length_map; apply length_seq.
Qed.

Lemma argmax_axis0_best_arms t a b :
  0 < K c ->
  argmax_axis0 (expected_samples c w t a b) (M c) = Some (best_arms c w t a b).
Proof.
  intros HK. pose proof (length_expected_samples t a b) as Hlen.
  unfold argmax_axis0, best_arms.
  destruct (expected_samples c w t a b) as [|r rows] eqn:E.
  - cbn [length] in Hlen. lia.
  - apply mapM_total. intros m _. apply argmax_is_Some.
    rewrite length_map. cbn [length]. lia.
Qed.

Lemma length_best_arms t a b : length (best_arms c w t a b) = M c.
Proof. unfold best_arms. now rewrite length_map, length_seq. Qed.

Lemma best_arms_lt t a b :
  0 < K c -> Forall (fun k => k < K c) (best_arms c w t a b).
Proof.
  intros HK. unfold best_arms. apply Forall_forall. intros k Hk.
  apply list_elem_of_In, in_map_iff in Hk. destruct Hk as [m [<- _]].
  destruct (Qargmax _) as [k|] eqn:E; cbn [default]; [|assumption].
  apply argmax_Some_lt in E.
  now rewrite length_map, length_expected_samples in E.
Qed.
End EstimatorFacts.

(** ** The estimator *)

Lemma allocated_spec c t_max s :
  allocated c t_max s = true ->
  (shape0 (mean (actions_predictive_density s)) = K c
   /\ shape1 (mean (actions_predictive_density s)) = t_max)
  /\ (shape0 (var (actions_predictive_density s)) = K c
      /\ shape1 (var (actions_predictive_density s)) = t_max)
  /\ (shape0 (actions s) = K c /\ shape1 (actions s) = t_max)
  /\ (shape0 (returns s) = K c /\ shape1 (returns s) = t_max)
  /\ (shape0 (returns_expected s) = K c /\ shape1 (returns_expected s) = t_max)
  /\ length (n_samples s) = t_max.
Proof.
  unfold allocated, has_shape. intros H.
  rewrite !andb_true_iff, !Nat.eqb_eq in H. tauto.
Qed.

Lemma hyper_ok_spec c s :
  hyper_ok c s = true ->
  exists a b, last (reward_posterior_alpha s) = Some a
              /\ last (reward_posterior_beta s) = Some b
              /\ length a = K c /\ length b = K c.
Proof.
  unfold hyper_ok. intros H.
  destruct (last (reward_posterior_alpha s)) as [a|]; [|discriminate].
  destruct (last (reward_posterior_beta s)) as [b|]; [|discriminate].
  apply andb_prop in H. destruct H as [Ha Hb].
  apply Nat.eqb_eq in Ha, Hb. now exists a, b.
Qed.

Lemma rvs_samples_ok c w t a b :
  length a = K c -> length b = K c ->
  rvs_samples c w t a b
  = Some (map (fun k => map (beta_rvs w t a b k) (seq 0 (M c))) (seq 0 (K c))).
Proof.
  intros Ha Hb. unfold rvs_samples, broadcast_len.
  rewrite Ha, Hb, !Nat.eqb_refl. reflexivity.
Qed.

Lemma assign_col_ok {A} (d : A) (a : ndarray A) t vec s :
  t < shape1 a -> length vec = shape0 a ->
  assign_col d a t vec s = Ok (put_col d a t vec) s.
Proof.
  intros Ht Hlen. unfold assign_col, setcol.
  apply Nat.ltb_lt in Ht. rewrite Ht, Hlen, Nat.eqb_refl. reflexivity.
Qed.

Lemma compute_ok c w t t_max s a b :
  beta_named c = true -> 0 < K c -> t < t_max ->
  allocated c t_max s = true ->
  last (reward_posterior_alpha s) = Some a ->
  last (reward_posterior_beta s) = Some b ->
  length a = K c -> length b = K c ->
  compute_action_predictive_density c w t s = Ok tt (density_written c w t a b s).
Proof.
  intros Hbeta HK Ht Hal Hla Hlb Ha Hb.
  apply allocated_spec in Hal.
  destruct Hal as ((Hm0 & Hm1) & (Hv0 & Hv1) & _ & _ & (He0 & He1) & _).
  unfold beta_named in Hbeta.
  unfold compute_action_predictive_density.
  unfold bind at 1. unfold get at 1.
  rewrite Hbeta, Hla, Hlb.
  unfold bind at 1. unfold bind at 1. unfold bind at 1. cbn [lift ret fst snd].
  unfold bind at 1. rewrite (rvs_samples_ok c w t a b Ha Hb). cbn [lift ret].
  fold (expected_samples c w t a b).
  erewrite bind_Ok;
    [|apply assign_col_ok;
      [lia|now rewrite length_map, length_expected_samples]].
  unfold bind at 1. cbn [modify].
  rewrite (argmax_axis0_best_arms c w t a b HK).
  unfold bind at 1. cbn [lift ret].
  unfold bind at 1. unfold get at 1.
  unfold bind at 1. cbn [dict_getitem String.eqb Ascii.eqb Bool.eqb ret].
  erewrite bind_Ok;
    [|apply assign_col_ok;
      [cbn; lia|cbn; now rewrite length_map, length_seq]].
  unfold bind at 1. cbn [modify].
  unfold bind at 1. cbn [lift ret].
  unfold bind at 1. unfold get at 1.
  unfold bind at 1. cbn [dict_getitem String.eqb Ascii.eqb Bool.eqb ret].
  erewrite bind_Ok;
    [|apply assign_col_ok;
      [cbn; lia|cbn; now rewrite length_map, length_seq]].
  reflexivity.
Qed.

Lemma compute_prior_unsupported c w t s :
  beta_named c = false ->
  compute_action_predictive_density c w t s
  = Raise (Exc ValueError (prior_not_implemented c)) s.
Proof.
  intros H. unfold beta_named in H.
  unfold compute_action_predictive_density.
  unfold bind at 1. unfold get at 1. unfold bind at 1. now rewrite H.
Qed.

(** The estimator returns only with a Beta prior and at least one arm. *)
Lemma compute_Ok_inv c w t s s' :
  compute_action_predictive_density c w t s = Ok tt s' ->
  beta_named c = true /\ 0 < K c.
Proof.
  intros H. split.
  - destruct (beta_named c) eqn:E; [reflexivity|].
    rewrite compute_prior_unsupported in H by assumption. discriminate.
  - destruct (K c) as [|k] eqn:HK; [exfalso|lia].
    revert H. unfold compute_action_predictive_density, rvs_samples, assign_col,
      dict_getitem.
    unfold bind, get, lift, raise, ret, modify. rewrite HK.
    destruct (String.eqb (dist_name (reward_function c)) "bernoulli");
      cbn [seq map String.eqb Ascii.eqb Bool.eqb argmax_axis0];
      repeat (match goal with
              | |- context [match ?x with _ => _ end] =>
                  lazymatch x with
                  | context [match _ with _ => _ end] => fail
                  | _ => destruct x
                  end
              end; cbv beta iota; cbn [map argmax_axis0]);
      discriminate.
Qed.

Lemma bcast_nth_map_seq {A} (d : A) (g : nat -> A) n k :
  k < n -> bcast_nth d (map g (seq 0 n)) k = g k.
Proof.
  intros Hk. unfold bcast_nth. rewrite length_map, length_seq.
  destruct (Nat.eqb_spec n 1) as [->|_].
  - assert (k = 0) as -> by lia. reflexivity.
  - rewrite (nth_indep _ d (g 0)) by (rewrite length_map, length_seq; lia).
    rewrite map_nth, seq_nth by lia. reflexivity.
Qed.

(** Projections of updated states and arrays. *)
Ltac simpl_state :=
  cbn [mean var actions_predictive_density actions returns returns_expected
       n_samples reward_posterior_alpha reward_posterior_beta
       shape0 shape1 item
       set_var set_mean set_density set_returns_expected set_actions
       set_returns set_n_samples set_posterior_alpha set_posterior_beta
       put_col put_item density_written allocate] in *.

Section DensityWritten.
Variable c : Config.
Variable w : World.
Variables (t t_max : nat) (a b : list Q) (s : State).
Hypothesis Hal : allocated c t_max s = true.
Hypothesis Ht : t < t_max.


Lemma density_written_mean k :
  k < K c ->
  getitem (mean (actions_predictive_density (density_written c w t a b s))) k t
  = Some (fmean (indicator k (best_arms c w t a b))).
Proof.
  intros Hk. apply allocated_spec in Hal.
  destruct Hal as ((Hm0 & Hm1) & _).
  unfold getitem. simpl_state. rewrite Hm0, Hm1.
  destruct (Nat.ltb_spec k (K c)); [|lia].
  destruct (Nat.ltb_spec t t_max); [|lia].
  rewrite Nat.eqb_refl, bcast_nth_map_seq by assumption. reflexivity.
Qed.

Lemma density_written_var k :
  k < K c ->
  getitem (var (actions_predictive_density (density_written c w t a b s))) k t
  = Some (fvar (indicator k (best_arms c w t a b))).
Proof.
  intros Hk. apply allocated_spec in Hal.
  destruct Hal as (_ & (Hv0 & Hv1) & _).
  unfold getitem. simpl_state. rewrite Hv0, Hv1.
  destruct (Nat.ltb_spec k (K c)); [|lia].
  destruct (Nat.ltb_spec t t_max); [|lia].
  rewrite Nat.eqb_refl, bcast_nth_map_seq by assumption. reflexivity.
Qed.

Lemma density_written_mean_col :
  getcol (mean (actions_predictive_density (density_written c w t a b s))) t
  = Some (map (fun k => fmean (indicator k (best_arms c w t a b))) (seq 0 (K c))).
Proof.
  apply allocated_spec in Hal. destruct Hal as ((Hm0 & Hm1) & _).
  unfold getcol, column. simpl_state. rewrite Hm0, Hm1.
  destruct (Nat.ltb_spec t t_max); [|lia]. f_equal.
  apply map_ext_in. intros k Hk. apply in_seq in Hk.
  rewrite Nat.eqb_refl, bcast_nth_map_seq by lia. reflexivity.
Qed.
End DensityWritten.

Lemma Qsum_map_scale {A} (f : A -> Q) (x : Q) l :
  (Qsum (map (fun k => f k / x) l) == Qsum (map f l) / x)%Q.
Proof.
  induction l as [|y l IH]; cbn [map]; rewrite ?Qsum_cons.
  - unfold Qsum; simpl. unfold Qdiv. ring.
  - rewrite IH. unfold Qdiv. ring.
Qed.


(** The fractions of the draws won by each arm form a distribution. *)
Lemma win_fractions_distribution n idx :
  0 < length idx -> Forall (fun k => k < n) idx ->
  let qs := map (fun k => Qsum (indicator k idx) / Qlen idx)%Q (seq 0 n) in
  map (fun k => fmean (indicator k idx)) (seq 0 n) = map Fin qs
  /\ length qs = n
  /\ Forall (fun q => (0 <= q)%Q) qs
  /\ (Qsum qs == 1)%Q.
Proof.
  intros Hlen Hidx qs. subst qs.
  pose proof (Qlen_pos idx Hlen) as Hn.
  split; [|split; [|split]].
  - rewrite map_map. apply map_ext. intros k.
    rewrite fmean_Fin by (now rewrite length_indicator).
    unfold Qlen. now rewrite length_indicator.
  - now rewrite length_map, length_seq.
  - apply Forall_forall. intros q Hq.
    apply list_elem_of_In, in_map_iff in Hq. destruct Hq as [k [<- _]].
    apply Qle_shift_div_l; [assumption|].
    destruct (Qsum_zero_one_bounds _ (indicator_zero_one k idx)). lra.
  - rewrite Qsum_map_scale, Qsum_indicator by assumption.
    field. intros E. rewrite E in Hn. now apply Qlt_irrefl in Hn.
Qed.

Lemma mean_column_ok c w t t_max s :
  1 <= M c -> 1 <= K c -> beta_named c = true -> t < t_max ->
  allocated c t_max s = true -> hyper_ok c s = true ->
  exists s' qs,
    compute_action_predictive_density c w t s = Ok tt s'
    /\ getcol (mean (actions_predictive_density s')) t = Some (map Fin qs)
    /\ length qs = K c
    /\ Forall (fun q => (0 <= q)%Q) qs
    /\ (Qsum qs == 1)%Q.
Proof.
  intros HM HK Hbeta Ht Hal Hhy.
  destruct (hyper_ok_spec c s Hhy) as (a & b & Hla & Hlb & Ha & Hb).
  destruct (win_fractions_distribution (K c) (best_arms c w t a b))
    as (Hcol & Hlen & Hpos & Hsum).
  { rewrite length_best_arms. lia. }
  { apply best_arms_lt. lia. }
  eexists _, _. split; [eapply compute_ok; eauto|].
  split; [|split; [|split]]; [|exact Hlen|exact Hpos|exact Hsum].
  erewrite density_written_mean_col by eauto. now rewrite Hcol.
Qed.

(** C5.  Whenever the Monte Carlo estimator has run at [t] with at
    least one parameter draw, on the arrays of a run, the predictive
    mean column it has written at [t] holds non-negative numbers that
    sum to 1 across the [K] arms.  It does run, whatever the draws, as
    soon as there is an arm and the prior is a Beta. *)
Theorem predictive_mean_is_distribution c w t t_max s :
  1 <= M c -> t < t_max ->
  allocated c t_max s = true -> hyper_ok c s = true ->
  (forall s',
      compute_action_predictive_density c w t s = Ok tt s' ->
      exists qs,
        getcol (mean (actions_predictive_density s')) t = Some (map Fin qs)
        /\ length qs = K c
        /\ Forall (fun q => (0 <= q)%Q) qs
        /\ (Qsum qs == 1)%Q)
  /\ (1 <= K c -> beta_named c = true ->
      exists s', compute_action_predictive_density c w t s = Ok tt s').
Proof.
  intros HM Ht Hal Hhy. split.
  - intros s' Hc. destruct (compute_Ok_inv c w t s s' Hc) as [Hbeta HK].
    destruct (mean_column_ok c w t t_max s HM HK Hbeta Ht Hal Hhy)
      as (s1 & qs & Hc1 & Hq).
    rewrite Hc in Hc1. injection Hc1 as <-. now exists qs.
  - intros HK Hbeta.
    destruct (mean_column_ok c w t t_max s HM HK Hbeta Ht Hal Hhy)
      as (s1 & qs & Hc1 & _).
    now exists s1.
Qed.

Lemma var_entry_ok c w t t_max s k :
  1 <= M c -> k < K c -> beta_named c = true -> t < t_max ->
  allocated c t_max s = true -> hyper_ok c s = true ->
  exists s' m v,
    compute_action_predictive_density c w t s = Ok tt s'
    /\ getitem (mean (actions_predictive_density s')) k t = Some (Fin m)
    /\ getitem (var (actions_predictive_density s')) k t = Some (Fin v)
    /\ (v == m * (1 - m))%Q /\ (0 <= v)%Q /\ (v <= 1 # 4)%Q.
Proof.
  intros HM Hk Hbeta Ht Hal Hhy.
  destruct (hyper_ok_spec c s Hhy) as (a & b & Hla & Hlb & Ha & Hb).
  destruct (zero_one_mean_var (indicator k (best_arms c w t a b)))
    as (m & v & Hm & Hv & _ & _ & _ & Hvm & Hv0 & Hv1).
  { apply indicator_zero_one. }
  { rewrite length_indicator, length_best_arms. lia. }
  exists (density_written c w t a b s), m, v.
  split; [eapply compute_ok; eauto; lia|].
  split; [erewrite density_written_mean by eauto; now rewrite Hm|].
  split; [erewrite density_written_var by eauto; now rewrite Hv|].
  auto.
Qed.

(** C10, as the code has it.  Whenever the Monte Carlo estimator has
    run at [t] with at least one parameter draw, for every arm [k] the
    variance it has written at [(k, t)] is a number between 0 and 1/4.
    That this number is [m (1 - m)] for the mean [m] written at
    [(k, t)] is true of the exact quotients only, not of the [float64]
    values that numpy rounds them to, and is not part of the
    statement. *)
Theorem predictive_var_in_range c w t t_max s :
  1 <= M c -> t < t_max ->
  allocated c t_max s = true -> hyper_ok c s = true ->
  (forall s' k,
      compute_action_predictive_density c w t s = Ok tt s' -> k < K c ->
      exists v,
        getitem (var (actions_predictive_density s')) k t = Some (Fin v)
        /\ (0 <= v)%Q /\ (v <= 1 # 4)%Q)
  /\ (1 <= K c -> beta_named c = true ->
      exists s', compute_action_predictive_density c w t s = Ok tt s').
Proof.
  intros HM Ht Hal Hhy. split.
  - intros s' k Hc Hk. destruct (compute_Ok_inv c w t s s' Hc) as [Hbeta _].
    destruct (var_entry_ok c w t t_max s k HM Hk Hbeta Ht Hal Hhy)
      as (s1 & m & v & Hc1 & _ & Hv & _ & Hv0 & Hv1).
    rewrite Hc in Hc1. injection Hc1 as <-. now exists v.
  - intros HK Hbeta.
    destruct (var_entry_ok c w t t_max s 0 HM ltac:(lia) Hbeta Ht Hal Hhy)
      as (s1 & _ & _ & Hc1 & _).
    now exists s1.
Qed.

(** ** The posterior update *)

Lemma Qsum_seq_sum_upto (f : nat -> Q) n :
  (Qsum (map f (seq 0 n)) == sum_upto f n)%Q.
Proof.
  induction n as [|n IH]; [reflexivity|].
  rewrite seq_S, map_app, Qsum_app, IH. cbn [sum_upto map plus].
  rewrite Qsum_cons. unfold Qsum; simpl. ring.
Qed.

Lemma nth_zip_with {A B C} (f : A -> B -> C) u v k dA dB dC :
  k < length u -> k < length v ->
  nth k (zip_with f u v) dC = f (nth k u dA) (nth k v dB).
Proof.
  revert v k. induction u as [|x u IH]; intros [|y v] [|k]; cbn [length];
    try lia; intros Hu Hv; cbn [zip_with nth]; [reflexivity|].
  apply IH; lia.
Qed.

Lemma nth_map_seq {A} (g : nat -> A) n k d :
  k < n -> nth k (map g (seq 0 n)) d = g k.
Proof.
  intros Hk.
  rewrite (nth_indep _ d (g 0)) by (rewrite length_map, length_seq; lia).
  rewrite map_nth, seq_nth by lia. reflexivity.
Qed.

Lemma length_sum_axis1_upto a n : length (sum_axis1_upto a n) = shape0 a.
Proof. unfold sum_axis1_upto. now rewrite length_map, length_seq. Qed.

Lemma nth_sum_axis1_upto a n k :
  k < shape0 a -> n <= shape1 a ->
  (nth k (sum_axis1_upto a n) 0 == sum_upto (item a k) n)%Q.
Proof.
  intros Hk Hn. unfold sum_axis1_upto.
  rewrite nth_map_seq by assumption.
  rewrite Nat.min_l by lia. apply Qsum_seq_sum_upto.
Qed.

Lemma broadcast2_same f u v :
  length u = length v -> broadcast2 f u v = Some (zip_with f u v).
Proof. intros H. unfold broadcast2. now rewrite H, Nat.eqb_refl. Qed.

Lemma prior_ok_spec c :
  prior_ok c = true ->
  length (alpha (reward_prior c)) = K c /\ length (beta (reward_prior c)) = K c.
Proof.
  unfold prior_ok. rewrite andb_true_iff, !Nat.eqb_eq. tauto.
Qed.

(** The update on a log whose arrays have the shape of a run of horizon
    [t_max]. *)
Lemma update_ok c t t_max s :
  bernoulli_beta c = true -> prior_ok c = true ->
  shape0 (actions s) = K c -> shape1 (actions s) = t_max ->
  shape0 (returns s) = K c -> shape1 (returns s) = t_max ->
  t < t_max ->
  exists a' b',
    update_reward_posterior c t s = Ok tt (posterior_appended a' b' s)
    /\ length a' = K c /\ length b' = K c
    /\ forall k, k < K c ->
         (nth k a' 0 == nth k (alpha (reward_prior c)) 0 + successes s k t)%Q
         /\ (nth k b' 0
             == nth k (beta (reward_prior c)) 0
                + (trials s k t - successes s k t))%Q.
Proof.
  intros Hbb Hp Ha0 Ha1 Hr0 Hr1 Ht.
  destruct (prior_ok_spec c Hp) as [Hpa Hpb].
  set (s_t := sum_axis1_upto (returns s) (t + 1)).
  set (n_t := sum_axis1_upto (actions s) (t + 1)).
  assert (Hls : length s_t = K c)
    by (subst s_t; now rewrite length_sum_axis1_upto).
  assert (Hln : length n_t = K c)
    by (subst n_t; now rewrite length_sum_axis1_upto).
  exists (zip_with Qplus (alpha (reward_prior c)) s_t),
         (zip_with Qplus (beta (reward_prior c)) (zip_with Qminus n_t s_t)).
  split; [|split; [|split]].
  - unfold update_reward_posterior. unfold bernoulli_beta, beta_named in Hbb.
    rewrite Hbb. unfold bind at 1. unfold get at 1.
    fold s_t. fold n_t.
    rewrite (broadcast2_same Qplus _ s_t) by congruence.
    rewrite (broadcast2_same Qminus n_t s_t) by congruence.
    unfold bind, lift, ret, modify.
    rewrite (broadcast2_same Qplus (beta (reward_prior c)))
      by (rewrite length_zip_with; lia).
    reflexivity.
  - rewrite length_zip_with. lia.
  - rewrite !length_zip_with. lia.
  - intros k Hk. unfold successes, trials. split.
    + rewrite (nth_zip_with Qplus _ _ k 0%Q 0%Q) by lia.
      subst s_t. rewrite nth_sum_axis1_upto by lia.
      replace (t + 1) with (S t) by lia. reflexivity.
    + rewrite (nth_zip_with Qplus _ _ k 0%Q 0%Q)
        by (rewrite ?length_zip_with; lia).
      rewrite (nth_zip_with Qminus _ _ k 0%Q 0%Q) by lia.
      subst s_t n_t. rewrite !nth_sum_axis1_upto by lia.
      replace (t + 1) with (S t) by lia. reflexivity.
Qed.

(** ** Selecting the action *)

Lemma argmax_from_nat l : forall bi b i,
  let r := argmax_from Nat.leb (fun _ => false) bi b i l in
  (r = bi /\ forall j, j < length l -> nth j l 0 <= b)
  \/ (exists p, r = i + p /\ p < length l /\ b < nth p l 0
                /\ (forall j, j < p -> nth j l 0 < nth p l 0)
                /\ (forall j, j < length l -> nth j l 0 <= nth p l 0)).
Proof.
  induction l as [|x l IH]; intros bi b i; cbn [argmax_from length].
  - left. split; [reflexivity|]. intros j Hj. lia.
  - destruct (Nat.leb_spec x b) as [Hle|Hgt].
    + destruct (IH bi b (S i)) as [[Hr Hall]|(p & Hr & Hp & Hb & Hlow & Hall)].
      * left. split; [exact Hr|]. intros [|j] Hj; cbn [nth]; [lia|].
        apply Hall. lia.
      * right. exists (S p). cbn [nth]. split; [lia|]. split; [lia|].
        split; [exact Hb|]. split.
        -- intros [|j] Hj; cbn [nth]; [lia|]. apply Hlow. lia.
        -- intros [|j] Hj; cbn [nth]; [lia|]. apply Hall. lia.
    + destruct (IH i x (S i)) as [[Hr Hall]|(p & Hr & Hp & Hb & Hlow & Hall)].
      * right. exists 0. cbn [nth]. split; [lia|]. split; [lia|].
        split; [exact Hgt|]. split; [intros j Hj; lia|].
        intros [|j] Hj; cbn [nth]; [lia|]. apply Hall. lia.
      * right. exists (S p). cbn [nth]. split; [lia|]. split; [lia|].
        split; [lia|]. split.
        -- intros [|j] Hj; cbn [nth]; [lia|]. apply Hlow. lia.
        -- intros [|j] Hj; cbn [nth]; [lia|]. apply Hall. lia.
Qed.

Lemma nargmax_spec l a :
  nargmax l = Some a ->
  first_max (length l) (fun k => nth k l 0) a.
Proof.
  destruct l as [|x l]; [discriminate|]. unfold nargmax. cbn [argmax].
  intros [= <-]. unfold first_max. cbn [length].
  destruct (argmax_from_nat l 0 x 1) as [[Hr Hall]|(p & Hr & Hp & Hb & Hlow & Hall)];
    cbn zeta in *; rewrite Hr.
  - split; [lia|]. split; [|intros k Hk; lia].
    intros [|k] Hk; cbn [nth]; [lia|]. apply Hall. lia.
  - cbn [plus nth]. split; [lia|]. split.
    + intros [|k] Hk; cbn [nth]; [lia|]. apply Hall. lia.
    + intros [|k] Hk; cbn [nth]; [lia|]. apply Hlow. lia.
Qed.

Lemma zip_with_map_map {A B C D} (f : B -> C -> D) (g : A -> B) (h : A -> C) l :
  zip_with f (map g l) (map h l) = map (fun x => f (g x) (h x)) l.
Proof. induction l as [|x l IH]; cbn [map zip_with]; [reflexivity|]. now rewrite IH. Qed.

Lemma replicate_map_seq {A} (x : A) n i :
  replicate n x = map (fun _ => x) (seq i n).
Proof.
  revert i. induction n as [|n IH]; intros i; [reflexivity|].
  cbn [replicate seq map]. now rewrite <- IH.
Qed.

(** Summing the one-hot rows counts the votes of each arm. *)
Lemma sum_axis0_one_hot n votes :
  sum_axis0 n (map (one_hot_row n) votes)
  = map (count_votes votes) (seq 0 n).
Proof.
  unfold sum_axis0. induction votes as [|v votes IH]; cbn [map foldr].
  - apply replicate_map_seq.
  - rewrite IH. unfold one_hot_row. rewrite zip_with_map_map.
    apply map_ext. intros k. cbn [count_votes].
    now rewrite (Nat.eqb_sym k v).
Qed.

Lemma pick_action_inf w t s :
  n_samples s !! t = Some PInf ->
  pick_action w t s = Raise (Exc TypeError "unhashable type: 'slice'") s.
Proof.
  intros Hn. unfold pick_action, bind, get, lift, ret. now rewrite Hn.
Qed.

(** Reading the votes changes no attribute. *)
Lemma draw_votes_frame w t n s : final (draw_votes w t n s) = s.
Proof.
  unfold draw_votes, dict_getitem, read_col, py_int, multinomial.
  unfold bind, get, lift, ret, raise.
  cbn [String.eqb Ascii.eqb Bool.eqb].
  destruct (getcol _ t) as [pvals|]; [|reflexivity].
  destruct n as [| |q|]; try reflexivity.
  destruct (valid_pvals pvals); cbn [negb]; [|reflexivity].
  destruct (Qtrunc q <? 0)%Z; reflexivity.
Qed.

Lemma draw_votes_ok w t s q pvals :
  getcol (mean (actions_predictive_density s)) t = Some pvals ->
  valid_pvals pvals = true -> (0 <= Qtrunc q)%Z ->
  draw_votes w t (Fin q) s
  = Ok (map (one_hot_row (length pvals))
          (votes_of w t pvals (Z.to_nat (Qtrunc q)))) s.
Proof.
  intros Hcol Hv Hq.
  unfold draw_votes, dict_getitem, read_col, py_int, multinomial.
  unfold bind, get, lift, ret, raise.
  cbn [String.eqb Ascii.eqb Bool.eqb]. rewrite Hcol, Hv. cbn [negb].
  destruct (Z.ltb_spec (Qtrunc q) 0); [lia|].
  unfold votes_of. now rewrite map_map.
Qed.

Lemma first_index_one_hot (g : nat -> Q) a n : forall i,
  i <= a < i + n ->
  (forall k, i <= k < i + n -> g k = if k =? a then 1%Q else 0%Q) ->
  first_index (Qeq_bool 1) (map g (seq i n)) = Some (a - i).
Proof.
  induction n as [|n IH]; intros i Ha Hg; [lia|].
  cbn [seq map first_index]. rewrite (Hg i) by lia.
  destruct (Nat.eqb_spec i a) as [->|Hne].
  - cbn. f_equal. lia.
  - cbn. rewrite (IH (S i)) by (try lia; intros k Hk; apply Hg; lia).
    cbn. f_equal. lia.
Qed.

Lemma getcol_put_item_blank (acts : ndarray Q) a t :
  (forall k, item acts k t = 0%Q) ->
  t < shape1 acts ->
  getcol (put_item acts a t 1%Q) t
  = Some (map (fun k => if k =? a then 1%Q else 0%Q) (seq 0 (shape0 acts))).
Proof.
  intros Hblank Ht. unfold getcol, column. simpl_state.
  destruct (Nat.ltb_spec t (shape1 acts)); [|lia]. f_equal.
  apply map_ext. intros k. rewrite Nat.eqb_refl, andb_true_r.
  destruct (k =? a); [reflexivity|apply Hblank].
Qed.

(** On a blank column the selector either raises and leaves every
    attribute as it was, or returns an arm and has written a single 1,
    in that arm's row. *)
Lemma pick_action_cases w t s :
  blank_column s t ->
  (exists e, pick_action w t s = Raise e s)
  \/ (exists a, a < shape0 (actions s) /\ t < shape1 (actions s)
                /\ pick_action w t s
                   = Ok a (set_actions (put_item (actions s) a t 1%Q) s)).
Proof.
  intros Hblank. unfold pick_action, assign_item, setitem, read_col.
  unfold bind, get, modify.
  destruct (n_samples s !! t) as [n|]; cbn [lift ret raise]; [|left; eauto].
  destruct (is_inf n).
  { left. eexists. reflexivity. }
  pose proof (draw_votes_frame w t n s) as Hfr.
  destruct (draw_votes w t n s) as [votes s1|e s1]; cbn [final] in Hfr; subst s1;
    [|left; eauto].
  destruct (nargmax _) as [a|]; cbn [lift ret raise]; [|left; eauto].
  destruct (Nat.ltb_spec a (shape0 (actions s))); cbn [andb lift raise ret];
    [|left; eauto].
  destruct (Nat.ltb_spec t (shape1 (actions s))); cbn [andb lift raise ret];
    [|left; eauto].
  right. exists a. split; [assumption|]. split; [assumption|].
  rewrite getcol_put_item_blank by assumption. cbn [lift ret].
  rewrite (first_index_one_hot _ a (shape0 (actions s)) 0) by (auto; lia).
  cbn [lift ret]. now rewrite Nat.sub_0_r.
Qed.

Lemma getcol_column {A} (a : ndarray A) t :
  t < shape1 a -> getcol a t = Some (column a t).
Proof.
  intros Ht. unfold getcol. now destruct (Nat.ltb_spec t (shape1 a)); [|lia].
Qed.

Lemma length_column {A} (a : ndarray A) t : length (column a t) = shape0 a.
Proof. unfold column. now rewrite length_map, length_seq. Qed.

Lemma length_votes_of w t pvals n : length (votes_of w t pvals n) = n.
Proof. unfold votes_of. now rewrite length_map, length_seq. Qed.

(** C3, as the code has it.  On a finite budget [n_samples[t] = q] with
    [int(q) >= 0], vote probabilities [mean[:, t]] that
    [np.random.multinomial] accepts and a blank action column, the
    selector draws exactly [int(q)] votes ([q] truncated toward zero)
    with those probabilities, and returns and records the arm with the
    most votes, the lowest such arm on ties. *)
Theorem vote_selection c w t t_max s q :
  allocated c t_max s = true -> t < t_max -> 0 < K c ->
  n_samples s !! t = Some (Fin q) ->
  valid_pvals (column (mean (actions_predictive_density s)) t) = true ->
  (0 <= Qtrunc q)%Z ->
  blank_column s t ->
  let pvals := column (mean (actions_predictive_density s)) t in
  let votes := votes_of w t pvals (Z.to_nat (Qtrunc q)) in
  draw_votes w t (Fin q) s = Ok (map (one_hot_row (K c)) votes) s
  /\ length votes = Z.to_nat (Qtrunc q)
  /\ exists a,
       pick_action w t s = Ok a (set_actions (put_item (actions s) a t 1%Q) s)
       /\ first_max (K c) (count_votes votes) a.
Proof.
  intros Hal Ht HK Hn Hv Hq Hblank pvals votes.
  apply allocated_spec in Hal.
  destruct Hal as ((Hm0 & Hm1) & _ & (Ha0 & Ha1) & _).
  assert (Hlen : length pvals = K c)
    by (subst pvals; now rewrite length_column).
  assert (Hdraw : draw_votes w t (Fin q) s = Ok (map (one_hot_row (K c)) votes) s).
  { rewrite <- Hlen. apply draw_votes_ok; auto. apply getcol_column. lia. }
  split; [exact Hdraw|]. split; [apply length_votes_of|].
  destruct (nargmax (map (count_votes votes) (seq 0 (K c)))) as [a|] eqn:Ea.
  2:{ destruct (argmax_is_Some Nat.leb (fun _ => false)
                  (map (count_votes votes) (seq 0 (K c)))) as [a Ha].
      - rewrite length_map, length_seq. lia.
      - unfold nargmax in Ea. congruence. }
  pose proof (nargmax_spec _ _ Ea) as (Hlt & Hmax & Hlow).
  rewrite length_map, length_seq in Hlt, Hmax.
  exists a. split.
  - unfold pick_action, assign_item, setitem, read_col.
    unfold bind, get, modify. rewrite Hn. cbn [lift ret is_inf].
    rewrite Hdraw, Hm0, sum_axis0_one_hot, Ea. cbn [lift ret].
    rewrite Ha0, Ha1.
    destruct (Nat.ltb_spec a (K c)); [|lia].
    destruct (Nat.ltb_spec t t_max); [|lia]. cbn [andb lift ret].
    rewrite getcol_put_item_blank by (auto; lia). cbn [lift ret].
    rewrite Ha0.
    rewrite (first_index_one_hot _ a (K c) 0) by (auto; lia).
    cbn [lift ret]. now rewrite Nat.sub_0_r.
  - split; [exact Hlt|]. split.
    + intros k Hk. specialize (Hmax k Hk).
      now rewrite !nth_map_seq in Hmax by lia.
    + intros k Hk. specialize (Hlow k Hk).
      now rewrite !nth_map_seq in Hlow by lia.
Qed.

(** ** The sampling budget *)

(** C9.  In the modes [logT] and [sqrtT] the budget computed at [t = 0]
    is the floor value 1, without an exception: [np.log(0)] is [-inf]
    and [np.sqrt(0)] is 0, and [np.maximum] with 1 gives 1; the value is
    then stored as [n_samples[0]]. *)
Theorem budget_clamped_at_zero c w s :
  time_mode c = true ->
  samples_needed c w 0 s = Ok (Fin 1) s
  /\ (0 < length (n_samples s) ->
      bind (samples_needed c w 0) (store_n_samples 0) s
      = Ok tt (set_n_samples (<[0 := Fin 1]> (n_samples s)) s)).
Proof.
  intros Hmode. unfold time_mode in Hmode.
  assert (Hn : samples_needed c w 0 s = Ok (Fin 1) s).
  { unfold samples_needed. apply orb_prop in Hmode.
    destruct Hmode as [H|H]; apply String.eqb_eq in H; rewrite H; reflexivity. }
  split; [exact Hn|]. intros Hlen.
  rewrite (bind_Ok _ _ _ _ _ Hn). unfold store_n_samples, bind, get.
  destruct (Nat.ltb_spec 0 (length (n_samples s))); [reflexivity|lia].
Qed.

Lemma fle_refl_Fin q : fle (Fin q) (Fin q) = true.
Proof. cbn [fle]. apply Qle_bool_iff. apply Qle_refl. Qed.

(** Flooring at 1 and then capping at [n_max >= 1] lands in
    [[1, n_max]], for every [x] that is a number or an infinity. *)
Lemma clamp_bounds x nmax :
  is_nan x = false -> fle (Fin 1) nmax = true ->
  fle (Fin 1) (fmin (fmax x (Fin 1)) nmax) = true
  /\ fle (fmin (fmax x (Fin 1)) nmax) nmax = true.
Proof.
  intros Hx Hmax. unfold fmax. rewrite Hx. cbn [is_nan].
  assert (Hfl : forall y, is_nan y = false -> fle (Fin 1) y = true ->
                  fle (Fin 1) (fmin y nmax) = true /\ fle (fmin y nmax) nmax = true).
  { intros y Hy H1. unfold fmin. rewrite Hy.
    destruct nmax as [| |m|]; try discriminate; cbn [is_nan].
    - destruct (fle y (Fin m)) eqn:E; [now split|].
      split; [exact Hmax|apply fle_refl_Fin].
    - destruct y; try discriminate; cbn [fle]; now split. }
  destruct (fle (Fin 1) x) eqn:E.
  - now apply Hfl.
  - apply Hfl; [reflexivity|apply fle_refl_Fin].
Qed.

Lemma fdiv_one_not_nan q : is_nan (fdiv (Fin 1) (Fin q)) = false.
Proof. unfold fdiv. destruct (Qsgn q); reflexivity. Qed.

Lemma most_probable_arm_ok t s :
  t < shape1 (mean (actions_predictive_density s)) ->
  0 < shape0 (mean (actions_predictive_density s)) ->
  exists a, a < shape0 (mean (actions_predictive_density s))
            /\ most_probable_arm t s = Ok a s.
Proof.
  intros Ht HK. unfold most_probable_arm, dict_getitem, read_col.
  unfold bind, get. cbn [String.eqb Ascii.eqb Bool.eqb ret].
  rewrite getcol_column by assumption. cbn [lift ret].
  destruct (argmax_is_Some fle is_nan (column (mean (actions_predictive_density s)) t))
    as [a Ha].
  { now rewrite length_column. }
  exists a. unfold fargmax. rewrite Ha. cbn [lift ret].
  apply argmax_Some_lt in Ha. rewrite length_column in Ha. now split.
Qed.

Lemma capped_budget_ok c w t t_max s nmax :
  capped_mode c = true ->
  s_n_max (sampling c) = Some nmax -> fle (Fin 1) nmax = true ->
  1 <= M c -> 0 < K c -> beta_named c = true -> t < t_max ->
  allocated c t_max s = true -> hyper_ok c s = true ->
  exists s1 n,
    bind (compute_action_predictive_density c w t)
         (fun _ => samples_needed c w t) s = Ok n s1
    /\ fle (Fin 1) n = true /\ fle n nmax = true.
Proof.
  intros Hmode Hnmax Hcap HM HK Hbeta Ht Hal Hhy.
  destruct (hyper_ok_spec c s Hhy) as (a & b & Hla & Hlb & Ha & Hb).
  pose proof (compute_ok c w t t_max s a b Hbeta HK Ht Hal Hla Hlb Ha Hb) as Hc.
  set (s1 := density_written c w t a b s) in *.
  assert (Hal1 : allocated c t_max s1 = true) by exact Hal.
  pose proof (allocated_spec _ _ _ Hal1) as ((Hm0 & Hm1) & (Hv0 & Hv1) & _).
  destruct (most_probable_arm_ok t s1) as (k & Hk & Harm); [lia|lia|].
  rewrite Hm0 in Hk.
  destruct (zero_one_mean_var (indicator k (best_arms c w t a b)))
    as (m & v & Hm & Hv & _).
  { apply indicator_zero_one. }
  { rewrite length_indicator, length_best_arms. lia. }
  pose proof (density_written_mean c w t t_max a b s Hal Ht k Hk) as Hgm.
  pose proof (density_written_var c w t t_max a b s Hal Ht k Hk) as Hgv.
  fold s1 in Hgm, Hgv. rewrite Hm in Hgm. rewrite Hv in Hgv.
  exists s1. rewrite (bind_Ok _ _ _ _ _ Hc).
  unfold capped_mode in Hmode. apply orb_prop in Hmode.
  destruct Hmode as [H|H]; apply String.eqb_eq in H.
  - exists (fmin (fmax (fdiv (Fin 1) (Fin v)) (Fin 1)) nmax). split.
    + unfold samples_needed. rewrite H.
      cbn [String.eqb Ascii.eqb Bool.eqb].
      unfold dict_getitem, read_item, knob. unfold bind, get.
      cbn [String.eqb Ascii.eqb Bool.eqb ret]. rewrite Harm, Hgv, Hnmax.
      reflexivity.
    + apply clamp_bounds; [apply fdiv_one_not_nan|assumption].
  - exists (fmin (fmax (fdiv (Fin 1) (fsub (Fin 1) (Fin m))) (Fin 1)) nmax). split.
    + unfold samples_needed. rewrite H.
      cbn [String.eqb Ascii.eqb Bool.eqb].
      unfold dict_getitem, read_item, knob. unfold bind, get.
      cbn [String.eqb Ascii.eqb Bool.eqb ret]. rewrite Harm, Hgm, Hnmax.
      reflexivity.
    + apply clamp_bounds; [apply fdiv_one_not_nan|assumption].
Qed.

(** C8, as the code has it.  In the modes [invVar] and [invPFA] with a
    configured cap [n_max >= 1], whenever the Monte Carlo estimator
    (with at least one draw) and then the budget computation have run
    at [t], the budget satisfies [1 <= n_samples[t] <= n_max], also
    when the variance read is 0 or the mean read is 1.  They do run as
    soon as there is an arm and the prior is a Beta. *)
Theorem capped_budget_bounds c w t t_max s nmax :
  capped_mode c = true ->
  s_n_max (sampling c) = Some nmax -> fle (Fin 1) nmax = true ->
  1 <= M c -> t < t_max ->
  allocated c t_max s = true -> hyper_ok c s = true ->
  (forall s1 n,
      bind (compute_action_predictive_density c w t)
           (fun _ => samples_needed c w t) s = Ok n s1 ->
      fle (Fin 1) n = true /\ fle n nmax = true)
  /\ (1 <= K c -> beta_named c = true ->
      exists s1 n,
        bind (compute_action_predictive_density c w t)
             (fun _ => samples_needed c w t) s = Ok n s1).
Proof.
  intros Hmode Hnmax Hcap HM Ht Hal Hhy. split.
  - intros s1 n Hrun.
    assert (Hinv : beta_named c = true /\ 0 < K c).
    { unfold bind in Hrun.
      destruct (compute_action_predictive_density c w t s) as [[] s'|e s'] eqn:Hc;
        [|discriminate].
      exact (compute_Ok_inv c w t s s' Hc). }
    destruct Hinv as [Hbeta HK].
    destruct (capped_budget_ok c w t t_max s nmax Hmode Hnmax Hcap HM HK Hbeta Ht Hal Hhy)
      as (s1' & n' & Hrun' & Hb).
    rewrite Hrun in Hrun'. injection Hrun' as <- <-. exact Hb.
  - intros HK Hbeta.
    destruct (capped_budget_ok c w t t_max s nmax Hmode Hnmax Hcap HM HK Hbeta Ht Hal Hhy)
      as (s1 & n & Hrun & _).
    now exists s1, n.
Qed.

(** ** What each block of the loop body changes *)

(** Case analysis on the innermost scrutinee, repeatedly. *)
Ltac split_matches :=
  repeat (match goal with
          | |- context [match ?x with _ => _ end] =>
              lazymatch x with
              | context [match _ with _ => _ end] => fail
              | _ => destruct x
              end
          end; cbv beta iota).


Lemma compute_frame c w t s :
  same_log s (final (compute_action_predictive_density c w t s)).
Proof.
  unfold compute_action_predictive_density, assign_col, dict_getitem.
  unfold bind, get, lift, raise, ret, modify.
  cbn [String.eqb Ascii.eqb Bool.eqb].
  split_matches; cbn [final]; repeat split; reflexivity.
Qed.

Lemma most_probable_arm_frame t s : final (most_probable_arm t s) = s.
Proof.
  unfold most_probable_arm, dict_getitem, read_col.
  unfold bind, get, lift, raise, ret.
  cbn [String.eqb Ascii.eqb Bool.eqb].
  split_matches; reflexivity.
Qed.

Lemma samples_needed_frame c w t s : final (samples_needed c w t s) = s.
Proof.
  unfold samples_needed, dict_getitem, read_item, knob.
  unfold bind, get, lift, raise, ret.
  cbn [String.eqb Ascii.eqb Bool.eqb].
  repeat match goal with
         | |- context [if String.eqb ?x ?y then _ else _] => destruct (String.eqb x y)
         end;
  try (pose proof (most_probable_arm_frame t s) as Hf;
       destruct (most_probable_arm t s); cbn [final] in Hf; subst);
  split_matches; reflexivity.
Qed.

Lemma store_n_samples_frame t x s : same_log s (final (store_n_samples t x s)).
Proof.
  unfold store_n_samples. unfold bind, get, raise, modify.
  split_matches; cbn [final]; repeat split; reflexivity.
Qed.

(** The return is written in row [action] of column [t], or nothing is. *)
Lemma draw_return_cases w t action s :
  (exists e, draw_return w t action s = Raise e s)
  \/ (exists r, reward_rvs w t !! action = Some r
                /\ action < shape0 (returns s) /\ t < shape1 (returns s)
                /\ draw_return w t action s
                   = Ok tt (set_returns (put_item (returns s) action t r) s)).
Proof.
  unfold draw_return, assign_item, setitem. unfold bind, get, modify.
  destruct (reward_rvs w t !! action) as [r|]; cbn [lift ret raise];
    [|left; eauto].
  destruct (Nat.ltb_spec action (shape0 (returns s))); cbn [andb lift ret raise];
    [|left; eauto].
  destruct (Nat.ltb_spec t (shape1 (returns s))); cbn [andb lift ret raise];
    [|left; eauto].
  right. exists r. auto.
Qed.

(** The posterior update appends to the two histories and changes
    nothing else; outside the Bernoulli/Beta case it changes nothing. *)
Lemma update_frame c t s :
  actions (final (update_reward_posterior c t s)) = actions s
  /\ returns (final (update_reward_posterior c t s)) = returns s.
Proof.
  unfold update_reward_posterior. unfold bind, get, lift, raise, ret, modify.
  split_matches; cbn [final]; split; reflexivity.
Qed.


(** One iteration of the loop on a blank column: either it raises
    before the posterior update, having written at most the action, or
    it ends with the posterior update on a state whose log holds the
    action and the return of the chosen arm. *)
Lemma execute_step_cases c w n s :
  blank_column s n ->
  (exists e s',
      execute_step c w n s = Raise e s'
      /\ returns s' = returns s
      /\ reward_posterior_alpha s' = reward_posterior_alpha s
      /\ reward_posterior_beta s' = reward_posterior_beta s
      /\ (actions s' = actions s
          \/ exists a, a < shape0 (actions s) /\ n < shape1 (actions s)
                       /\ actions s' = put_item (actions s) a n 1%Q))
  \/ (exists a rw s5,
        a < shape0 (actions s) /\ n < shape1 (actions s)
        /\ a < shape0 (returns s) /\ n < shape1 (returns s)
        /\ reward_rvs w n !! a = Some rw
        /\ actions s5 = put_item (actions s) a n 1%Q
        /\ returns s5 = put_item (returns s) a n rw
        /\ reward_posterior_alpha s5 = reward_posterior_alpha s
        /\ reward_posterior_beta s5 = reward_posterior_beta s
        /\ execute_step c w n s = update_reward_posterior c n s5).
Proof.
  intros Hblank.
  pose proof (compute_frame c w n s) as (Ha1 & Hr1 & Hpa1 & Hpb1).
  destruct (compute_action_predictive_density c w n s) as [[] s1|e s1] eqn:E1;
    cbn [final] in *.
  2:{ left. exists e, s1. unfold execute_step.
      rewrite (bind_Raise _ _ _ _ _ E1). repeat split; auto. }
  pose proof (samples_needed_frame c w n s1) as Hf2.
  destruct (samples_needed c w n s1) as [x s2|e s2] eqn:E2;
    cbn [final] in Hf2; subst s2.
  2:{ left. exists e, s1. unfold execute_step.
      rewrite (bind_Ok _ _ _ _ _ E1), (bind_Raise _ _ _ _ _ E2).
      repeat split; auto. }
  pose proof (store_n_samples_frame n x s1) as (Ha3 & Hr3 & Hpa3 & Hpb3).
  destruct (store_n_samples n x s1) as [[] s3|e s3] eqn:E3; cbn [final] in *.
  2:{ left. exists e, s3. unfold execute_step.
      rewrite (bind_Ok _ _ _ _ _ E1), (bind_Ok _ _ _ _ _ E2),
        (bind_Raise _ _ _ _ _ E3).
      repeat split; try congruence. left. congruence. }
  assert (Hblank3 : blank_column s3 n).
  { intros k. rewrite Ha3, Ha1. apply Hblank. }
  destruct (pick_action_cases w n s3 Hblank3) as [[e He]|(a & Hlt & Hlt' & Hp)].
  { left. exists e, s3. unfold execute_step.
    rewrite (bind_Ok _ _ _ _ _ E1), (bind_Ok _ _ _ _ _ E2),
      (bind_Ok _ _ _ _ _ E3), (bind_Raise _ _ _ _ _ He).
    repeat split; try congruence. left. congruence. }
  rewrite Ha3, Ha1 in Hlt, Hlt'.
  set (s4 := set_actions (put_item (actions s3) a n 1%Q) s3) in *.
  assert (Ha4 : actions s4 = put_item (actions s) a n 1%Q).
  { subst s4. simpl_state. now rewrite Ha3, Ha1. }
  destruct (draw_return_cases w n a s4) as [[e He]|(rw & Hrw & Hlr & Hlr' & Hd)].
  { left. exists e, s4. unfold execute_step.
    rewrite (bind_Ok _ _ _ _ _ E1), (bind_Ok _ _ _ _ _ E2),
      (bind_Ok _ _ _ _ _ E3), (bind_Ok _ _ _ _ _ Hp), (bind_Raise _ _ _ _ _ He).
    repeat split; try (subst s4; simpl_state; congruence).
    right. exists a. auto. }
  right.
  exists a, rw, (set_returns (put_item (returns s4) a n rw) s4).
  assert (Hr4 : returns s4 = returns s).
  { subst s4. simpl_state. now rewrite Hr3, Hr1. }
  rewrite Hr4 in *.
  repeat split; try assumption.
  - subst s4. simpl_state. congruence.
  - subst s4. simpl_state. congruence.
  - unfold execute_step.
    rewrite (bind_Ok _ _ _ _ _ E1), (bind_Ok _ _ _ _ _ E2),
      (bind_Ok _ _ _ _ _ E3), (bind_Ok _ _ _ _ _ Hp), (bind_Ok _ _ _ _ _ Hd).
    reflexivity.
Qed.

(** ** The action record *)

Lemma one_hot_put_blank (a : ndarray Q) i n :
  (forall k, item a k n = 0%Q) -> i < shape0 a ->
  one_hot_column (put_item a i n 1%Q) n.
Proof.
  intros Hblank Hi. exists i. simpl_state. split; [assumption|].
  intros k Hk. rewrite Nat.eqb_refl, andb_true_r.
  destruct (k =? i); [reflexivity|apply Hblank].
Qed.

Lemma one_hot_put_other (a : ndarray Q) i n v t :
  t <> n -> one_hot_column a t -> one_hot_column (put_item a i n v) t.
Proof.
  intros Hne (j & Hj & Hcol). exists j. simpl_state. split; [assumption|].
  intros k Hk. destruct (Nat.eqb_spec t n); [contradiction|].
  rewrite andb_false_r. now apply Hcol.
Qed.

Lemma one_hot_sum (a : ndarray Q) t :
  one_hot_column a t -> (Qsum (column a t) == 1)%Q.
Proof.
  intros (i & Hi & Hcol). unfold column.
  rewrite (Qsum_map_ext _ (fun k => if i =? k then 1%Q else 0%Q)).
  - now apply Qsum_delta.
  - intros k Hk. apply in_seq in Hk. rewrite Hcol by lia.
    now rewrite Nat.eqb_sym.
Qed.

Lemma step_actions c w n s :
  one_hot_upto s n -> blank_from s n ->
  match execute_step c w n s with
  | Ok _ s' => one_hot_upto s' (S n) /\ blank_from s' (S n)
               /\ shape0 (actions s') = shape0 (actions s)
  | Raise _ s' => one_hot_upto s' n /\ shape0 (actions s') = shape0 (actions s)
  end.
Proof.
  intros Hhot Hblank.
  assert (Hput : forall a, a < shape0 (actions s) ->
            (forall t, t < S n -> one_hot_column (put_item (actions s) a n 1%Q) t)
            /\ (forall t k, S n <= t -> item (put_item (actions s) a n 1%Q) k t = 0%Q)).
  { intros a Ha. split.
    - intros t Ht. destruct (Nat.eq_dec t n) as [->|Hne].
      + apply one_hot_put_blank; [|assumption]. intros k. now apply Hblank.
      + apply one_hot_put_other; [assumption|]. apply Hhot. lia.
    - intros t k Ht. simpl_state. destruct (Nat.eqb_spec t n); [lia|].
      rewrite andb_false_r. apply Hblank. lia. }
  destruct (execute_step_cases c w n s (Hblank n (le_n n)))
    as [(e & s' & -> & _ & _ & _ & Hact)
       |(a & rw & s5 & Ha & _ & _ & _ & _ & Ha5 & _ & _ & _ & ->)].
  - destruct Hact as [Hact|(a & Ha & _ & Hact)]; unfold one_hot_upto; rewrite Hact.
    + split; [apply Hhot|reflexivity].
    + split; [|reflexivity]. intros t Ht. apply (Hput a Ha). lia.
  - destruct (update_frame c n s5) as [Hu _].
    destruct (Hput a Ha) as [H1 H2].
    destruct (update_reward_posterior c n s5) as [[] s'|e s']; cbn [final] in Hu;
      unfold one_hot_upto, blank_from, blank_column; rewrite Hu, Ha5.
    + split; [exact H1|]. split; [|reflexivity]. intros t Ht k. now apply H2.
    + split; [|reflexivity]. intros t Ht. apply H1. lia.
Qed.

Lemma loop_actions c w m : forall n s,
  one_hot_upto s n -> blank_from s n ->
  let r := for_each (seq n m) (execute_step c w) s in
  one_hot_upto (final r) n
  /\ shape0 (actions (final r)) = shape0 (actions s)
  /\ (is_ok r = true -> one_hot_upto (final r) (n + m) /\ blank_from (final r) (n + m)).
Proof.
  induction m as [|m IH]; intros n s Hhot Hblank; cbn [seq for_each].
  - cbn. rewrite Nat.add_0_r. auto.
  - pose proof (step_actions c w n s Hhot Hblank) as Hstep.
    unfold bind.
    destruct (execute_step c w n s) as [[] s'|e s'].
    + destruct Hstep as (Hhot' & Hblank' & Hsh).
      destruct (IH (S n) s' Hhot' Hblank') as (H1 & H2 & H3).
      split; [|split].
      * intros t Ht. apply H1. lia.
      * congruence.
      * intros Hok. replace (n + S m) with (S n + m) by lia. now apply H3.
    + cbn. destruct Hstep. split; [assumption|]. split; [assumption|discriminate].
Qed.

Lemma execute_steps_eq c w t_max n s :
  execute_steps c w t_max n s
  = for_each (seq 0 n) (execute_step c w) (allocate c t_max s).
Proof. reflexivity. Qed.

Lemma allocate_blank c t_max s : blank_from (allocate c t_max s) 0.
Proof. intros t _ k. reflexivity. Qed.

(** C6.  For every time step [t] that a run completes (the first
    [t + 1] iterations of the loop raise nothing), column [t] of the
    action record at the end of the run, whether it ends normally or by
    an exception at a later step, holds 1 for exactly one of the [K]
    arms and 0 for the others, and sums to 1. *)
Theorem action_record_one_hot c w t_max t s0 :
  t < t_max ->
  is_ok (execute_steps c w t_max (S t) s0) = true ->
  let a := actions (final (execute c w t_max s0)) in
  shape0 a = K c /\ one_hot_column a t /\ (Qsum (column a t) == 1)%Q.
Proof.
  intros Ht Hok a.
  assert (Hshape : shape0 a = K c /\ one_hot_column a t).
  { subst a. unfold execute. rewrite execute_steps_eq in *.
    assert (E : seq 0 t_max = seq 0 (S t) ++ seq (0 + S t) (t_max - S t)).
    { rewrite <- seq_app. f_equal. lia. }
    rewrite E, for_each_app.
    destruct (loop_actions c w (S t) 0 (allocate c t_max s0)) as (_ & Hsh & Hpre).
    { intros k Hk. lia. }
    { apply allocate_blank. }
    cbn zeta in *. unfold bind.
    destruct (for_each (seq 0 (S t)) (execute_step c w) (allocate c t_max s0))
      as [[] s1|e s1]; [|discriminate].
    cbn [final] in *. destruct (Hpre Hok) as [Hhot Hblank].
    destruct (loop_actions c w (t_max - S t) (0 + S t) s1 Hhot Hblank) as (H1 & H2 & _).
    cbn zeta in *. split.
    - rewrite H2, Hsh. reflexivity.
    - apply H1. lia. }
  destruct Hshape as [Hs Hh]. split; [exact Hs|]. split; [exact Hh|].
  now apply one_hot_sum.
Qed.

(** ** The posterior history *)

Lemma sum_upto_ext (f g : nat -> Q) n :
  (forall j, j < n -> f j = g j) -> sum_upto f n = sum_upto g n.
Proof.
  induction n as [|n IH]; intros H; cbn [sum_upto]; [reflexivity|].
  rewrite IH by (intros j Hj; apply H; lia). now rewrite H by lia.
Qed.

Lemma sum_upto_put_item (a : ndarray Q) i n v k m :
  m <= n -> sum_upto (item (put_item a i n v) k) m = sum_upto (item a k) m.
Proof.
  intros Hm. apply sum_upto_ext. intros j Hj. simpl_state.
  destruct (Nat.eqb_spec j n); [lia|]. now rewrite andb_false_r.
Qed.

Lemma zero_one_bounds x : zero_one x -> (0 <= x)%Q /\ (x <= 1)%Q.
Proof. intros [-> | ->]; split; lra. Qed.

(** Projections of updated states, leaving the arrays folded. *)
Ltac simpl_fields :=
  cbn [mean var actions_predictive_density actions returns returns_expected
       n_samples reward_posterior_alpha reward_posterior_beta
       set_var set_mean set_density set_returns_expected set_actions
       set_returns set_n_samples set_posterior_alpha set_posterior_beta
       posterior_appended] in *.

Section PosteriorHistory.
Variable c : Config.
Variable w : World.
Variable t_max : nat.
Hypothesis Hbb : bernoulli_beta c = true.
Hypothesis Hprior : prior_ok c = true.

(** Writing in column [n] leaves the snapshots of the first [n] steps
    as they are. *)
Lemma snapshots_ok_put s s' n a v :
  snapshots_ok c s n ->
  reward_posterior_alpha s' = reward_posterior_alpha s ->
  reward_posterior_beta s' = reward_posterior_beta s ->
  returns s' = returns s ->
  actions s' = put_item (actions s) a n v ->
  snapshots_ok c s' n.
Proof.
  intros (Hla & Hlb & Hsnap) Hpa Hpb Hr Ha. unfold snapshots_ok.
  rewrite Hpa, Hpb, Hr, Ha. split; [exact Hla|]. split; [exact Hlb|].
  intros i k Hi Hk. rewrite sum_upto_put_item by assumption. now apply Hsnap.
Qed.

Lemma step_history s n :
  history_ok c t_max s n -> log_blank_from s n ->
  match execute_step c w n s with
  | Ok _ s' => history_ok c t_max s' (S n) /\ log_blank_from s' (S n)
  | Raise _ s' => history_ok c t_max s' n
  end.
Proof.
  intros [(S0 & S1 & S2 & S3) Hsnap] Hblank.
  assert (Hb : blank_column s n) by (intros k; now apply Hblank).
  destruct (execute_step_cases c w n s Hb)
    as [(e & s' & -> & Hr & Hpa & Hpb & Hact)
       |(a & rw & s5 & Ha & Hn & _ & _ & Hrw & Ha5 & Hr5 & Hpa5 & Hpb5 & ->)].
  - destruct Hact as [Hact|(a & _ & _ & Hact)].
    + destruct Hsnap as (Hla & Hlb & Hsnap).
      unfold history_ok, log_shaped, snapshots_ok.
      rewrite Hr, Hpa, Hpb, Hact. auto 10.
    + split.
      * unfold log_shaped. rewrite Hr, Hact. cbn [shape0 shape1 put_item]. auto.
      * now apply (snapshots_ok_put s s' n a 1%Q).
  - destruct Hsnap as (Hla & Hlb & Hsnap).
    destruct (update_ok c n t_max s5 Hbb Hprior) as (a' & b' & -> & Hla' & Hlb' & Hnew);
      try (rewrite ?Ha5, ?Hr5; cbn [shape0 shape1 put_item]; lia).
    unfold history_ok, log_shaped, snapshots_ok, log_blank_from.
    simpl_fields. rewrite Ha5, Hr5, Hpa5, Hpb5.
    split; [split; [auto|]|].
    + rewrite !length_app. cbn [length]. split; [lia|]. split; [lia|].
      intros i k Hi Hk.
      destruct (Nat.eq_dec i (S n)) as [->|Hne].
      * rewrite !app_nth2 by lia. rewrite Hla, Hlb, Nat.sub_diag. cbn [nth].
        destruct (Hnew k Hk) as [Hna Hnb]. unfold successes, trials in *.
        rewrite Hr5 in Hna. rewrite ?Hr5 in Hnb. rewrite Ha5 in Hnb.
        split; assumption.
      * rewrite !app_nth1 by lia.
        rewrite !sum_upto_put_item by lia. apply Hsnap; lia.
    + intros t k Ht. simpl_state.
      destruct (Nat.eqb_spec t n); [lia|]. rewrite andb_false_r.
      apply Hblank. lia.
Qed.

(** With rewards 0 or 1, a step keeps every return between 0 and the
    action indicator of its entry. *)
Lemma step_dominated s n :
  bernoulli_rewards w -> dominated s -> log_blank_from s n ->
  dominated (final (execute_step c w n s)).
Proof.
  intros Hrew Hdom Hblank.
  assert (Hb : blank_column s n) by (intros k; now apply Hblank).
  assert (Hput : forall a, dominated (set_actions (put_item (actions s) a n 1%Q) s)).
  { intros a k j. simpl_state. destruct (Hdom k j) as [H0 H1].
    split; [assumption|].
    destruct ((k =? a) && (j =? n)) eqn:E; [|assumption].
    apply andb_prop in E. destruct E as [_ E]. apply Nat.eqb_eq in E. subst j.
    destruct (Hblank n k (le_n n)) as [_ ->]. lra. }
  destruct (execute_step_cases c w n s Hb)
    as [(e & s' & -> & Hr & _ & _ & Hact)
       |(a & rw & s5 & _ & _ & _ & _ & Hrw & Ha5 & Hr5 & _ & _ & ->)];
    cbn [final].
  - destruct Hact as [Hact|(a & _ & _ & Hact)]; unfold dominated; rewrite Hr, Hact.
    + exact Hdom.
    + exact (Hput a).
  - assert (Hz : zero_one rw).
    { specialize (Hrew n). rewrite Forall_lookup in Hrew. eapply Hrew, Hrw. }
    destruct (zero_one_bounds rw Hz) as [Hrw0 Hrw1].
    destruct (update_frame c n s5) as [Hua Hur].
    unfold dominated. rewrite Hua, Hur, Ha5, Hr5.
    intros k j. destruct (Hdom k j) as [H0 H1]. simpl_state.
    destruct ((k =? a) && (j =? n)) eqn:E; split; try assumption; lra.
Qed.

Lemma loop_history m : forall n s,
  history_ok c t_max s n -> log_blank_from s n ->
  (exists n', history_ok c t_max (final (for_each (seq n m) (execute_step c w) s)) n')
  /\ (bernoulli_rewards w -> dominated s ->
      dominated (final (for_each (seq n m) (execute_step c w) s))).
Proof.
  induction m as [|m IH]; intros n s Hok Hblank; cbn [seq for_each].
  - split; [now exists n|auto].
  - pose proof (step_history s n Hok Hblank) as Hstep.
    pose proof (fun Hrew Hdom => step_dominated s n Hrew Hdom Hblank) as Hdom'.
    unfold bind.
    destruct (execute_step c w n s) as [[] s'|e s']; cbn [final] in *.
    + destruct Hstep as [Hok' Hblank'].
      destruct (IH (S n) s' Hok' Hblank') as [H1 H2]. split; [exact H1|].
      intros Hrew Hdom. apply H2; auto.
    + split; [now exists n|exact Hdom'].
Qed.

Lemma init_history_ok : history_ok c t_max (allocate c t_max (init c)) 0.
Proof.
  split; [now repeat split|].
  split; [reflexivity|]. split; [reflexivity|].
  intros i k Hi Hk. assert (i = 0) as -> by lia. cbn. split; ring.
Qed.

Lemma execute_history :
  (exists n, history_ok c t_max (final (execute c w t_max (init c))) n)
  /\ (bernoulli_rewards w -> dominated (final (execute c w t_max (init c)))).
Proof.
  unfold execute. rewrite execute_steps_eq.
  destruct (loop_history t_max 0 (allocate c t_max (init c))) as [H1 H2].
  - apply init_history_ok.
  - intros t k _. split; reflexivity.
  - split; [exact H1|]. intros Hrew. apply H2; [assumption|].
    intros k j. cbn. split; apply Qle_refl.
Qed.
End PosteriorHistory.

(** C4.  In the Bernoulli/Beta case [update_reward_posterior(t)] appends
    one snapshot whose alpha entry for arm [k] is the prior alpha plus
    the returns of [k] summed over times [0..t], and whose beta entry is
    the prior beta plus the action indicators of [k] summed over
    [0..t] minus those returns.  Hence in the history of a run the
    snapshot appended at step [t] is the prior plus the successes,
    resp. the trials minus the successes, recorded through [t]. *)
Theorem posterior_update_closed_form c w t_max :
  bernoulli_beta c = true -> prior_ok c = true ->
  (forall t s,
      allocated c t_max s = true -> t < t_max ->
      exists a' b',
        update_reward_posterior c t s = Ok tt (posterior_appended a' b' s)
        /\ length a' = K c /\ length b' = K c
        /\ forall k, k < K c ->
             (nth k a' 0 == nth k (alpha (reward_prior c)) 0 + successes s k t)%Q
             /\ (nth k b' 0
                 == nth k (beta (reward_prior c)) 0
                    + (trials s k t - successes s k t))%Q)
  /\ (forall t k,
        S t < length (reward_posterior_alpha (final (execute c w t_max (init c)))) ->
        k < K c ->
        (nth k (nth (S t) (reward_posterior_alpha
                             (final (execute c w t_max (init c)))) []) 0
         == nth k (alpha (reward_prior c)) 0
            + successes (final (execute c w t_max (init c))) k t)%Q
        /\ (nth k (nth (S t) (reward_posterior_beta
                                (final (execute c w t_max (init c)))) []) 0
            == nth k (beta (reward_prior c)) 0
               + (trials (final (execute c w t_max (init c))) k t
                  - successes (final (execute c w t_max (init c))) k t))%Q).
Proof.
  intros Hbb Hp. split.
  - intros t s Hal Ht. apply allocated_spec in Hal.
    destruct Hal as (_ & _ & (Ha0 & Ha1) & (Hr0 & Hr1) & _).
    now apply (update_ok c t t_max).
  - intros t k Ht Hk.
    destruct (execute_history c w t_max Hbb Hp) as [(n & _ & (Hla & _ & Hsnap)) _].
    rewrite Hla in Ht. unfold successes, trials. apply Hsnap; [lia|assumption].
Qed.

(** C7.  In a Bernoulli/Beta run whose rewards are 0 or 1, every
    recorded snapshot of the posterior hyperparameters is, arm by arm,
    at least the snapshot before it: alpha and beta never decrease. *)
Theorem posterior_monotone c w t_max i k :
  bernoulli_beta c = true -> prior_ok c = true -> bernoulli_rewards w ->
  let s := final (execute c w t_max (init c)) in
  S i < length (reward_posterior_alpha s) -> k < K c ->
  (nth k (nth i (reward_posterior_alpha s) []) 0
   <= nth k (nth (S i) (reward_posterior_alpha s) []) 0)%Q
  /\ (nth k (nth i (reward_posterior_beta s) []) 0
      <= nth k (nth (S i) (reward_posterior_beta s) []) 0)%Q.
Proof.
  intros Hbb Hprior Hrew s Hi Hk.
  destruct (execute_history c w t_max Hbb Hprior)
    as [(n & _ & (Hla & _ & Hsnap)) Hdom].
  specialize (Hdom Hrew).
  fold s in Hla, Hsnap, Hdom. rewrite Hla in Hi.
  destruct (Hsnap i k ltac:(lia) Hk) as [Ha Hb].
  destruct (Hsnap (S i) k ltac:(lia) Hk) as [Ha' Hb'].
  destruct (Hdom k i) as [H0 H1].
  rewrite Ha, Hb, Ha', Hb'. cbn [sum_upto]. split; lra.
Qed.

(** ** The first step of a run *)

Lemma allocate_allocated c t_max s : allocated c t_max (allocate c t_max s) = true.
Proof.
  unfold allocated, has_shape. simpl_state.
  now rewrite length_replicate, !Nat.eqb_refl.
Qed.

Lemma first_compute c w t_max :
  beta_named c = true -> prior_ok c = true -> 0 < K c -> 0 < t_max ->
  compute_action_predictive_density c w 0 (allocate c t_max (init c))
  = Ok tt (first_density c w t_max).
Proof.
  intros Hbeta Hp HK Ht. destruct (prior_ok_spec c Hp) as [Ha Hb].
  apply (compute_ok c w 0 t_max); auto. apply allocate_allocated.
Qed.

Lemma execute_first_step c w t_max s :
  0 < t_max ->
  execute c w t_max s
  = bind (execute_step c w 0)
         (fun _ => for_each (seq 1 (t_max - 1)) (execute_step c w))
         (allocate c t_max s).
Proof.
  intros Ht. unfold execute. rewrite execute_steps_eq.
  destruct t_max as [|m]; [lia|]. replace (S m - 1) with m by lia.
  reflexivity.
Qed.

Lemma samples_needed_argMax c w t s :
  String.eqb (stype (sampling c)) "argMax" = true ->
  samples_needed c w t s = Ok PInf s.
Proof.
  intros H. apply String.eqb_eq in H. unfold samples_needed. now rewrite H.
Qed.

Lemma samples_needed_unsupported c w t s :
  supported_mode (stype (sampling c)) = false ->
  samples_needed c w t s = Raise (Exc ValueError (invalid_sampling c)) s.
Proof.
  unfold supported_mode. intros H.
  repeat (apply orb_false_elim in H; destruct H as [H ?]).
  unfold samples_needed.
  repeat match goal with
         | E : String.eqb _ _ = false |- _ => rewrite E; clear E
         end.
  reflexivity.
Qed.

Lemma update_pairing_unsupported c t s :
  bernoulli_beta c = false ->
  update_reward_posterior c t s = Raise (Exc ValueError (invalid_combination c)) s.
Proof.
  intros H. unfold update_reward_posterior. unfold bernoulli_beta, beta_named in H.
  now rewrite H.
Qed.

(** C1, what the code does.  In sampling mode [argMax] the first step of
    a run (Beta prior, at least one arm) stores the infinite budget and
    then raises [TypeError] in the selector: line 136 indexes the
    dictionary [actions_predictive_density] with [[:, t]].  No action is
    recorded. *)
Theorem argmax_mode_raises c w t_max :
  String.eqb (stype (sampling c)) "argMax" = true ->
  beta_named c = true -> prior_ok c = true -> 0 < K c -> 0 < t_max ->
  exists s',
    execute c w t_max (init c)
    = Raise (Exc TypeError "unhashable type: 'slice'") s'
    /\ n_samples s' !! 0 = Some PInf
    /\ forall k t, item (actions s') k t = 0%Q.
Proof.
  intros Hmode Hbeta Hp HK Ht.
  set (s2 := first_density c w t_max).
  set (s3 := set_n_samples (<[0 := PInf]> (n_samples s2)) s2).
  assert (Hstore : store_n_samples 0 PInf s2 = Ok tt s3).
  { unfold store_n_samples, bind, get. subst s2 s3. unfold first_density.
    simpl_state. rewrite length_replicate.
    now destruct (Nat.ltb_spec 0 t_max); [|lia]. }
  assert (Hn : n_samples s3 !! 0 = Some PInf).
  { subst s3 s2. unfold first_density. simpl_state.
    apply list_lookup_insert_eq. rewrite length_replicate. lia. }
  exists s3. split; [|split; [exact Hn|reflexivity]].
  rewrite execute_first_step by assumption. unfold execute_step.
  rewrite (bind_Raise _ _ _ (Exc TypeError "unhashable type: 'slice'") s3);
    [reflexivity|].
  rewrite (bind_Ok _ _ _ _ _ (first_compute c w t_max Hbeta Hp HK Ht)).
  fold s2. rewrite (bind_Ok _ _ _ _ _ (samples_needed_argMax c w 0 s2 Hmode)).
  rewrite (bind_Ok _ _ _ _ _ Hstore).
  rewrite (bind_Raise _ _ _ _ _ (pick_action_inf w 0 s3 Hn)). reflexivity.
Qed.

(** ** Configuration errors *)

(** C2, as the code has it.  The configuration is checked inside the
    loop, not before it: a run of no step raises nothing.  In a run of
    at least one step:
    - an unsupported sampling mode (Beta prior, at least one arm) makes
      step 0 raise [ValueError] after the estimator has written column 0
      of the predictive density, and before any action, return or
      posterior snapshot is written;
    - a prior other than Beta makes the estimator raise [ValueError] at
      step 0 before any entry is written;
    - with a reward/prior pairing other than Bernoulli/Beta no step
      completes: [update_reward_posterior] raises [ValueError] naming
      both families and changes nothing, and a step that reaches it has
      by then written the action and the return of the chosen arm. *)
Theorem configuration_errors_are_lazy c w t_max :
  execute c w 0 (init c) = Ok tt (allocate c 0 (init c))
  /\ (0 < t_max ->
      supported_mode (stype (sampling c)) = false ->
      beta_named c = true -> prior_ok c = true -> 0 < K c ->
      execute c w t_max (init c)
      = Raise (Exc ValueError (invalid_sampling c)) (first_density c w t_max)
      /\ getcol (mean (actions_predictive_density (first_density c w t_max))) 0
         = Some (map (fun k => fmean (indicator k
                        (best_arms c w 0 (alpha (reward_prior c)) (beta (reward_prior c)))))
                   (seq 0 (K c)))
      /\ (forall k t, item (actions (first_density c w t_max)) k t = 0%Q
                      /\ item (returns (first_density c w t_max)) k t = 0%Q)
      /\ reward_posterior_alpha (first_density c w t_max) = [alpha (reward_prior c)]
      /\ reward_posterior_beta (first_density c w t_max) = [beta (reward_prior c)])
  /\ (0 < t_max -> beta_named c = false ->
      execute c w t_max (init c)
      = Raise (Exc ValueError (prior_not_implemented c)) (allocate c t_max (init c)))
  /\ (bernoulli_beta c = false ->
      (forall t s,
          update_reward_posterior c t s
          = Raise (Exc ValueError (invalid_combination c)) s)
      /\ forall n s, blank_column s n ->
           is_ok (execute_step c w n s) = false
           /\ ((exists e s', execute_step c w n s = Raise e s'
                             /\ returns s' = returns s)
               \/ (exists a rw s',
                      execute_step c w n s
                      = Raise (Exc ValueError (invalid_combination c)) s'
                      /\ reward_rvs w n !! a = Some rw
                      /\ getitem (actions s') a n = Some 1%Q
                      /\ getitem (returns s') a n = Some rw))).
Proof.
  split; [reflexivity|]. split; [|split].
  - intros Ht Hmode Hbeta Hp HK. split; [|split; [|split; [|split]]].
    + rewrite execute_first_step by assumption. unfold execute_step.
      rewrite (bind_Raise _ _ _ (Exc ValueError (invalid_sampling c))
                 (first_density c w t_max)); [reflexivity|].
      rewrite (bind_Ok _ _ _ _ _ (first_compute c w t_max Hbeta Hp HK Ht)).
      now rewrite (bind_Raise _ _ _ _ _
                     (samples_needed_unsupported c w 0 _ Hmode)).
    + apply (density_written_mean_col c w 0 t_max); [|assumption].
      apply allocate_allocated.
    + intros k t. split; reflexivity.
    + reflexivity.
    + reflexivity.
  - intros Ht Hbeta. rewrite execute_first_step by assumption. unfold execute_step.
    rewrite (bind_Raise _ _ _ (Exc ValueError (prior_not_implemented c))
               (allocate c t_max (init c))); [reflexivity|].
    now rewrite (bind_Raise _ _ _ _ _ (compute_prior_unsupported c w 0 _ Hbeta)).
  - intros Hbb. split; [intros t s; now apply update_pairing_unsupported|].
    intros n s Hblank.
    destruct (execute_step_cases c w n s Hblank)
      as [(e & s' & E & Hr & _)
         |(a & rw & s5 & Ha & Hn & Hra & Hrn & Hrw & Ha5 & Hr5 & _ & _ & E)].
    + rewrite E. split; [reflexivity|]. left. eauto.
    + rewrite update_pairing_unsupported in E by assumption. rewrite E.
      split; [reflexivity|]. right. exists a, rw, s5.
      split; [reflexivity|]. split; [assumption|].
      unfold getitem. rewrite Ha5, Hr5. simpl_state.
      destruct (Nat.ltb_spec a (shape0 (actions s))); [|lia].
      destruct (Nat.ltb_spec n (shape1 (actions s))); [|lia].
      destruct (Nat.ltb_spec a (shape0 (returns s))); [|lia].
      destruct (Nat.ltb_spec n (shape1 (returns s))); [|lia].
      now rewrite !Nat.eqb_refl.
Qed.

(** ** The properties on concrete runs *)

(** C3 as stated fails.  With the budget 5/2 the selector draws 2
    votes, not [ceil(5/2) = 3]; the two votes tie and arm 0 is chosen,
    whereas arm 1 has the most of three votes. *)
Lemma votes_truncated_not_ceiled :
  votes_drawn (draw_votes demo_world 0 (Fin (5 # 2)) demo_voting_state) = Some 2
  /\ votes_drawn (draw_votes demo_world 0 (Fin (5 # 2)) demo_voting_state)
     <> Some (Z.to_nat (Qceiling (5 # 2)))
  /\ column (actions (final (execute demo_static demo_world 1 (init demo_static)))) 0
     = [1%Q; 0%Q]
  /\ first_max 2
       (count_votes
          (votes_of demo_world 0
             (column (mean (actions_predictive_density demo_voting_state)) 0)
             (Z.to_nat (Qceiling (5 # 2)))))
       1.
Proof.
  split; [vm_compute; reflexivity|]. split; [vm_compute; discriminate|].
  split; [vm_compute; reflexivity|].
  split; [lia|]. split.
  - intros [|[|k]] Hk; vm_compute; lia.
  - intros [|k] Hk; [vm_compute; lia|lia].
Qed.

(** C8 as stated fails.  With the cap [n_max = 1/2] the budget of step 0
    is 1/2, below 1. *)
Lemma cap_below_one_wins :
  n_samples (final (execute demo_low_cap demo_world 3 (init demo_low_cap))) !! 0
  = Some (Fin (1 # 2))
  /\ fle (Fin 1) (Fin (1 # 2)) = false
  /\ s_n_max (sampling demo_low_cap) = Some (Fin (1 # 2)).
Proof. repeat split; vm_compute; reflexivity. Qed.

(** C2 as stated fails.  A run of no step raises nothing.  The error of
    an unsupported mode is raised once column 0 of the predictive
    density is written; the error of an unsupported pairing once the
    action and the return of step 0 are written. *)
Lemma configuration_error_after_writes :
  raised (execute demo_unsupported demo_world 0 (init demo_unsupported)) = None
  /\ raised (execute demo_unsupported demo_world 3 (init demo_unsupported))
     = Some ValueError
  /\ column (mean (actions_predictive_density
               (final (execute demo_unsupported demo_world 3 (init demo_unsupported))))) 0
     = [Fin (2 # 3); Fin (1 # 3)]
  /\ column (mean (actions_predictive_density
                  (final (execute demo_unsupported demo_world 3 (init demo_unsupported))))) 0
     <> column (mean (actions_predictive_density
                        (allocate demo_unsupported 3 (init demo_unsupported)))) 0
  /\ raised (execute demo_gaussian demo_world 3 (init demo_gaussian))
     = Some ValueError
  /\ column (actions (final (execute demo_gaussian demo_world 3 (init demo_gaussian)))) 0
     = [0%Q; 1%Q]
  /\ column (returns (final (execute demo_gaussian demo_world 3 (init demo_gaussian)))) 0
     = [0%Q; 1%Q].
Proof.
  split; [vm_compute; reflexivity|].
  split; [vm_compute; reflexivity|]. split; [vm_compute; reflexivity|].
  split; [vm_compute; discriminate|].
  repeat split; vm_compute; reflexivity.
Qed.

(** C10 as stated fails.  Without any draw the estimator returns and
    the variance (and the mean) it has written is [nan], which is no
    number of [[0, 1/4]]. *)
Lemma no_draws_nan_variance :
  is_ok (compute_action_predictive_density demo_no_draws demo_world 0
           (allocate demo_no_draws 3 (init demo_no_draws))) = true
  /\ getitem (var (actions_predictive_density
                    (final (compute_action_predictive_density demo_no_draws demo_world 0
                              (allocate demo_no_draws 3 (init demo_no_draws)))))) 0 0
     = Some NaN
  /\ ~ (exists v,
          getitem (var (actions_predictive_density
                          (final (compute_action_predictive_density demo_no_draws demo_world 0
                                    (allocate demo_no_draws 3 (init demo_no_draws)))))) 0 0
          = Some (Fin v)
          /\ (0 <= v)%Q /\ (v <= 1 # 4)%Q).
Proof.
  split; [vm_compute; reflexivity|]. split; [vm_compute; reflexivity|].
  intros (v & Hv & _). vm_compute in Hv. discriminate.
Qed.

Lemma demo_rewards : bernoulli_rewards demo_world.
Proof.
  intros t. cbn.
  constructor; [now left|]. constructor; [now right|]. constructor.
Qed.

Lemma argmax_mode_raises_witness :
  exists s',
    execute demo_argmax demo_world 3 (init demo_argmax)
    = Raise (Exc TypeError "unhashable type: 'slice'") s'
    /\ n_samples s' !! 0 = Some PInf
    /\ forall k t, item (actions s') k t = 0%Q.
Proof.
  apply (argmax_mode_raises demo_argmax demo_world 3);
    first [reflexivity | cbn; lia].
Defined.

Lemma configuration_errors_are_lazy_witness :
  execute demo_unsupported demo_world 0 (init demo_unsupported)
  = Ok tt (allocate demo_unsupported 0 (init demo_unsupported))
  /\ execute demo_unsupported demo_world 3 (init demo_unsupported)
     = Raise (Exc ValueError (invalid_sampling demo_unsupported))
         (first_density demo_unsupported demo_world 3)
  /\ execute demo_gamma demo_world 3 (init demo_gamma)
     = Raise (Exc ValueError (prior_not_implemented demo_gamma))
         (allocate demo_gamma 3 (init demo_gamma))
  /\ update_reward_posterior demo_gaussian 0 (init demo_gaussian)
     = Raise (Exc ValueError (invalid_combination demo_gaussian)) (init demo_gaussian).
Proof.
  split; [|split; [|split]].
  - apply (configuration_errors_are_lazy demo_unsupported demo_world 3).
  - apply (configuration_errors_are_lazy demo_unsupported demo_world 3);
      first [reflexivity | cbn; lia].
  - apply (configuration_errors_are_lazy demo_gamma demo_world 3);
      first [reflexivity | cbn; lia].
  - apply (configuration_errors_are_lazy demo_gaussian demo_world 3);
      first [reflexivity | cbn; lia].
Defined.

Lemma vote_selection_witness :
  draw_votes demo_world 0 (Fin (5 # 2)) demo_voting_state
  = Ok (map (one_hot_row 2) [1; 0]) demo_voting_state
  /\ length [1; 0] = 2
  /\ exists a,
       pick_action demo_world 0 demo_voting_state
       = Ok a (set_actions (put_item (actions demo_voting_state) a 0 1%Q)
                 demo_voting_state)
       /\ first_max 2 (count_votes [1; 0]) a.
Proof.
  apply (vote_selection demo_static demo_world 0 3 demo_voting_state (5 # 2));
    first [reflexivity | cbn; lia | vm_compute; discriminate
          | intros k; reflexivity].
Defined.

Lemma posterior_update_closed_form_witness :
  (exists a' b',
      update_reward_posterior demo_static 0 (allocate demo_static 3 (init demo_static))
      = Ok tt (posterior_appended a' b' (allocate demo_static 3 (init demo_static)))
      /\ length a' = 2 /\ length b' = 2
      /\ forall k, k < 2 ->
           (nth k a' 0 == nth k [1; 1] 0
                          + successes (allocate demo_static 3 (init demo_static)) k 0)%Q
           /\ (nth k b' 0
               == nth k [1; 1] 0
                  + (trials (allocate demo_static 3 (init demo_static)) k 0
                     - successes (allocate demo_static 3 (init demo_static)) k 0))%Q)
  /\ (nth 0 (nth 3 (reward_posterior_alpha
                      (final (execute demo_static demo_world 3 (init demo_static)))) []) 0
      == nth 0 [1; 1] 0
         + successes (final (execute demo_static demo_world 3 (init demo_static))) 0 2)%Q
  /\ (nth 0 (nth 3 (reward_posterior_beta
                      (final (execute demo_static demo_world 3 (init demo_static)))) []) 0
      == nth 0 [1; 1] 0
         + (trials (final (execute demo_static demo_world 3 (init demo_static))) 0 2
            - successes (final (execute demo_static demo_world 3 (init demo_static))) 0 2))%Q.
Proof.
  destruct (posterior_update_closed_form demo_static demo_world 3 eq_refl eq_refl)
    as [Hupdate Hrun].
  split.
  - apply (Hupdate 0); [reflexivity|lia].
  - apply (Hrun 2 0); [vm_compute; lia|cbn; lia].
Defined.

Lemma predictive_mean_is_distribution_witness :
  exists s' qs,
    compute_action_predictive_density demo_static demo_world 0
      (allocate demo_static 3 (init demo_static)) = Ok tt s'
    /\ getcol (mean (actions_predictive_density s')) 0 = Some (map Fin qs)
    /\ length qs = 2
    /\ Forall (fun q => (0 <= q)%Q) qs
    /\ (Qsum qs == 1)%Q.
Proof.
  destruct (predictive_mean_is_distribution demo_static demo_world 0 3
              (allocate demo_static 3 (init demo_static)))
    as [Hcol Hruns]; first [reflexivity | cbn; lia | idtac].
  destruct Hruns as [s' Hs']; first [reflexivity | cbn; lia | idtac].
  destruct (Hcol s' Hs') as [qs Hqs].
  exists s', qs. split; [exact Hs'|exact Hqs].
Defined.

Lemma action_record_one_hot_witness :
  shape0 (actions (final (execute demo_static demo_world 3 (init demo_static)))) = 2
  /\ one_hot_column
       (actions (final (execute demo_static demo_world 3 (init demo_static)))) 2
  /\ (Qsum (column
              (actions (final (execute demo_static demo_world 3 (init demo_static)))) 2)
      == 1)%Q.
Proof.
  apply (action_record_one_hot demo_static demo_world 3 2 (init demo_static));
    first [lia | vm_compute; reflexivity].
Defined.

Lemma posterior_monotone_witness :
  (nth 0 (nth 0 (reward_posterior_alpha
                   (final (execute demo_static demo_world 3 (init demo_static)))) []) 0
   <= nth 0 (nth 1 (reward_posterior_alpha
                      (final (execute demo_static demo_world 3 (init demo_static)))) []) 0)%Q
  /\ (nth 0 (nth 0 (reward_posterior_beta
                      (final (execute demo_static demo_world 3 (init demo_static)))) []) 0
      <= nth 0 (nth 1 (reward_posterior_beta
                         (final (execute demo_static demo_world 3 (init demo_static)))) []) 0)%Q.
Proof.
  apply (posterior_monotone demo_static demo_world 3 0 0);
    first [reflexivity | exact demo_rewards | vm_compute; lia].
Defined.

Lemma capped_budget_bounds_witness :
  exists s1 n,
    bind (compute_action_predictive_density demo_invVar demo_world 0)
         (fun _ => samples_needed demo_invVar demo_world 0)
         (allocate demo_invVar 3 (init demo_invVar)) = Ok n s1
    /\ fle (Fin 1) n = true /\ fle n (Fin 25) = true.
Proof.
  destruct (capped_budget_bounds demo_invVar demo_world 0 3
              (allocate demo_invVar 3 (init demo_invVar)) (Fin 25))
    as [Hbounds Hruns]; first [reflexivity | cbn; lia | idtac].
  destruct Hruns as (s1 & n & Hrun); first [reflexivity | cbn; lia | idtac].
  exists s1, n. split; [exact Hrun|exact (Hbounds s1 n Hrun)].
Defined.

Lemma budget_clamped_at_zero_witness :
  samples_needed demo_logT demo_world 0 (allocate demo_logT 3 (init demo_logT))
  = Ok (Fin 1) (allocate demo_logT 3 (init demo_logT))
  /\ bind (samples_needed demo_logT demo_world 0) (store_n_samples 0)
       (allocate demo_logT 3 (init demo_logT))
     = Ok tt (set_n_samples
                (<[0 := Fin 1]> (n_samples (allocate demo_logT 3 (init demo_logT))))
                (allocate demo_logT 3 (init demo_logT))).
Proof.
  destruct (budget_clamped_at_zero demo_logT demo_world
              (allocate demo_logT 3 (init demo_logT)) eq_refl)
    as [Hbudget Hstore].
  split; [exact Hbudget|]. apply Hstore. cbn. lia.
Defined.

Lemma predictive_var_in_range_witness :
  exists s' v,
    compute_action_predictive_density demo_static demo_world 0
      (allocate demo_static 3 (init demo_static)) = Ok tt s'
    /\ getitem (var (actions_predictive_density s')) 1 0 = Some (Fin v)
    /\ (0 <= v)%Q /\ (v <= 1 # 4)%Q.
Proof.
  destruct (predictive_var_in_range demo_static demo_world 0 3
              (allocate demo_static 3 (init demo_static)))
    as [Hvar Hruns]; first [reflexivity | cbn; lia | idtac].
  destruct Hruns as [s' Hs']; first [reflexivity | cbn; lia | idtac].
  destruct (Hvar s' 1 Hs') as (v & Hv); [cbn; lia|].
  exists s', v. split; [exact Hs'|exact Hv].
Defined.

(** * Further properties *)

(** ** Budgets of the modes [linear], [logT] and [sqrtT] *)

Lemma Qtrunc_ge_1 q : (1 <= q)%Q -> (1 <= Qtrunc q)%Z.
Proof.
  intros H. unfold Qtrunc. destruct (Qle_bool 0 q) eqn:E.
  - change 1%Z with (Qfloor 1). now apply Qfloor_resp_le.
  - apply not_true_iff_false in E. exfalso. apply E. apply Qle_bool_iff. lra.
Qed.

(** [np.maximum(x, 1)] of a finite [x] is the larger of the two. *)
Lemma fmax_one_Fin x :
  exists q, fmax (Fin x) (Fin 1) = Fin q
            /\ (1 <= q)%Q /\ (x <= q)%Q /\ (q = x \/ (q = 1%Q /\ (x < 1)%Q)).
Proof.
  unfold fmax. cbn [is_nan fle]. destruct (Qle_bool 1 x) eqn:E.
  - apply Qle_bool_iff in E. exists x.
    split; [reflexivity|]. split; [exact E|]. split; [lra|now left].
  - apply not_true_iff_false in E. rewrite Qle_bool_iff in E.
    exists 1%Q. split; [reflexivity|]. split; [lra|]. split; [lra|].
    right. split; [reflexivity|lra].
Qed.

Lemma samples_needed_linear c w t s a b :
  String.eqb (stype (sampling c)) "linear" = true ->
  s_n_0 (sampling c) = Some (Fin a) -> s_n (sampling c) = Some (Fin b) ->
  samples_needed c w t s = Ok (fmax (Fin (linear_ramp a b t)) (Fin 1)) s.
Proof.
  intros Hmode Ha Hb. apply String.eqb_eq in Hmode.
  unfold samples_needed. rewrite Hmode, Ha, Hb. reflexivity.
Qed.

(** X1.  In the mode [linear] with finite keys [n_0] and [n] the budget
    of step [t] is computed without an exception and without a change
    of state; it is the larger of [n_0 + n * t] and 1, so the selector
    draws at least one vote; and with [n >= 0] the budget of step
    [t + 1] is at least that of step [t]. *)
Theorem linear_budget c w t s a b :
  String.eqb (stype (sampling c)) "linear" = true ->
  s_n_0 (sampling c) = Some (Fin a) -> s_n (sampling c) = Some (Fin b) ->
  exists q,
    samples_needed c w t s = Ok (Fin q) s
    /\ (1 <= q)%Q /\ (linear_ramp a b t <= q)%Q
    /\ (q = linear_ramp a b t \/ q = 1%Q)
    /\ (1 <= Qtrunc q)%Z
    /\ ((0 <= b)%Q ->
        exists q', samples_needed c w (S t) s = Ok (Fin q') s /\ (q <= q')%Q).
Proof.
  intros Hmode Ha Hb.
  rewrite (samples_needed_linear c w t s a b Hmode Ha Hb).
  destruct (fmax_one_Fin (linear_ramp a b t)) as (q & -> & H1 & Hx & Hq).
  exists q. split; [reflexivity|]. split; [exact H1|]. split; [exact Hx|].
  split; [tauto|]. split; [now apply Qtrunc_ge_1|].
  intros Hb0. rewrite (samples_needed_linear c w (S t) s a b Hmode Ha Hb).
  destruct (fmax_one_Fin (linear_ramp a b (S t))) as (q' & -> & H1' & Hx' & _).
  exists q'. split; [reflexivity|].
  assert (Hstep : (linear_ramp a b t <= linear_ramp a b (S t))%Q).
  { unfold linear_ramp. rewrite Nat2Z.inj_succ, <- Z.add_1_r, inject_Z_plus.
    change (inject_Z 1) with 1%Q. nra. }
  destruct Hq as [->|[-> _]]; lra.
Qed.

Lemma linear_budget_witness :
  exists q,
    samples_needed demo_linear demo_world 2 (init demo_linear)
    = Ok (Fin q) (init demo_linear)
    /\ (1 <= q)%Q /\ (linear_ramp (1 # 2) (3 # 2) 2 <= q)%Q
    /\ (q = linear_ramp (1 # 2) (3 # 2) 2 \/ q = 1%Q)
    /\ (1 <= Qtrunc q)%Z
    /\ exists q', samples_needed demo_linear demo_world 3 (init demo_linear)
                  = Ok (Fin q') (init demo_linear) /\ (q <= q')%Q.
Proof.
  destruct (linear_budget demo_linear demo_world 2 (init demo_linear) (1 # 2) (3 # 2)
              eq_refl eq_refl eq_refl)
    as (q & H1 & H2 & H3 & H4 & H5 & H6).
  exists q. repeat (split; [assumption|]). apply H6. lra.
Defined.

Lemma samples_needed_time c w t s :
  time_mode c = true ->
  exists q,
    samples_needed c w t s = Ok (Fin q) s /\ (1 <= q)%Q /\ (1 <= Qtrunc q)%Z.
Proof.
  intros Hmode. unfold time_mode in Hmode.
  assert (H : exists x, samples_needed c w t s = Ok (fmax x (Fin 1)) s
                        /\ (x = NInf \/ exists q, x = Fin q)).
  { unfold samples_needed. apply orb_prop in Hmode.
    destruct Hmode as [H|H]; apply String.eqb_eq in H; rewrite H;
      cbn [String.eqb Ascii.eqb Bool.eqb]; eexists; (split; [reflexivity|]).
    - unfold np_log. destruct t; eauto.
    - unfold np_sqrt. destruct t; eauto. }
  destruct H as (x & -> & [->|[q ->]]).
  - exists 1%Q. split; [reflexivity|]. split; [lra|reflexivity].
  - destruct (fmax_one_Fin q) as (q' & -> & H1 & _).
    exists q'. split; [reflexivity|]. split; [exact H1|now apply Qtrunc_ge_1].
Qed.

(** X2.  In the modes [logT] and [sqrtT] the budget of every step [t],
    whatever [np.log] and [np.sqrt] return, is a finite number that is
    at least 1, computed without an exception and without a change of
    state: the selector draws at least one vote. *)
Theorem time_budget_at_least_one c w t s :
  time_mode c = true ->
  exists q,
    samples_needed c w t s = Ok (Fin q) s /\ (1 <= q)%Q /\ (1 <= Qtrunc q)%Z.
Proof. now apply samples_needed_time. Qed.

Lemma time_budget_at_least_one_witness :
  exists q,
    samples_needed demo_logT demo_world 5 (init demo_logT) = Ok (Fin q) (init demo_logT)
    /\ (1 <= q)%Q /\ (1 <= Qtrunc q)%Z.
Proof. apply (time_budget_at_least_one demo_logT demo_world 5); reflexivity. Defined.

(** ** A key missing from [sampling] *)

Lemma samples_needed_missing c w t t_max s key :
  missing_knob c = Some key ->
  allocated c t_max s = true -> t < t_max -> 0 < K c ->
  samples_needed c w t s = Raise (Exc KeyError key) s.
Proof.
  intros Hkey Hal Ht HK. unfold missing_knob in Hkey. unfold samples_needed.
  destruct (String.eqb (stype (sampling c)) "static").
  { destruct (s_n_samples (sampling c)); [discriminate|].
    now injection Hkey as <-. }
  destruct (String.eqb (stype (sampling c)) "linear").
  { destruct (s_n_0 (sampling c)); [|now injection Hkey as <-].
    destruct (s_n (sampling c)); [discriminate|]. now injection Hkey as <-. }
  destruct (capped_mode c) eqn:Hcap; [|discriminate].
  destruct (s_n_max (sampling c)) eqn:Hmax; [discriminate|].
  injection Hkey as <-.
  pose proof (allocated_spec _ _ _ Hal) as ((Hm0 & Hm1) & (Hv0 & Hv1) & _).
  destruct (most_probable_arm_ok t s) as (a & Ha & Harm); [lia|lia|].
  assert (Hlogt : String.eqb (stype (sampling c)) "logT" = false).
  { unfold capped_mode in Hcap. apply orb_prop in Hcap.
    destruct Hcap as [H|H]; apply String.eqb_eq in H; now rewrite H. }
  assert (Hsqrt : String.eqb (stype (sampling c)) "sqrtT" = false).
  { unfold capped_mode in Hcap. apply orb_prop in Hcap.
    destruct Hcap as [H|H]; apply String.eqb_eq in H; now rewrite H. }
  rewrite Hlogt, Hsqrt.
  assert (Hgm : exists x, getitem (mean (actions_predictive_density s)) a t = Some x).
  { unfold getitem. destruct (Nat.ltb_spec a (shape0 (mean (actions_predictive_density s))));
      [|lia].
    destruct (Nat.ltb_spec t (shape1 (mean (actions_predictive_density s)))); [|lia].
    eauto. }
  assert (Hgv : exists x, getitem (var (actions_predictive_density s)) a t = Some x).
  { unfold getitem. destruct (Nat.ltb_spec a (shape0 (var (actions_predictive_density s))));
      [|lia].
    destruct (Nat.ltb_spec t (shape1 (var (actions_predictive_density s)))); [|lia].
    eauto. }
  destruct Hgm as [xm Hgm]. destruct Hgv as [xv Hgv].
  unfold capped_mode in Hcap.
  destruct (String.eqb (stype (sampling c)) "invVar").
  - unfold dict_getitem, read_item, knob. unfold bind, get.
    cbn [String.eqb Ascii.eqb Bool.eqb ret]. rewrite Harm, Hgv. reflexivity.
  - cbn [orb] in Hcap. rewrite Hcap.
    unfold dict_getitem, read_item, knob. unfold bind, get.
    cbn [String.eqb Ascii.eqb Bool.eqb ret]. rewrite Harm, Hgm. reflexivity.
Qed.

(** X3.  When the key that the sampling mode needs is missing from
    [sampling] ([n_samples] for [static]; [n_0], then [n], for
    [linear]; [n_max] for [invVar] and [invPFA]), the budget
    computation of any step raises [KeyError] naming that key and
    leaves the state as it is.  A run of at least one step (Beta prior,
    at least one arm) therefore stops at step 0 with that [KeyError]:
    the estimator has written column 0, and no action, return or budget
    has been recorded. *)
Theorem missing_knob_raises_KeyError c w t_max key :
  missing_knob c = Some key -> 0 < K c ->
  (forall t s,
      allocated c t_max s = true -> t < t_max ->
      samples_needed c w t s = Raise (Exc KeyError key) s)
  /\ (beta_named c = true -> prior_ok c = true -> 0 < t_max ->
      execute c w t_max (init c)
      = Raise (Exc KeyError key) (first_density c w t_max)
      /\ (forall k t, item (actions (first_density c w t_max)) k t = 0%Q
                      /\ item (returns (first_density c w t_max)) k t = 0%Q)
      /\ n_samples (first_density c w t_max) = replicate t_max (Fin 1)).
Proof.
  intros Hkey HK. split.
  - intros t s Hal Ht. now apply (samples_needed_missing c w t t_max).
  - intros Hbeta Hp Ht. split; [|split; [intros k t; split; reflexivity|reflexivity]].
    rewrite execute_first_step by assumption. unfold execute_step.
    rewrite (bind_Raise _ _ _ (Exc KeyError key) (first_density c w t_max));
      [reflexivity|].
    rewrite (bind_Ok _ _ _ _ _ (first_compute c w t_max Hbeta Hp HK Ht)).
    rewrite (bind_Raise _ _ _ (Exc KeyError key) (first_density c w t_max));
      [reflexivity|].
    apply (samples_needed_missing c w 0 t_max); auto.
    apply (allocate_allocated c t_max (init c)).
Qed.

Lemma missing_knob_raises_KeyError_witness :
  samples_needed demo_no_knob demo_world 1 (allocate demo_no_knob 3 (init demo_no_knob))
  = Raise (Exc KeyError "n_0") (allocate demo_no_knob 3 (init demo_no_knob))
  /\ execute demo_no_knob demo_world 3 (init demo_no_knob)
     = Raise (Exc KeyError "n_0") (first_density demo_no_knob demo_world 3).
Proof.
  destruct (missing_knob_raises_KeyError demo_no_knob demo_world 3 "n_0" eq_refl)
    as [Hany Hrun]; [cbn; lia|].
  split.
  - apply Hany; [reflexivity|lia].
  - apply Hrun; first [reflexivity | lia].
Defined.

(** ** The selector on small and on unusable budgets *)

Lemma Qtrunc_small q : (-1 < q)%Q -> (q < 1)%Q -> Qtrunc q = 0%Z.
Proof.
  intros Hlo Hhi. unfold Qtrunc. destruct (Qle_bool 0 q) eqn:E.
  - apply Qle_bool_iff in E.
    pose proof (Qfloor_le q) as H1. pose proof (Qlt_floor q) as H2.
    assert (H3 : (0 <= Qfloor q)%Z).
    { change 0%Z with (Qfloor 0). now apply Qfloor_resp_le. }
    assert (H4 : (inject_Z (Qfloor q) < inject_Z 1)%Q)
      by (change (inject_Z 1) with 1%Q; lra).
    rewrite <- Zlt_Qlt in H4. lia.
  - apply not_true_iff_false in E. rewrite Qle_bool_iff in E.
    pose proof (Qle_ceiling q) as H1. pose proof (Qceiling_lt q) as H2.
    assert (H3 : (Qceiling q <= 0)%Z).
    { change 0%Z with (Qceiling 0). apply Qceiling_resp_le. lra. }
    assert (H4 : (inject_Z (-1) < inject_Z (Qceiling q))%Q)
      by (change (inject_Z (-1)) with (-1)%Q; lra).
    rewrite <- Zlt_Qlt in H4. lia.
Qed.

Lemma Qtrunc_one q : (1 <= q)%Q -> (q < 2)%Q -> Qtrunc q = 1%Z.
Proof.
  intros Hlo Hhi. pose proof (Qtrunc_ge_1 q Hlo) as H1.
  unfold Qtrunc in *. destruct (Qle_bool 0 q) eqn:E.
  - pose proof (Qfloor_le q) as H2.
    assert (H4 : (inject_Z (Qfloor q) < inject_Z 2)%Q)
      by (change (inject_Z 2) with 2%Q; lra).
    rewrite <- Zlt_Qlt in H4. lia.
  - apply not_true_iff_false in E. rewrite Qle_bool_iff in E. lra.
Qed.

Lemma Qtrunc_negative q : (q <= -1)%Q -> (Qtrunc q < 0)%Z.
Proof.
  intros H. unfold Qtrunc. destruct (Qle_bool 0 q) eqn:E.
  - apply Qle_bool_iff in E. lra.
  - assert (H3 : (Qceiling q <= -1)%Z).
    { change (-1)%Z with (Qceiling (-1)). now apply Qceiling_resp_le. }
    lia.
Qed.

(** The selector on a finite budget that [int] maps to a count of
    votes: the arm returned and recorded is the first maximum of the
    tally of the votes. *)
Lemma pick_action_votes c w t t_max s q :
  allocated c t_max s = true -> t < t_max -> 0 < K c ->
  n_samples s !! t = Some (Fin q) ->
  valid_pvals (column (mean (actions_predictive_density s)) t) = true ->
  (0 <= Qtrunc q)%Z ->
  blank_column s t ->
  exists a,
    pick_action w t s = Ok a (set_actions (put_item (actions s) a t 1%Q) s)
    /\ first_max (K c)
         (count_votes (votes_of w t (column (mean (actions_predictive_density s)) t)
                         (Z.to_nat (Qtrunc q)))) a.
Proof.
  intros Hal Ht HK Hn Hv Hq Hblank.
  set (pvals := column (mean (actions_predictive_density s)) t) in *.
  set (votes := votes_of w t pvals (Z.to_nat (Qtrunc q))).
  apply allocated_spec in Hal.
  destruct Hal as ((Hm0 & Hm1) & _ & (Ha0 & Ha1) & _).
  assert (Hlen : length pvals = K c)
    by (subst pvals; now rewrite length_column).
  assert (Hdraw : draw_votes w t (Fin q) s = Ok (map (one_hot_row (K c)) votes) s).
  { rewrite <- Hlen. apply draw_votes_ok; auto. apply getcol_column. lia. }
  destruct (nargmax (map (count_votes votes) (seq 0 (K c)))) as [a|] eqn:Ea.
  2:{ destruct (argmax_is_Some Nat.leb (fun _ => false)
                  (map (count_votes votes) (seq 0 (K c)))) as [a Ha].
      - rewrite length_map, length_seq. lia.
      - unfold nargmax in Ea. congruence. }
  pose proof (nargmax_spec _ _ Ea) as (Hlt & Hmax & Hlow).
  rewrite length_map, length_seq in Hlt, Hmax.
  exists a. split.
  - unfold pick_action, assign_item, setitem, read_col.
    unfold bind, get, modify. rewrite Hn. cbn [lift ret is_inf].
    rewrite Hdraw, Hm0, sum_axis0_one_hot, Ea. cbn [lift ret].
    rewrite Ha0, Ha1.
    destruct (Nat.ltb_spec a (K c)); [|lia].
    destruct (Nat.ltb_spec t t_max); [|lia]. cbn [andb lift ret].
    rewrite getcol_put_item_blank by (auto; lia). cbn [lift ret].
    rewrite Ha0.
    rewrite (first_index_one_hot _ a (K c) 0) by (auto; lia).
    cbn [lift ret]. now rewrite Nat.sub_0_r.
  - split; [exact Hlt|]. split.
    + intros k Hk. specialize (Hmax k Hk).
      now rewrite !nth_map_seq in Hmax by lia.
    + intros k Hk. specialize (Hlow k Hk).
      now rewrite !nth_map_seq in Hlow by lia.
Qed.

(** X4.  A finite budget strictly between -1 and 1 is truncated by
    [int] to 0 votes: the selector then records and returns arm 0,
    whatever the predictive density and the random draws are. *)
Theorem no_vote_picks_first_arm c w t t_max s q :
  allocated c t_max s = true -> t < t_max -> 0 < K c ->
  n_samples s !! t = Some (Fin q) -> (-1 < q)%Q -> (q < 1)%Q ->
  valid_pvals (column (mean (actions_predictive_density s)) t) = true ->
  blank_column s t ->
  draw_votes w t (Fin q) s = Ok [] s
  /\ pick_action w t s = Ok 0 (set_actions (put_item (actions s) 0 t 1%Q) s).
Proof.
  intros Hal Ht HK Hn Hlo Hhi Hv Hblank.
  pose proof (Qtrunc_small q Hlo Hhi) as Hq. split.
  - pose proof (allocated_spec _ _ _ Hal) as ((Hm0 & Hm1) & _).
    rewrite (draw_votes_ok w t s q (column (mean (actions_predictive_density s)) t));
      [now rewrite Hq| |assumption|lia].
    apply getcol_column. lia.
  - destruct (pick_action_votes c w t t_max s q) as (a & Hpick & _ & _ & Hlow);
      auto; [lia|].
    rewrite Hq in Hlow. change (Z.to_nat 0) with 0 in Hlow.
    unfold votes_of in Hlow. cbn [seq map count_votes] in Hlow.
    destruct a as [|a]; [exact Hpick|]. specialize (Hlow 0). lia.
Qed.

(** X5.  A finite budget in [[1, 2)] is truncated to a single vote: the
    selector records and returns the category that
    [np.random.multinomial] draws from [mean[:, t]] (Thompson
    sampling), the draw being an arm index. *)
Theorem single_vote_picks_the_draw c w t t_max s q :
  allocated c t_max s = true -> t < t_max ->
  n_samples s !! t = Some (Fin q) -> (1 <= q)%Q -> (q < 2)%Q ->
  valid_pvals (column (mean (actions_predictive_density s)) t) = true ->
  blank_column s t ->
  let d := multinomial_draw w t (column (mean (actions_predictive_density s)) t) 0 in
  d < K c ->
  pick_action w t s = Ok d (set_actions (put_item (actions s) d t 1%Q) s).
Proof.
  intros Hal Ht Hn Hlo Hhi Hv Hblank d Hd.
  pose proof (Qtrunc_one q Hlo Hhi) as Hq.
  destruct (pick_action_votes c w t t_max s q) as (a & Hpick & Ha & Hmax & _);
    auto; [lia|lia|].
  rewrite Hq in Hmax. change (Z.to_nat 1) with 1 in Hmax.
  unfold votes_of in Hmax. cbn [seq map count_votes] in Hmax. fold d in Hmax.
  specialize (Hmax d Hd). rewrite Nat.eqb_refl in Hmax.
  destruct (Nat.eqb_spec d a) as [->|Hne]; [exact Hpick|]. lia.
Qed.

(** X6.  A budget that [int] or [np.random.multinomial] cannot use
    stops the selector before anything is recorded: [nan] raises
    [ValueError] and [-inf] raises [OverflowError] in [int], and a
    finite budget of -1 or less is truncated to a negative size, which
    raises [ValueError]. *)
Theorem selector_refuses_bad_budget w t s :
  t < shape1 (mean (actions_predictive_density s)) ->
  (n_samples s !! t = Some NaN ->
   pick_action w t s
   = Raise (Exc ValueError "cannot convert float NaN to integer") s)
  /\ (n_samples s !! t = Some NInf ->
      pick_action w t s
      = Raise (Exc OverflowError "cannot convert float infinity to integer") s)
  /\ (forall q,
        n_samples s !! t = Some (Fin q) -> (q <= -1)%Q ->
        valid_pvals (column (mean (actions_predictive_density s)) t) = true ->
        pick_action w t s
        = Raise (Exc ValueError "negative dimensions are not allowed") s).
Proof.
  intros Ht.
  assert (Hcol := getcol_column (mean (actions_predictive_density s)) t Ht).
  split; [|split].
  - intros Hn. unfold pick_action, draw_votes, dict_getitem, read_col, py_int.
    unfold bind, get. rewrite Hn. cbn [lift ret is_inf String.eqb Ascii.eqb Bool.eqb].
    now rewrite Hcol.
  - intros Hn. unfold pick_action, draw_votes, dict_getitem, read_col, py_int.
    unfold bind, get. rewrite Hn. cbn [lift ret is_inf String.eqb Ascii.eqb Bool.eqb].
    now rewrite Hcol.
  - intros q Hn Hq Hv. apply Qtrunc_negative in Hq.
    unfold pick_action, draw_votes, dict_getitem, read_col, py_int, multinomial.
    unfold bind, get. rewrite Hn. cbn [lift ret is_inf String.eqb Ascii.eqb Bool.eqb].
    rewrite Hcol. cbn [lift ret]. rewrite Hv. cbn [negb].
    now destruct (Z.ltb_spec (Qtrunc q) 0); [|lia].
Qed.

Lemma no_vote_picks_first_arm_witness :
  draw_votes demo_world 0 (Fin (1 # 2)) (demo_budget_state (Fin (1 # 2)))
  = Ok [] (demo_budget_state (Fin (1 # 2)))
  /\ pick_action demo_world 0 (demo_budget_state (Fin (1 # 2)))
     = Ok 0 (set_actions
               (put_item (actions (demo_budget_state (Fin (1 # 2)))) 0 0 1%Q)
               (demo_budget_state (Fin (1 # 2)))).
Proof.
  apply (no_vote_picks_first_arm demo_static demo_world 0 3
           (demo_budget_state (Fin (1 # 2))) (1 # 2));
    first [reflexivity | cbn; lia | lra | intros k; reflexivity].
Defined.

Lemma single_vote_picks_the_draw_witness :
  pick_action demo_world 0 (demo_budget_state (Fin (3 # 2)))
  = Ok 1 (set_actions
            (put_item (actions (demo_budget_state (Fin (3 # 2)))) 1 0 1%Q)
            (demo_budget_state (Fin (3 # 2)))).
Proof.
  apply (single_vote_picks_the_draw demo_static demo_world 0 3
           (demo_budget_state (Fin (3 # 2))) (3 # 2));
    first [reflexivity | cbn; lia | lra | intros k; reflexivity].
Defined.

Lemma selector_refuses_bad_budget_witness :
  pick_action demo_world 0 (demo_budget_state NaN)
  = Raise (Exc ValueError "cannot convert float NaN to integer") (demo_budget_state NaN)
  /\ pick_action demo_world 0 (demo_budget_state NInf)
     = Raise (Exc OverflowError "cannot convert float infinity to integer")
         (demo_budget_state NInf)
  /\ pick_action demo_world 0 (demo_budget_state (Fin (-3)))
     = Raise (Exc ValueError "negative dimensions are not allowed")
         (demo_budget_state (Fin (-3))).
Proof.
  split; [|split].
  - apply (selector_refuses_bad_budget demo_world 0 (demo_budget_state NaN));
      first [reflexivity | cbn; lia].
  - apply (selector_refuses_bad_budget demo_world 0 (demo_budget_state NInf));
      first [reflexivity | cbn; lia].
  - destruct (selector_refuses_bad_budget demo_world 0 (demo_budget_state (Fin (-3))))
      as (_ & _ & Hneg); [cbn; lia|].
    apply (Hneg (-3)%Q); first [reflexivity | lra].
Defined.

(** ** The Monte Carlo estimator *)

Lemma argmax_from_Q l : forall bi b i,
  let r := argmax_from Qle_bool (fun _ => false) bi b i l in
  (r = bi /\ forall j, j < length l -> (nth j l 0 <= b)%Q)
  \/ (exists p, r = i + p /\ p < length l /\ (b < nth p l 0)%Q
                /\ (forall j, j < p -> (nth j l 0 < nth p l 0)%Q)
                /\ (forall j, j < length l -> (nth j l 0 <= nth p l 0)%Q)).
Proof.
  induction l as [|x l IH]; intros bi b i; cbn [argmax_from length].
  - left. split; [reflexivity|]. intros j Hj. lia.
  - destruct (Qle_bool x b) eqn:E.
    + apply Qle_bool_iff in E.
      destruct (IH bi b (S i)) as [[Hr Hall]|(p & Hr & Hp & Hb & Hlow & Hall)].
      * left. split; [exact Hr|]. intros [|j] Hj; cbn [nth]; [exact E|].
        apply Hall. lia.
      * right. exists (S p). cbn [nth]. split; [lia|]. split; [lia|].
        split; [exact Hb|]. split.
        -- intros [|j] Hj; cbn [nth]; [lra|]. apply Hlow. lia.
        -- intros [|j] Hj; cbn [nth]; [lra|]. apply Hall. lia.
    + apply not_true_iff_false in E. rewrite Qle_bool_iff in E.
      apply Qnot_le_lt in E.
      destruct (IH i x (S i)) as [[Hr Hall]|(p & Hr & Hp & Hb & Hlow & Hall)].
      * right. exists 0. cbn [nth]. split; [lia|]. split; [lia|].
        split; [exact E|]. split; [intros j Hj; lia|].
        intros [|j] Hj; cbn [nth]; [lra|]. apply Hall. lia.
      * right. exists (S p). cbn [nth]. split; [lia|]. split; [lia|].
        split; [lra|]. split.
        -- intros [|j] Hj; cbn [nth]; [lra|]. apply Hlow. lia.
        -- intros [|j] Hj; cbn [nth]; [lra|]. apply Hall. lia.
Qed.

Lemma Qargmax_spec l a :
  Qargmax l = Some a ->
  Qfirst_max (length l) (fun k => nth k l 0%Q) a.
Proof.
  destruct l as [|x l]; [discriminate|]. unfold Qargmax. cbn [argmax].
  intros [= <-]. unfold Qfirst_max. cbn [length].
  destruct (argmax_from_Q l 0 x 1) as [[Hr Hall]|(p & Hr & Hp & Hb & Hlow & Hall)];
    cbn zeta in *; rewrite Hr.
  - split; [lia|]. split; [|intros k Hk; lia].
    intros [|k] Hk; cbn [nth]; [lra|]. apply Hall. lia.
  - cbn [plus nth]. split; [lia|]. split.
    + intros [|k] Hk; cbn [nth]; [lra|]. apply Hall. lia.
    + intros [|k] Hk; cbn [nth]; [lra|]. apply Hlow. lia.
Qed.

Lemma nth_expected_samples c w t a b k m :
  k < K c -> m < M c ->
  nth m (nth k (expected_samples c w t a b) []) 0%Q = sample_of c w t a b k m.
Proof.
  intros Hk Hm. unfold expected_samples, sample_of.
  destruct (String.eqb (dist_name (reward_function c)) "bernoulli").
  - rewrite (nth_map_seq _ (K c) k) by assumption. now rewrite nth_map_seq.
  - rewrite map_map. rewrite (nth_map_seq _ (K c) k) by assumption.
    rewrite map_map. now rewrite nth_map_seq.
Qed.

Lemma row_expected_samples c w t a b k :
  k < K c ->
  nth k (expected_samples c w t a b) [] = map (sample_of c w t a b k) (seq 0 (M c)).
Proof.
  intros Hk. unfold expected_samples, sample_of.
  destruct (String.eqb (dist_name (reward_function c)) "bernoulli").
  - now rewrite (nth_map_seq _ (K c) k).
  - rewrite map_map. rewrite (nth_map_seq _ (K c) k) by assumption.
    now rewrite map_map.
Qed.

(** In every draw the arm credited is the first arm whose expected
    return is maximal. *)
Lemma best_arms_first_max c w t a b m :
  0 < K c -> m < M c ->
  Qfirst_max (K c) (fun k => sample_of c w t a b k m) (nth m (best_arms c w t a b) 0).
Proof.
  intros HK Hm. unfold best_arms.
  rewrite (nth_map_seq _ (M c) m) by assumption.
  set (col := map (fun row => nth m row 0%Q) (expected_samples c w t a b)).
  assert (Hlen : length col = K c)
    by (subst col; now rewrite length_map, length_expected_samples).
  destruct (argmax_is_Some Qle_bool (fun _ => false) col) as [i Hi]; [lia|].
  fold Qargmax in Hi. rewrite Hi. cbn [default].
  destruct (Qargmax_spec col i Hi) as (Hlt & Hmax & Hlow). rewrite Hlen in Hlt, Hmax.
  assert (Hcol : forall k, k < K c -> nth k col 0%Q = sample_of c w t a b k m).
  { intros k Hk. subst col.
    rewrite (nth_indep _ 0%Q (nth m [] 0%Q))
      by (now rewrite length_map, length_expected_samples).
    rewrite (map_nth (fun row => nth m row 0%Q)).
    now apply nth_expected_samples. }
  split; [exact Hlt|]. split.
  - intros k Hk. cbv beta. unfold id.
    rewrite <- (Hcol k Hk), <- (Hcol i Hlt). now apply Hmax.
  - intros k Hk. cbv beta. unfold id in *.
    rewrite <- (Hcol k), <- (Hcol i Hlt) by lia. now apply Hlow.
Qed.

Lemma Qsum_indicator_count k idx :
  Qsum (indicator k idx) == inject_Z (Z.of_nat (count_votes idx k)).
Proof.
  unfold indicator. induction idx as [|v idx IH]; [reflexivity|].
  cbn [map count_votes]. rewrite Qsum_cons, IH.
  rewrite Nat2Z.inj_add, inject_Z_plus. now destruct (v =? k).
Qed.

(** X7.  Once the estimator has run at [t] (Beta prior, at least one
    arm and one draw), [mean[k, t]] is the number of the [M] draws that
    arm [k] wins, divided by [M]; a draw is won by the arm whose
    sampled expected return is the largest, the lowest-indexed such arm
    when several are tied. *)
Theorem estimator_counts_first_maxima c w t t_max s a b :
  1 <= M c -> 0 < K c -> beta_named c = true -> t < t_max ->
  allocated c t_max s = true ->
  last (reward_posterior_alpha s) = Some a ->
  last (reward_posterior_beta s) = Some b ->
  length a = K c -> length b = K c ->
  exists s',
    compute_action_predictive_density c w t s = Ok tt s'
    /\ length (best_arms c w t a b) = M c
    /\ (forall m, m < M c ->
          Qfirst_max (K c) (fun k => sample_of c w t a b k m)
            (nth m (best_arms c w t a b) 0))
    /\ (forall k, k < K c ->
          exists p,
            getitem (mean (actions_predictive_density s')) k t = Some (Fin p)
            /\ (p == inject_Z (Z.of_nat (wins c w t a b k))
                     / inject_Z (Z.of_nat (M c)))%Q).
Proof.
  intros HM HK Hbeta Ht Hal Hla Hlb Ha Hb.
  exists (density_written c w t a b s).
  split; [now apply (compute_ok c w t t_max)|].
  split; [apply length_best_arms|].
  split; [intros m Hm; now apply best_arms_first_max|].
  intros k Hk.
  rewrite (density_written_mean c w t t_max a b s Hal Ht k Hk).
  rewrite fmean_Fin by (rewrite length_indicator, length_best_arms; lia).
  eexists. split; [reflexivity|].
  unfold Qlen, wins. rewrite length_indicator, length_best_arms.
  now rewrite Qsum_indicator_count.
Qed.

Lemma estimator_counts_first_maxima_witness :
  exists s',
    compute_action_predictive_density demo_static demo_world 0
      (allocate demo_static 3 (init demo_static)) = Ok tt s'
    /\ length (best_arms demo_static demo_world 0 [1%Q; 1%Q] [1%Q; 1%Q]) = 3
    /\ (forall m, m < 3 ->
          Qfirst_max 2 (fun k => sample_of demo_static demo_world 0 [1%Q; 1%Q] [1%Q; 1%Q] k m)
            (nth m (best_arms demo_static demo_world 0 [1%Q; 1%Q] [1%Q; 1%Q]) 0))
    /\ (forall k, k < 2 ->
          exists p,
            getitem (mean (actions_predictive_density s')) k 0 = Some (Fin p)
            /\ (p == inject_Z (Z.of_nat (wins demo_static demo_world 0 [1%Q; 1%Q] [1%Q; 1%Q] k))
                     / inject_Z (Z.of_nat 3))%Q).
Proof.
  apply (estimator_counts_first_maxima demo_static demo_world 0 3
           (allocate demo_static 3 (init demo_static)) [1%Q; 1%Q] [1%Q; 1%Q]);
    first [reflexivity | cbn; lia].
Defined.

Lemma Qsum_map_bounds {A} (f : A -> Q) (lo hi : Q) l :
  (forall x, In x l -> (lo <= f x)%Q /\ (f x <= hi)%Q) ->
  (Qlen l * lo <= Qsum (map f l))%Q /\ (Qsum (map f l) <= Qlen l * hi)%Q.
Proof.
  induction l as [|x l IH]; intros H.
  - unfold Qlen, Qsum. cbn [map foldr length].
    change (inject_Z (Z.of_nat 0)) with 0%Q. split; lra.
  - destruct (H x (or_introl eq_refl)) as [H1 H2].
    destruct IH as [IH1 IH2]; [intros y Hy; apply H; now right|].
    cbn [map]. rewrite Qsum_cons, Qlen_cons. split; lra.
Qed.

Lemma density_written_returns_expected c w t t_max a b s k :
  allocated c t_max s = true -> t < t_max -> k < K c ->
  getitem (returns_expected (density_written c w t a b s)) k t
  = Some (fmean (map (sample_of c w t a b k) (seq 0 (M c)))).
Proof.
  intros Hal Ht Hk. apply allocated_spec in Hal.
  destruct Hal as (_ & _ & _ & _ & (He0 & He1) & _).
  unfold getitem. simpl_state. rewrite He0, He1.
  destruct (Nat.ltb_spec k (K c)); [|lia].
  destruct (Nat.ltb_spec t t_max); [|lia]. cbn [andb]. rewrite Nat.eqb_refl.
  f_equal. rewrite <- row_expected_samples by assumption.
  unfold bcast_nth. rewrite length_map, length_expected_samples.
  assert (Hnth : forall i, i < K c ->
            nth i (map fmean (expected_samples c w t a b)) (Fin 0)
            = fmean (nth i (expected_samples c w t a b) [])).
  { intros i Hi.
    rewrite (nth_indep _ (Fin 0) (fmean []))
      by (now rewrite length_map, length_expected_samples).
    apply (map_nth fmean). }
  destruct (Nat.eqb_spec (K c) 1) as [E|_].
  - replace k with 0 by lia. apply Hnth. lia.
  - now apply Hnth.
Qed.

(** X8.  When each of the [M] expected returns sampled for arm [k] at
    [t] lies in [[0, 1]], as the parameters drawn from a Beta posterior
    do for a Bernoulli reward, the estimator (Beta prior, at least one
    arm and one draw) writes in [returns_expected[k, t]] a number of
    [[0, 1]]. *)
Theorem expected_return_in_unit_interval c w t t_max s a b k :
  1 <= M c -> k < K c -> beta_named c = true -> t < t_max ->
  allocated c t_max s = true ->
  last (reward_posterior_alpha s) = Some a ->
  last (reward_posterior_beta s) = Some b ->
  length a = K c -> length b = K c ->
  (forall m, m < M c -> (0 <= sample_of c w t a b k m)%Q
                        /\ (sample_of c w t a b k m <= 1)%Q) ->
  exists s' r,
    compute_action_predictive_density c w t s = Ok tt s'
    /\ getitem (returns_expected s') k t = Some (Fin r)
    /\ (0 <= r)%Q /\ (r <= 1)%Q.
Proof.
  intros HM Hk Hbeta Ht Hal Hla Hlb Ha Hb Hbounds.
  set (row := map (sample_of c w t a b k) (seq 0 (M c))).
  assert (Hlen : length row = M c) by (subst row; now rewrite length_map, length_seq).
  exists (density_written c w t a b s), (Qsum row / Qlen row)%Q.
  split; [apply (compute_ok c w t t_max); auto; lia|].
  split.
  { rewrite (density_written_returns_expected c w t t_max) by assumption.
    fold row. f_equal. apply fmean_Fin. lia. }
  destruct (Qsum_map_bounds (sample_of c w t a b k) 0 1 (seq 0 (M c))) as [H1 H2].
  { intros m Hm. apply in_seq in Hm. apply Hbounds. lia. }
  fold row in H1, H2.
  assert (Hrow : Qlen row == Qlen (seq 0 (M c)))
    by (unfold Qlen; now rewrite Hlen, length_seq).
  rewrite <- Hrow in H1, H2.
  assert (Hpos : (0 < Qlen row)%Q) by (apply Qlen_pos; lia).
  split.
  - apply Qle_shift_div_l; [exact Hpos|]. lra.
  - apply Qle_shift_div_r; [exact Hpos|]. lra.
Qed.

Lemma expected_return_in_unit_interval_witness :
  exists s' r,
    compute_action_predictive_density demo_static demo_world 0
      (allocate demo_static 3 (init demo_static)) = Ok tt s'
    /\ getitem (returns_expected s') 1 0 = Some (Fin r)
    /\ (0 <= r)%Q /\ (r <= 1)%Q.
Proof.
  apply (expected_return_in_unit_interval demo_static demo_world 0 3
           (allocate demo_static 3 (init demo_static)) [1%Q; 1%Q] [1%Q; 1%Q] 1);
    first [reflexivity | cbn; lia | idtac].
  intros m Hm. destruct m as [|[|[|m]]]; [| | |cbn in Hm; lia];
    vm_compute; split; discriminate.
Defined.

(** X9.  The estimator at [t], whether it returns or raises, writes
    nothing but column [t] of [mean], [var] and [returns_expected]:
    the other columns and the shapes of these arrays, the action and
    return records, the posterior history and the budgets are as
    before. *)
Theorem estimator_writes_only_its_column c w t s :
  let s' := final (compute_action_predictive_density c w t s) in
  same_log s s'
  /\ n_samples s' = n_samples s
  /\ same_off_column t (mean (actions_predictive_density s))
       (mean (actions_predictive_density s'))
  /\ same_off_column t (var (actions_predictive_density s))
       (var (actions_predictive_density s'))
  /\ same_off_column t (returns_expected s) (returns_expected s').
Proof.
  cbv zeta. split; [apply compute_frame|].
  unfold compute_action_predictive_density, assign_col, setcol, dict_getitem.
  unfold bind, get, lift, raise, ret, modify.
  cbn [String.eqb Ascii.eqb Bool.eqb].
  unfold same_off_column.
  split_matches; cbn [final]; simpl_state;
    repeat split; try reflexivity;
    intros k j Hj; destruct (Nat.eqb_spec j t); try reflexivity; contradiction.
Qed.

(** ** The capped modes when the estimator is certain *)

Lemma argmax_from_map_Fin l : forall bi b i,
  argmax_from fle is_nan bi (Fin b) i (map Fin l)
  = argmax_from Qle_bool (fun _ => false) bi b i l.
Proof.
  induction l as [|x l IH]; intros bi b i; cbn [map argmax_from is_nan fle];
    [reflexivity|].
  destruct (Qle_bool x b); apply IH.
Qed.

Lemma fargmax_map_Fin l : fargmax (map Fin l) = Qargmax l.
Proof.
  destruct l as [|x l]; [reflexivity|].
  unfold fargmax, Qargmax. cbn [map argmax]. now rewrite argmax_from_map_Fin.
Qed.

(** On the column that the estimator has written, the arm that the
    capped modes read is the first arm with the most draws won. *)
Lemma most_probable_arm_most_wins c w t t_max a b s :
  1 <= M c -> 0 < K c -> allocated c t_max s = true -> t < t_max ->
  exists a',
    most_probable_arm t (density_written c w t a b s)
    = Ok a' (density_written c w t a b s)
    /\ Qfirst_max (K c)
         (fun k => inject_Z (Z.of_nat (wins c w t a b k))
                   / inject_Z (Z.of_nat (M c)))%Q a'.
Proof.
  intros HM HK Hal Ht.
  set (idx := best_arms c w t a b).
  destruct (win_fractions_distribution (K c) idx) as (Hcol & Hlen & _).
  { subst idx. rewrite length_best_arms. lia. }
  { subst idx. now apply best_arms_lt. }
  cbv zeta in Hcol, Hlen.
  set (qs := map (fun k => Qsum (indicator k idx) / Qlen idx)%Q (seq 0 (K c))) in *.
  destruct (argmax_is_Some Qle_bool (fun _ => false) qs) as [a' Ha']; [lia|].
  fold Qargmax in Ha'.
  exists a'. split.
  - unfold most_probable_arm, dict_getitem, read_col. unfold bind, get.
    cbn [String.eqb Ascii.eqb Bool.eqb ret].
    rewrite (density_written_mean_col c w t t_max a b s Hal Ht). fold idx.
    cbn [lift ret]. rewrite Hcol, fargmax_map_Fin, Ha'. reflexivity.
  - destruct (Qargmax_spec qs a' Ha') as (Hlt & Hmax & Hlow).
    rewrite Hlen in Hlt, Hmax.
    assert (Hq : forall k, k < K c ->
              (nth k qs 0 == inject_Z (Z.of_nat (wins c w t a b k))
                             / inject_Z (Z.of_nat (M c)))%Q).
    { intros k Hk. subst qs. rewrite nth_map_seq by assumption.
      unfold Qlen, wins. fold idx. subst idx. rewrite length_best_arms.
      now rewrite Qsum_indicator_count. }
    split; [exact Hlt|]. split.
    + intros k Hk. cbv beta. rewrite <- (Hq k Hk), <- (Hq a' Hlt). now apply Hmax.
    + intros k Hk. cbv beta. rewrite <- (Hq k), <- (Hq a' Hlt) by lia. now apply Hlow.
Qed.

Lemma fdiv_one_zero v : (v == 0)%Q -> fdiv (Fin 1) (Fin v) = PInf.
Proof.
  intros Hv. unfold fdiv, Qsgn. apply Qeq_alt in Hv. now rewrite Hv.
Qed.

Lemma cap_of_infinity nmax :
  is_nan nmax = false -> fmin (fmax PInf (Fin 1)) nmax = nmax.
Proof. now destruct nmax. Qed.

(** X10.  In the modes [invVar] and [invPFA], when one arm wins every
    draw of the estimator at [t] (as it does with a single draw), that
    arm's [mean] is 1, the variance read is 0, resp. the
    false-alarm probability read is 0, the division gives [inf], and
    the budget of the step is the cap [n_max] itself. *)
Theorem certain_estimate_uses_full_cap c w t t_max s a b k0 nmax :
  capped_mode c = true ->
  s_n_max (sampling c) = Some nmax -> is_nan nmax = false ->
  1 <= M c -> k0 < K c -> beta_named c = true -> t < t_max ->
  allocated c t_max s = true ->
  last (reward_posterior_alpha s) = Some a ->
  last (reward_posterior_beta s) = Some b ->
  length a = K c -> length b = K c ->
  wins c w t a b k0 = M c ->
  exists s1,
    bind (compute_action_predictive_density c w t)
         (fun _ => samples_needed c w t) s = Ok nmax s1
    /\ exists p, getitem (mean (actions_predictive_density s1)) k0 t = Some (Fin p)
                 /\ (p == 1)%Q.
Proof.
  intros Hmode Hnmax Hnan HM Hk0 Hbeta Ht Hal Hla Hlb Ha Hb Hwin.
  assert (HK : 0 < K c) by lia.
  pose proof (compute_ok c w t t_max s a b Hbeta HK Ht Hal Hla Hlb Ha Hb) as Hc.
  set (s1 := density_written c w t a b s) in *.
  assert (HMpos : (0 < inject_Z (Z.of_nat (M c)))%Q).
  { change 0%Q with (inject_Z 0). rewrite <- Zlt_Qlt. lia. }
  exists s1. split.
  - destruct (most_probable_arm_most_wins c w t t_max a b s HM HK Hal Ht)
      as (a' & Harm & Hlt & Hmax & _).
    fold s1 in Harm. specialize (Hmax k0 Hk0). cbv beta in Hmax. rewrite Hwin in Hmax.
    destruct (zero_one_mean_var (indicator a' (best_arms c w t a b)))
      as (m & v & Hm & Hv & Hmq & _ & Hm1 & Hvq & _).
    { apply indicator_zero_one. }
    { rewrite length_indicator, length_best_arms. lia. }
    assert (Hmw : (m == inject_Z (Z.of_nat (wins c w t a b a'))
                        / inject_Z (Z.of_nat (M c)))%Q).
    { rewrite Hmq. unfold Qlen, wins.
      rewrite length_indicator, length_best_arms. now rewrite Qsum_indicator_count. }
    assert (Hone : (m == 1)%Q).
    { rewrite <- Hmw in Hmax.
      assert (H1 : (inject_Z (Z.of_nat (M c)) / inject_Z (Z.of_nat (M c)) == 1)%Q)
        by (field; lra).
      rewrite H1 in Hmax. lra. }
    assert (Hzero : (v == 0)%Q) by (rewrite Hvq, Hone; ring).
    pose proof (density_written_mean c w t t_max a b s Hal Ht a' Hlt) as Hgm.
    pose proof (density_written_var c w t t_max a b s Hal Ht a' Hlt) as Hgv.
    fold s1 in Hgm, Hgv. rewrite Hm in Hgm. rewrite Hv in Hgv.
    rewrite (bind_Ok _ _ _ _ _ Hc).
    unfold capped_mode in Hmode. apply orb_prop in Hmode.
    destruct Hmode as [H|H]; apply String.eqb_eq in H.
    + unfold samples_needed. rewrite H.
      cbn [String.eqb Ascii.eqb Bool.eqb].
      unfold dict_getitem, read_item, knob. unfold bind, get.
      cbn [String.eqb Ascii.eqb Bool.eqb ret]. rewrite Harm, Hgv, Hnmax.
      cbn [lift ret]. rewrite (fdiv_one_zero v Hzero).
      now rewrite cap_of_infinity.
    + unfold samples_needed. rewrite H.
      cbn [String.eqb Ascii.eqb Bool.eqb].
      unfold dict_getitem, read_item, knob. unfold bind, get.
      cbn [String.eqb Ascii.eqb Bool.eqb ret]. rewrite Harm, Hgm, Hnmax.
      cbn [lift ret fsub fneg fadd].
      rewrite (fdiv_one_zero (1 + - m)) by (rewrite Hone; ring).
      now rewrite cap_of_infinity.
  - subst s1. rewrite (density_written_mean c w t t_max a b s Hal Ht k0 Hk0).
    rewrite fmean_Fin by (rewrite length_indicator, length_best_arms; lia).
    eexists. split; [reflexivity|].
    unfold Qlen. rewrite length_indicator, length_best_arms.
    rewrite Qsum_indicator_count. fold (wins c w t a b k0). rewrite Hwin.
    field. lra.
Qed.

Lemma certain_estimate_uses_full_cap_witness :
  exists s1,
    bind (compute_action_predictive_density demo_single_draw demo_world 0)
         (fun _ => samples_needed demo_single_draw demo_world 0)
         (allocate demo_single_draw 3 (init demo_single_draw)) = Ok (Fin 25) s1
    /\ exists p, getitem (mean (actions_predictive_density s1)) 0 0 = Some (Fin p)
                 /\ (p == 1)%Q.
Proof.
  apply (certain_estimate_uses_full_cap demo_single_draw demo_world 0 3
           (allocate demo_single_draw 3 (init demo_single_draw))
           [1%Q; 1%Q] [1%Q; 1%Q] 0 (Fin 25));
    first [reflexivity | cbn; lia].
Defined.

(** ** What one iteration and a whole run record *)

(** A loop over [seq n m] keeps an invariant indexed by the iteration;
    when it stops early, the state satisfies what the aborted iteration
    guarantees. *)
Lemma for_each_invariant {S} (body : nat -> Py S unit)
    (I E : nat -> S -> Prop) m : forall n s,
  (forall n s, I n s ->
     match body n s with Ok _ s' => I (Datatypes.S n) s' | Raise _ s' => E n s' end) ->
  I n s ->
  match for_each (seq n m) body s with
  | Ok _ s' => I (n + m) s'
  | Raise _ s' => exists n', n <= n' < n + m /\ E n' s'
  end.
Proof.
  induction m as [|m IH]; intros n s Hstep HI; cbn [seq for_each].
  - cbn. now rewrite Nat.add_0_r.
  - unfold bind. specialize (Hstep n s HI) as Hn.
    destruct (body n s) as [[] s'|e s']; [|exists n; split; [lia|exact Hn]].
    replace (n + Datatypes.S m) with (Datatypes.S n + m) by lia.
    specialize (IH (Datatypes.S n) s' Hstep Hn).
    destruct (for_each (seq (Datatypes.S n) m) body s') as [[] s2|e s2];
      [exact IH|].
    destruct IH as (n' & Hn' & HE). exists n'. split; [lia|exact HE].
Qed.

(** The posterior update appends one snapshot to each history, or
    raises having appended nothing, or the alpha snapshot only. *)
Lemma update_appends c t s :
  match update_reward_posterior c t s with
  | Ok _ s' => exists a' b', s' = posterior_appended a' b' s
  | Raise _ s' =>
      s' = s
      \/ exists a', s' = set_posterior_alpha (reward_posterior_alpha s ++ [a']) s
  end.
Proof.
  unfold update_reward_posterior. unfold bind, get, lift, raise, ret, modify.
  split_matches; eauto.
Qed.

Lemma step_log c w n s :
  blank_column s n ->
  match execute_step c w n s with
  | Ok _ s' =>
      exists a rw a' b',
        a < shape0 (actions s) /\ n < shape1 (actions s)
        /\ reward_rvs w n !! a = Some rw
        /\ actions s' = put_item (actions s) a n 1%Q
        /\ returns s' = put_item (returns s) a n rw
        /\ reward_posterior_alpha s' = reward_posterior_alpha s ++ [a']
        /\ reward_posterior_beta s' = reward_posterior_beta s ++ [b']
  | Raise _ s' =>
      ((actions s' = actions s /\ returns s' = returns s)
       \/ (exists a, a < shape0 (actions s)
                     /\ actions s' = put_item (actions s) a n 1%Q
                     /\ returns s' = returns s)
       \/ (exists a rw, reward_rvs w n !! a = Some rw
                        /\ actions s' = put_item (actions s) a n 1%Q
                        /\ returns s' = put_item (returns s) a n rw))
      /\ reward_posterior_beta s' = reward_posterior_beta s
      /\ (reward_posterior_alpha s' = reward_posterior_alpha s
          \/ exists a', reward_posterior_alpha s'
                        = reward_posterior_alpha s ++ [a'])
  end.
Proof.
  intros Hblank.
  destruct (execute_step_cases c w n s Hblank)
    as [(e & s' & -> & Hr & Hpa & Hpb & Hact)
       |(a & rw & s5 & Ha & Hn & _ & _ & Hrw & Ha5 & Hr5 & Hpa5 & Hpb5 & ->)].
  - split; [|split; [exact Hpb|now left]].
    destruct Hact as [Hact|(a & Ha & _ & Hact)]; [now left|].
    right. left. now exists a.
  - pose proof (update_appends c n s5) as Hu.
    destruct (update_reward_posterior c n s5) as [[] s'|e s'].
    + destruct Hu as (a' & b' & ->). exists a, rw, a', b'.
      unfold posterior_appended. simpl_fields. rewrite Hpa5, Hpb5. auto 10.
    + assert (Hlog : actions s' = put_item (actions s) a n 1%Q
                     /\ returns s' = put_item (returns s) a n rw).
      { destruct Hu as [->|[a' ->]]; simpl_fields; auto. }
      split; [right; right; exists a, rw; tauto|].
      destruct Hu as [->|[a' ->]]; simpl_fields; rewrite ?Hpa5.
      * auto.
      * split; [assumption|]. right. now exists a'.
Qed.

Lemma justified_put_action w s s' a n :
  returns_justified w s ->
  actions s' = put_item (actions s) a n 1%Q -> returns s' = returns s ->
  returns_justified w s'.
Proof.
  intros Hj Ha Hr t k. rewrite Ha, Hr. simpl_state.
  destruct (Hj t k) as [H0|[H1 Hrw]]; [now left|]. right. split; [|exact Hrw].
  destruct ((k =? a) && (t =? n)); [reflexivity|exact H1].
Qed.

Lemma justified_put_both w s s' a n rw :
  returns_justified w s -> reward_rvs w n !! a = Some rw ->
  actions s' = put_item (actions s) a n 1%Q ->
  returns s' = put_item (returns s) a n rw ->
  returns_justified w s'.
Proof.
  intros Hj Hrw Ha Hr t k. rewrite Ha, Hr. simpl_state.
  destruct ((k =? a) && (t =? n)) eqn:E; [|apply Hj].
  apply andb_prop in E. destruct E as [E1 E2].
  apply Nat.eqb_eq in E1, E2. subst. right. now split.
Qed.

Lemma step_returns c w n s :
  log_blank_from s n /\ returns_justified w s /\ returns_recorded w s n ->
  match execute_step c w n s with
  | Ok _ s' =>
      log_blank_from s' (S n) /\ returns_justified w s' /\ returns_recorded w s' (S n)
  | Raise _ s' => returns_justified w s'
  end.
Proof.
  intros (Hblank & Hj & Hrec).
  assert (Hb : blank_column s n) by (intros k; now apply Hblank).
  pose proof (step_log c w n s Hb) as Hstep.
  destruct (execute_step c w n s) as [[] s'|e s'].
  - destruct Hstep as (a & rw & a' & b' & Ha & Hn & Hrw & Hact & Hret & _).
    split; [|split].
    + intros t k Ht. rewrite Hact, Hret. simpl_state.
      destruct (Nat.eqb_spec t n); [lia|]. rewrite andb_false_r.
      apply Hblank. lia.
    + now apply (justified_put_both w s s' a n rw).
    + intros t k Ht. rewrite Hact, Hret. simpl_state.
      destruct ((k =? a) && (t =? n)) eqn:E.
      * apply andb_prop in E. destruct E as [E1 E2].
        apply Nat.eqb_eq in E1, E2. subst. intros _. exact Hrw.
      * intros H1. destruct (Nat.eq_dec t n) as [->|Hne].
        -- destruct (Hblank n k (le_n n)) as [H0 _]. rewrite H0 in H1. discriminate.
        -- apply Hrec; [lia|exact H1].
  - destruct Hstep as ([[Hact Hret]|[(a & _ & Hact & Hret)|(a & rw & Hrw & Hact & Hret)]] & _).
    + intros t k. rewrite Hact, Hret. apply Hj.
    + now apply (justified_put_action w s s' a n).
    + now apply (justified_put_both w s s' a n rw).
Qed.

(** X11.  At the end of a run, whether it returned or raised, every
    entry of the return record is 0 or is the reward that was drawn at
    that step for that arm, and then the action record marks the arm as
    chosen at that step: no return is recorded for an arm that was not
    played.  When the run returned, the return recorded at each step
    for the chosen arm is the reward drawn for it at that step. *)
Theorem returns_follow_actions c w t_max s0 :
  returns_justified w (final (execute c w t_max s0))
  /\ (is_ok (execute c w t_max s0) = true ->
      returns_recorded w (final (execute c w t_max s0)) t_max).
Proof.
  unfold execute. rewrite execute_steps_eq.
  pose proof (for_each_invariant (execute_step c w)
                (fun n s => log_blank_from s n /\ returns_justified w s
                            /\ returns_recorded w s n)
                (fun _ s => returns_justified w s)
                t_max 0 (allocate c t_max s0) (step_returns c w)) as Hloop.
  destruct (for_each (seq 0 t_max) (execute_step c w) (allocate c t_max s0))
    as [[] s'|e s']; cbn [final is_ok].
  - destruct Hloop as (_ & Hj & Hrec).
    + split; [intros t k _; split; reflexivity|].
      split; [intros t k; now left|intros t k Ht; lia].
    + split; [exact Hj|]. intros _. exact Hrec.
  - destruct Hloop as (n' & _ & Hj).
    + split; [intros t k _; split; reflexivity|].
      split; [intros t k; now left|intros t k Ht; lia].
    + split; [exact Hj|discriminate].
Qed.

Lemma returns_follow_actions_witness :
  returns_justified demo_world
    (final (execute demo_static demo_world 3 (init demo_static)))
  /\ returns_recorded demo_world
       (final (execute demo_static demo_world 3 (init demo_static))) 3.
Proof.
  destruct (returns_follow_actions demo_static demo_world 3 (init demo_static))
    as [Hj Hrec].
  split; [exact Hj|]. apply Hrec. vm_compute. reflexivity.
Defined.

Lemma step_posterior c w s0 n s :
  (blank_from s n
   /\ exists la lb,
        reward_posterior_alpha s = reward_posterior_alpha s0 ++ la
        /\ reward_posterior_beta s = reward_posterior_beta s0 ++ lb
        /\ length la = n /\ length lb = n) ->
  match execute_step c w n s with
  | Ok _ s' =>
      blank_from s' (S n)
      /\ exists la lb,
           reward_posterior_alpha s' = reward_posterior_alpha s0 ++ la
           /\ reward_posterior_beta s' = reward_posterior_beta s0 ++ lb
           /\ length la = S n /\ length lb = S n
  | Raise _ s' =>
      exists la lb,
        reward_posterior_alpha s' = reward_posterior_alpha s0 ++ la
        /\ reward_posterior_beta s' = reward_posterior_beta s0 ++ lb
        /\ length lb = n /\ (length la = n \/ length la = S n)
  end.
Proof.
  intros (Hblank & la & lb & Hpa & Hpb & Hla & Hlb).
  pose proof (step_log c w n s (Hblank n (le_n n))) as Hstep.
  destruct (execute_step c w n s) as [[] s'|e s'].
  - destruct Hstep as (a & rw & a' & b' & _ & _ & _ & Hact & _ & Ha' & Hb').
    split.
    + intros t Ht k. rewrite Hact. simpl_state.
      destruct (Nat.eqb_spec t n); [lia|]. rewrite andb_false_r.
      apply Hblank. lia.
    + exists (la ++ [a']), (lb ++ [b']).
      rewrite Ha', Hb', Hpa, Hpb, <- !app_assoc, !length_app. cbn [length].
      repeat split; lia.
  - destruct Hstep as (_ & Hb' & Ha').
    destruct Ha' as [Ha'|[a' Ha']].
    + exists la, lb. rewrite Ha', Hb'. auto.
    + exists (la ++ [a']), lb.
      rewrite Ha', Hb', Hpa, <- app_assoc, length_app. cbn [length].
      repeat split; auto. right. lia.
Qed.

(** X12.  [execute] allocates fresh arrays but does not reset the
    posterior history: at the end of a run the two histories are those
    the run started from, each followed by the snapshots of the run.
    A run that returns has appended [t_max] snapshots to each; a run
    that raises at step [n] has appended [n] snapshots to each, or
    [n + 1] alpha snapshots and [n] beta snapshots. *)
Theorem posterior_history_never_reset c w t_max s0 :
  exists n la lb,
    reward_posterior_alpha (final (execute c w t_max s0))
    = reward_posterior_alpha s0 ++ la
    /\ reward_posterior_beta (final (execute c w t_max s0))
       = reward_posterior_beta s0 ++ lb
    /\ n <= t_max /\ length lb = n /\ (length la = n \/ length la = S n)
    /\ (is_ok (execute c w t_max s0) = true -> length la = t_max /\ n = t_max).
Proof.
  unfold execute. rewrite execute_steps_eq.
  pose proof (for_each_invariant (execute_step c w)
                (fun n s =>
                   blank_from s n
                   /\ exists la lb,
                        reward_posterior_alpha s = reward_posterior_alpha s0 ++ la
                        /\ reward_posterior_beta s = reward_posterior_beta s0 ++ lb
                        /\ length la = n /\ length lb = n)
                (fun n s =>
                   exists la lb,
                     reward_posterior_alpha s = reward_posterior_alpha s0 ++ la
                     /\ reward_posterior_beta s = reward_posterior_beta s0 ++ lb
                     /\ length lb = n /\ (length la = n \/ length la = S n))
                t_max 0 (allocate c t_max s0) (step_posterior c w s0)) as Hloop.
  assert (Hinit : blank_from (allocate c t_max s0) 0
                  /\ exists la lb,
                       reward_posterior_alpha (allocate c t_max s0)
                       = reward_posterior_alpha s0 ++ la
                       /\ reward_posterior_beta (allocate c t_max s0)
                          = reward_posterior_beta s0 ++ lb
                       /\ length la = 0 /\ length lb = 0).
  { split; [apply allocate_blank|]. exists [], []. cbn. now rewrite !app_nil_r. }
  specialize (Hloop Hinit).
  destruct (for_each (seq 0 t_max) (execute_step c w) (allocate c t_max s0))
    as [[] s'|e s']; cbn [final is_ok].
  - destruct Hloop as (_ & la & lb & Hpa & Hpb & Hla & Hlb).
    exists t_max, la, lb. cbn in Hla, Hlb. repeat split; auto.
  - destruct Hloop as (n' & Hn' & la & lb & Hpa & Hpb & Hlb & Hla).
    exists n', la, lb. repeat split; auto; try lia; discriminate.
Qed.

Lemma posterior_history_never_reset_witness :
  exists n la lb,
    reward_posterior_alpha (final (execute demo_static demo_world 3 (init demo_static)))
    = reward_posterior_alpha (init demo_static) ++ la
    /\ reward_posterior_beta (final (execute demo_static demo_world 3 (init demo_static)))
       = reward_posterior_beta (init demo_static) ++ lb
    /\ length lb = n /\ length la = 3 /\ n = 3.
Proof.
  destruct (posterior_history_never_reset demo_static demo_world 3 (init demo_static))
    as (n & la & lb & Hpa & Hpb & _ & Hlb & _ & Hok).
  exists n, la, lb. split; [exact Hpa|]. split; [exact Hpb|]. split; [exact Hlb|].
  apply Hok. vm_compute. reflexivity.
Defined.

(** ** Pseudo-counts *)







(** ** The posterior update on priors of another length *)

Lemma broadcast2_scalar f x v : broadcast2 f [x] v = Some (map (f x) v).
Proof.
  unfold broadcast2. cbn [length nth].
  destruct (Nat.eqb_spec 1 (length v)) as [E|_]; [|reflexivity].
  destruct v as [|y [|z v]]; try discriminate. reflexivity.
Qed.

Lemma broadcast2_mismatch f u v :
  length u <> length v -> length u <> 1 -> length v <> 1 ->
  broadcast2 f u v = None.
Proof.
  intros H1 H2 H3. unfold broadcast2.
  destruct (Nat.eqb_spec (length u) (length v)); [contradiction|].
  destruct (Nat.eqb_spec (length u) 1); [contradiction|].
  now destruct (Nat.eqb_spec (length v) 1).
Qed.

(** X14.  A Beta prior given by a single pair of hyperparameters is
    broadcast over the arms: in the Bernoulli/Beta case the update
    appends snapshots with one entry per arm, the alpha entry of arm
    [k] being the prior alpha plus the returns of [k] through [t], the
    beta entry the prior beta plus its trials minus its returns. *)
Theorem scalar_prior_is_broadcast c t t_max s x y :
  bernoulli_beta c = true ->
  alpha (reward_prior c) = [x] -> beta (reward_prior c) = [y] ->
  allocated c t_max s = true -> t < t_max ->
  exists a' b',
    update_reward_posterior c t s = Ok tt (posterior_appended a' b' s)
    /\ length a' = K c /\ length b' = K c
    /\ forall k, k < K c ->
         (nth k a' 0 == x + successes s k t)%Q
         /\ (nth k b' 0 == y + (trials s k t - successes s k t))%Q.
Proof.
  intros Hbb Hpa Hpb Hal Ht. apply allocated_spec in Hal.
  destruct Hal as (_ & _ & (Ha0 & Ha1) & (Hr0 & Hr1) & _).
  set (s_t := sum_axis1_upto (returns s) (t + 1)).
  set (n_t := sum_axis1_upto (actions s) (t + 1)).
  assert (Hls : length s_t = K c)
    by (subst s_t; now rewrite length_sum_axis1_upto).
  assert (Hln : length n_t = K c)
    by (subst n_t; now rewrite length_sum_axis1_upto).
  exists (map (Qplus x) s_t), (map (Qplus y) (zip_with Qminus n_t s_t)).
  split; [|split; [|split]].
  - unfold update_reward_posterior. unfold bernoulli_beta, beta_named in Hbb.
    rewrite Hbb. unfold bind at 1. unfold get at 1.
    fold s_t. fold n_t. rewrite Hpa, Hpb, broadcast2_scalar.
    rewrite (broadcast2_same Qminus n_t s_t) by congruence.
    unfold bind, lift, ret, modify. rewrite broadcast2_scalar. reflexivity.
  - now rewrite length_map.
  - rewrite length_map, length_zip_with. lia.
  - intros k Hk. unfold successes, trials. split.
    + rewrite (nth_indep _ 0%Q (x + 0)%Q) by (rewrite length_map; lia).
      rewrite (map_nth (Qplus x)).
      subst s_t. rewrite nth_sum_axis1_upto by lia.
      replace (t + 1) with (S t) by lia. reflexivity.
    + rewrite (nth_indep _ 0%Q (y + 0)%Q)
        by (rewrite length_map, length_zip_with; lia).
      rewrite (map_nth (Qplus y)).
      rewrite (nth_zip_with Qminus _ _ k 0%Q 0%Q) by lia.
      subst s_t n_t. rewrite !nth_sum_axis1_upto by lia.
      replace (t + 1) with (S t) by lia. reflexivity.
Qed.

Lemma scalar_prior_is_broadcast_witness :
  exists a' b',
    update_reward_posterior (demo_prior 1 1) 0
      (allocate (demo_prior 1 1) 3 (init (demo_prior 1 1)))
    = Ok tt (posterior_appended a' b'
               (allocate (demo_prior 1 1) 3 (init (demo_prior 1 1))))
    /\ length a' = 2 /\ length b' = 2
    /\ forall k, k < 2 ->
         (nth k a' 0
          == 1 + successes (allocate (demo_prior 1 1) 3 (init (demo_prior 1 1))) k 0)%Q
         /\ (nth k b' 0
             == 2 + (trials (allocate (demo_prior 1 1) 3 (init (demo_prior 1 1))) k 0
                     - successes (allocate (demo_prior 1 1) 3
                                    (init (demo_prior 1 1))) k 0))%Q.
Proof.
  apply (scalar_prior_is_broadcast (demo_prior 1 1) 0 3
           (allocate (demo_prior 1 1) 3 (init (demo_prior 1 1))) 1 2);
    first [reflexivity | lia].
Defined.

(** X15.  In the Bernoulli/Beta case with more than one arm, a prior
    whose alpha vector has neither one entry nor one entry per arm
    makes the update raise [ValueError] with nothing appended.  When
    the alpha vector fits and the beta vector does not, the update
    raises [ValueError] after the alpha snapshot has been appended:
    the alpha history is then one snapshot longer than the beta
    history. *)
Theorem update_shape_mismatch c t s :
  bernoulli_beta c = true ->
  shape0 (actions s) = K c -> shape0 (returns s) = K c -> K c <> 1 ->
  (length (alpha (reward_prior c)) <> K c ->
   length (alpha (reward_prior c)) <> 1 ->
   update_reward_posterior c t s = Raise (Exc ValueError broadcast_error) s)
  /\ (length (alpha (reward_prior c)) = K c ->
      length (beta (reward_prior c)) <> K c ->
      length (beta (reward_prior c)) <> 1 ->
      exists a',
        length a' = K c
        /\ update_reward_posterior c t s
           = Raise (Exc ValueError broadcast_error)
               (set_posterior_alpha (reward_posterior_alpha s ++ [a']) s)).
Proof.
  intros Hbb Ha0 Hr0 HK.
  set (s_t := sum_axis1_upto (returns s) (t + 1)).
  set (n_t := sum_axis1_upto (actions s) (t + 1)).
  assert (Hls : length s_t = K c)
    by (subst s_t; now rewrite length_sum_axis1_upto).
  assert (Hln : length n_t = K c)
    by (subst n_t; now rewrite length_sum_axis1_upto).
  unfold bernoulli_beta, beta_named in Hbb. split.
  - intros H1 H2. unfold update_reward_posterior. rewrite Hbb.
    unfold bind at 1. unfold get at 1. fold s_t.
    rewrite broadcast2_mismatch by congruence. reflexivity.
  - intros H1 H2 H3. exists (zip_with Qplus (alpha (reward_prior c)) s_t).
    split; [rewrite length_zip_with; lia|].
    unfold update_reward_posterior. rewrite Hbb.
    unfold bind at 1. unfold get at 1. fold s_t. fold n_t.
    rewrite (broadcast2_same Qplus _ s_t) by congruence.
    rewrite (broadcast2_same Qminus n_t s_t) by congruence.
    unfold bind, lift, ret, modify.
    rewrite broadcast2_mismatch
      by (rewrite ?length_zip_with; lia).
    reflexivity.
Qed.

Lemma update_shape_mismatch_witness :
  update_reward_posterior (demo_prior 3 2) 0
    (allocate (demo_prior 3 2) 3 (init (demo_prior 3 2)))
  = Raise (Exc ValueError broadcast_error)
      (allocate (demo_prior 3 2) 3 (init (demo_prior 3 2)))
  /\ exists a',
       length a' = 2
       /\ update_reward_posterior (demo_prior 2 3) 0
            (allocate (demo_prior 2 3) 3 (init (demo_prior 2 3)))
          = Raise (Exc ValueError broadcast_error)
              (set_posterior_alpha
                 (reward_posterior_alpha
                    (allocate (demo_prior 2 3) 3 (init (demo_prior 2 3))) ++ [a'])
                 (allocate (demo_prior 2 3) 3 (init (demo_prior 2 3)))).
Proof.
  split.
  - destruct (update_shape_mismatch (demo_prior 3 2) 0
                (allocate (demo_prior 3 2) 3 (init (demo_prior 3 2)))
                eq_refl eq_refl eq_refl ltac:(cbn; lia))
      as [Halpha _].
    apply Halpha; cbn; lia.
  - destruct (update_shape_mismatch (demo_prior 2 3) 0
                (allocate (demo_prior 2 3) 3 (init (demo_prior 2 3)))
                eq_refl eq_refl eq_refl ltac:(cbn; lia))
      as [_ Hbeta].
    apply Hbeta; first [reflexivity | cbn; lia].
Defined.

(** ** Runs that complete *)

Lemma fsum_Fin l : fsum (map Fin l) = Fin (Qsum l).
Proof.
  induction l as [|x l IH]; [reflexivity|].
  cbn [map]. unfold fsum in *. cbn [foldr]. now rewrite IH.
Qed.

Lemma Qsum_nonneg l : Forall (fun q => (0 <= q)%Q) l -> (0 <= Qsum l)%Q.
Proof.
  induction 1 as [|x l Hx _ IH]; [cbn; lra|]. rewrite Qsum_cons. lra.
Qed.

Lemma Qsum_ge_elem l q :
  Forall (fun q => (0 <= q)%Q) l -> In q l -> (q <= Qsum l)%Q.
Proof.
  induction 1 as [|x l Hx Hl IH]; intros Hin; [destruct Hin|].
  rewrite Qsum_cons. pose proof (Qsum_nonneg l Hl).
  destruct Hin as [->|Hin]; [lra|]. specialize (IH Hin). lra.
Qed.

Lemma Qsum_take_le l : forall n,
  Forall (fun q => (0 <= q)%Q) l -> (Qsum (take n l) <= Qsum l)%Q.
Proof.
  induction l as [|x l IH]; intros n Hl.
  - destruct n; cbn; lra.
  - inversion Hl as [|? ? Hx Hl']; subst. destruct n as [|n]; cbn [take].
    + rewrite Qsum_cons. pose proof (Qsum_nonneg l Hl'). cbn. lra.
    + rewrite !Qsum_cons. specialize (IH n Hl'). lra.
Qed.

(** Non-negative numbers that sum to 1 are vote probabilities that
    [np.random.multinomial] accepts. *)
Lemma valid_pvals_distribution qs :
  Forall (fun q => (0 <= q)%Q) qs -> (Qsum qs == 1)%Q ->
  valid_pvals (map Fin qs) = true.
Proof.
  intros Hpos Hsum. unfold valid_pvals. apply andb_true_intro. split.
  - apply forallb_forall. intros x Hx. apply in_map_iff in Hx.
    destruct Hx as (q & <- & Hq). cbn [is_prob]. apply andb_true_intro. split.
    + apply Qle_bool_iff. rewrite Forall_forall in Hpos.
      apply Hpos. now apply list_elem_of_In.
    + apply Qle_bool_iff. rewrite <- Hsum. now apply Qsum_ge_elem.
  - rewrite firstn_map, fsum_Fin. cbn [fle]. apply Qle_bool_iff.
    rewrite <- Hsum. now apply Qsum_take_le.
Qed.

Lemma allocated_intro c t_max s :
  shape0 (mean (actions_predictive_density s)) = K c ->
  shape1 (mean (actions_predictive_density s)) = t_max ->
  shape0 (var (actions_predictive_density s)) = K c ->
  shape1 (var (actions_predictive_density s)) = t_max ->
  shape0 (actions s) = K c -> shape1 (actions s) = t_max ->
  shape0 (returns s) = K c -> shape1 (returns s) = t_max ->
  shape0 (returns_expected s) = K c -> shape1 (returns_expected s) = t_max ->
  length (n_samples s) = t_max ->
  allocated c t_max s = true.
Proof.
  intros. unfold allocated, has_shape.
  repeat match goal with H : _ = _ |- _ => rewrite H; clear H end.
  now rewrite !Nat.eqb_refl.
Qed.

Lemma draw_return_ok w t a s rw :
  reward_rvs w t !! a = Some rw ->
  a < shape0 (returns s) -> t < shape1 (returns s) ->
  draw_return w t a s = Ok tt (set_returns (put_item (returns s) a t rw) s).
Proof.
  intros Hrw Ha Ht. unfold draw_return, assign_item, setitem.
  unfold bind, get, modify. rewrite Hrw. cbn [lift ret].
  destruct (Nat.ltb_spec a (shape0 (returns s))); [|lia].
  now destruct (Nat.ltb_spec t (shape1 (returns s))); [|lia].
Qed.

Lemma Qtrunc_le_bound q N :
  (1 <= q)%Q -> (q <= inject_Z N)%Q -> (Qtrunc q <= N)%Z.
Proof.
  intros H1 HN. unfold Qtrunc. destruct (Qle_bool 0 q) eqn:E.
  - rewrite <- (Qfloor_Z N). now apply Qfloor_resp_le.
  - apply not_true_iff_false in E. exfalso. apply E. apply Qle_bool_iff. lra.
Qed.

Lemma samples_needed_time_value c w t s :
  time_mode c = true ->
  exists x, samples_needed c w t s = Ok (fmax x (Fin 1)) s
            /\ (x = np_log w t \/ x = np_sqrt w t).
Proof.
  intros Hmode. unfold time_mode in Hmode. unfold samples_needed.
  apply orb_prop in Hmode.
  destruct Hmode as [H|H]; apply String.eqb_eq in H; rewrite H;
    cbn [String.eqb Ascii.eqb Bool.eqb]; eexists; (split; [reflexivity|]); auto.
Qed.

Lemma linear_ramp_mono n_0 n t t' :
  (0 <= n)%Q -> t <= t' -> (linear_ramp n_0 n t <= linear_ramp n_0 n t')%Q.
Proof.
  intros Hn Ht. unfold linear_ramp.
  assert (H : (inject_Z (Z.of_nat t) <= inject_Z (Z.of_nat t'))%Q)
    by (rewrite <- Zle_Qle; lia).
  nra.
Qed.

(** With a configured budget, the budget computed on the column that
    the estimator has just written is a finite number that [int] maps
    to a count of at most [max_votes] votes. *)
Lemma budget_usable c w t t_max s a b :
  budget_configured c t_max = true -> time_values_bounded w t_max ->
  1 <= M c -> 0 < K c -> beta_named c = true -> t < t_max ->
  allocated c t_max s = true -> hyper_ok c s = true ->
  last (reward_posterior_alpha s) = Some a ->
  last (reward_posterior_beta s) = Some b ->
  length a = K c -> length b = K c ->
  exists q,
    samples_needed c w t (density_written c w t a b s)
    = Ok (Fin q) (density_written c w t a b s)
    /\ (0 <= Qtrunc q)%Z /\ (Qtrunc q <= max_votes)%Z.
Proof.
  intros Hcfg Hworld HM HK Hbeta Ht Hal Hhy Hla Hlb Ha Hb.
  set (s1 := density_written c w t a b s).
  assert (Htop : (1 <= inject_Z max_votes)%Q) by (vm_compute; discriminate).
  assert (Hfloor : forall q, (1 <= q)%Q -> (q <= inject_Z max_votes)%Q ->
                     (0 <= Qtrunc q)%Z /\ (Qtrunc q <= max_votes)%Z).
  { intros q H1 H2. pose proof (Qtrunc_ge_1 q H1).
    pose proof (Qtrunc_le_bound q max_votes H1 H2). lia. }
  unfold budget_configured in Hcfg. cbv zeta in Hcfg.
  destruct (String.eqb (stype (sampling c)) "static") eqn:Estatic.
  { destruct (s_n_samples (sampling c)) as [[| |q|]|] eqn:Eq; try discriminate.
    apply andb_prop in Hcfg. destruct Hcfg as [H0 H1].
    apply Z.leb_le in H0, H1.
    exists q. split; [|now split].
    unfold samples_needed. now rewrite Estatic, Eq. }
  destruct (String.eqb (stype (sampling c)) "linear") eqn:Elinear.
  { destruct (s_n_0 (sampling c)) as [[| |n0|]|] eqn:E0; try discriminate.
    destruct (s_n (sampling c)) as [[| |n|]|] eqn:E1; try discriminate.
    apply andb_prop in Hcfg. destruct Hcfg as [Hcfg Hend].
    apply andb_prop in Hcfg. destruct Hcfg as [_ Hn].
    apply Qle_bool_iff in Hn, Hend.
    rewrite (samples_needed_linear c w t s1 n0 n Elinear E0 E1).
    destruct (fmax_one_Fin (linear_ramp n0 n t)) as (q & -> & H1 & _ & Hq).
    exists q. split; [reflexivity|]. apply Hfloor; [exact H1|].
    pose proof (linear_ramp_mono n0 n t t_max Hn ltac:(lia)).
    destruct Hq as [->|[-> _]]; lra. }
  destruct (time_mode c) eqn:Etime.
  { destruct (samples_needed_time_value c w t s1 Etime) as (x & -> & Hx).
    destruct (Hworld t Ht) as [Hlog Hsqrt].
    assert (Hx' : x = NInf \/ exists q0, x = Fin q0 /\ (q0 <= inject_Z max_votes)%Q).
    { destruct Hx as [->| ->]; [unfold np_log|unfold np_sqrt]; destruct t;
        first [now left | right; eexists; split; [reflexivity|]; first [assumption|lra]]. }
    destruct Hx' as [->|(q0 & -> & Hq0)].
    - exists 1%Q. split; [reflexivity|]. apply Hfloor; lra.
    - destruct (fmax_one_Fin q0) as (q & -> & H1 & _ & Hq).
      exists q. split; [reflexivity|]. apply Hfloor; [exact H1|].
      destruct Hq as [->|[-> _]]; lra. }
  destruct (capped_mode c) eqn:Ecap; [|discriminate].
  destruct (s_n_max (sampling c)) as [[| |m|]|] eqn:Emax; try discriminate.
  apply andb_prop in Hcfg. destruct Hcfg as [Hone Hm].
  apply Qle_bool_iff in Hm.
  destruct (capped_budget_ok c w t t_max s (Fin m) Ecap Emax Hone HM HK Hbeta Ht Hal Hhy)
    as (s1' & n & Hrun & Hlo & Hhi).
  rewrite (bind_Ok _ _ _ _ _
             (compute_ok c w t t_max s a b Hbeta HK Ht Hal Hla Hlb Ha Hb)) in Hrun.
  fold s1 in Hrun.
  pose proof (samples_needed_frame c w t s1) as Hf. rewrite Hrun in Hf.
  cbn [final] in Hf. subst s1'.
  destruct n as [| |q|]; try discriminate.
  exists q. split; [exact Hrun|].
  cbn [fle] in Hlo, Hhi. apply Qle_bool_iff in Hlo, Hhi.
  apply Hfloor; lra.
Qed.

Lemma bernoulli_beta_named c : bernoulli_beta c = true -> beta_named c = true.
Proof. unfold bernoulli_beta. intros H. now apply andb_prop in H. Qed.

(** One iteration of a well-configured run returns and leaves the
    state ready for the next one. *)
Lemma run_step c w t_max n s :
  bernoulli_beta c = true -> prior_ok c = true -> 1 <= M c -> 0 < K c ->
  budget_configured c t_max = true -> time_values_bounded w t_max ->
  rewards_cover c w t_max -> n < t_max ->
  run_ready c t_max s n ->
  exists s', execute_step c w n s = Ok tt s' /\ run_ready c t_max s' (S n).
Proof.
  intros Hbb Hp HM HK Hcfg Hworld Hrew Hn (Hal & Hhy & Hblank & Hbud & Hlen).
  pose proof (bernoulli_beta_named c Hbb) as Hbeta.
  destruct (hyper_ok_spec c s Hhy) as (a & b & Hla & Hlb & Ha & Hb).
  pose proof (compute_ok c w n t_max s a b Hbeta HK Hn Hal Hla Hlb Ha Hb) as Hc.
  destruct (budget_usable c w n t_max s a b Hcfg Hworld HM HK Hbeta Hn Hal Hhy
              Hla Hlb Ha Hb)
    as (q & Hq & Hq0 & Hq1).
  pose proof (density_written_mean_col c w n t_max a b s Hal Hn) as Hcol.
  set (s1 := density_written c w n a b s) in *.
  assert (Hal1 : allocated c t_max s1 = true) by exact Hal.
  pose proof (allocated_spec _ _ _ Hal1)
    as ((Hm0 & Hm1) & (Hv0 & Hv1) & (Ha0 & Ha1) & (Hr0 & Hr1) & (He0 & He1) & Hns).
  set (s3 := set_n_samples (<[n := Fin q]> (n_samples s1)) s1).
  assert (Hstore : store_n_samples n (Fin q) s1 = Ok tt s3).
  { unfold store_n_samples, bind, get. rewrite Hns.
    now destruct (Nat.ltb_spec n t_max); [|lia]. }
  assert (Hal3 : allocated c t_max s3 = true).
  { apply allocated_intro; try assumption.
    subst s3. cbn [n_samples set_n_samples]. now rewrite length_insert. }
  assert (Hn3 : n_samples s3 !! n = Some (Fin q)).
  { subst s3. cbn [n_samples set_n_samples]. apply list_lookup_insert_eq. lia. }
  assert (Hv : valid_pvals (column (mean (actions_predictive_density s3)) n) = true).
  { change (mean (actions_predictive_density s3))
      with (mean (actions_predictive_density s1)).
    assert (Hcolumn : column (mean (actions_predictive_density s1)) n
                      = map (fun k => fmean (indicator k (best_arms c w n a b)))
                          (seq 0 (K c))).
    { rewrite getcol_column in Hcol by lia. injection Hcol as Hcol. exact Hcol. }
    rewrite Hcolumn.
    destruct (win_fractions_distribution (K c) (best_arms c w n a b))
      as (-> & _ & Hpos & Hsum).
    - rewrite length_best_arms. lia.
    - now apply best_arms_lt.
    - now apply valid_pvals_distribution. }
  assert (Hblank3 : blank_column s3 n) by (intros k; apply (Hblank n (le_n n) k)).
  destruct (pick_action_votes c w n t_max s3 q Hal3 Hn HK Hn3 Hv Hq0 Hblank3)
    as (arm & Hpick & Harm & _).
  set (s4 := set_actions (put_item (actions s3) arm n 1%Q) s3) in *.
  destruct (lookup_lt_is_Some_2 (reward_rvs w n) arm) as [rw Hrw].
  { specialize (Hrew n Hn). lia. }
  assert (Hdraw : draw_return w n arm s4
                  = Ok tt (set_returns (put_item (returns s4) arm n rw) s4)).
  { apply draw_return_ok; [exact Hrw| |].
    - change (returns s4) with (returns s1). lia.
    - change (returns s4) with (returns s1). lia. }
  set (s5 := set_returns (put_item (returns s4) arm n rw) s4) in *.
  destruct (update_ok c n t_max s5 Hbb Hp) as (a' & b' & Hu & Hla' & Hlb' & _);
    try assumption.
  exists (posterior_appended a' b' s5). split.
  - unfold execute_step.
    rewrite (bind_Ok _ _ _ _ _ Hc), (bind_Ok _ _ _ _ _ Hq),
      (bind_Ok _ _ _ _ _ Hstore), (bind_Ok _ _ _ _ _ Hpick),
      (bind_Ok _ _ _ _ _ Hdraw).
    exact Hu.
  - split; [|split; [|split; [|split]]].
    + apply allocated_intro; try assumption.
      change (n_samples (posterior_appended a' b' s5)) with (n_samples s3).
      subst s3. cbn [n_samples set_n_samples]. now rewrite length_insert.
    + unfold hyper_ok, posterior_appended. simpl_fields.
      rewrite !last_snoc, Hla', Hlb', Nat.eqb_refl. reflexivity.
    + intros t Ht k.
      change (item (actions (posterior_appended a' b' s5)) k t)
        with (item (put_item (actions s) arm n 1%Q) k t).
      cbn [item put_item]. destruct (Nat.eqb_spec t n); [lia|].
      rewrite andb_false_r. apply Hblank. lia.
    + intros t Ht.
      change (n_samples (posterior_appended a' b' s5))
        with (<[n := Fin q]> (n_samples s)).
      destruct (Nat.eq_dec t n) as [->|Hne].
      * exists q. split; [|now split]. apply list_lookup_insert_eq.
        change (n_samples s) with (n_samples s1). lia.
      * rewrite list_lookup_insert_ne by congruence. apply Hbud. lia.
    + change (reward_posterior_alpha (posterior_appended a' b' s5))
        with (reward_posterior_alpha s ++ [a']).
      rewrite length_app, Hlen. cbn [length]. lia.
Qed.

Lemma run_loop c w t_max m : forall n s,
  bernoulli_beta c = true -> prior_ok c = true -> 1 <= M c -> 0 < K c ->
  budget_configured c t_max = true -> time_values_bounded w t_max ->
  rewards_cover c w t_max -> n + m <= t_max ->
  run_ready c t_max s n ->
  exists s', for_each (seq n m) (execute_step c w) s = Ok tt s'
             /\ run_ready c t_max s' (n + m).
Proof.
  induction m as [|m IH]; intros n s Hbb Hp HM HK Hcfg Hworld Hrew Hnm Hready;
    cbn [seq for_each].
  - exists s. rewrite Nat.add_0_r. now split.
  - destruct (run_step c w t_max n s) as (s1 & Hstep & Hready1); auto; [lia|].
    rewrite (bind_Ok _ _ _ _ _ Hstep).
    replace (n + S m) with (S n + m) by lia. apply IH; auto. lia.
Qed.

Lemma sum_upto_nonneg (f : nat -> Q) n :
  (forall j, (0 <= f j)%Q) -> (0 <= sum_upto f n)%Q.
Proof.
  intros H. induction n as [|n IH]; cbn [sum_upto]; [lra|].
  specialize (H n). lra.
Qed.

Lemma sum_upto_le (f g : nat -> Q) n :
  (forall j, (f j <= g j)%Q) -> (sum_upto f n <= sum_upto g n)%Q.
Proof.
  intros H. induction n as [|n IH]; cbn [sum_upto]; [lra|].
  specialize (H n). lra.
Qed.

(** With a positive prior and returns between 0 and the action
    indicators, the hyperparameters of every snapshot are positive. *)
Lemma snapshots_positive c s n :
  prior_positive c -> snapshots_ok c s n -> dominated s -> history_positive c s.
Proof.
  intros Hpos (Hla & _ & Hsnap) Hdom i k Hi Hk. rewrite Hla in Hi.
  destruct (Hsnap i k ltac:(lia) Hk) as [Ha Hb]. destruct (Hpos k Hk) as [Ha0 Hb0].
  pose proof (sum_upto_nonneg (item (returns s) k) i (fun j => proj1 (Hdom k j))).
  pose proof (sum_upto_le (item (returns s) k) (item (actions s) k) i
                (fun j => proj2 (Hdom k j))).
  rewrite Ha, Hb. split; lra.
Qed.

(** X16.  A run of a well-configured bandit returns: with Bernoulli
    rewards that are 0 or 1 and are drawn for every arm, a Beta prior
    holding one pair of positive hyperparameters per arm, at least one
    arm and one Monte Carlo draw, and a sampling mode other than
    [argMax] whose keys keep the budget of every step within
    [max_votes] votes, [execute(t_max)] on a freshly constructed bandit
    raises no exception, whatever the random draws are.  Along the run
    every posterior snapshot, which is what the Beta sampler is called
    with, holds positive hyperparameters, and every stored budget is a
    finite number that [int] maps into [[0, max_votes]]. *)
Theorem well_configured_run_completes c w t_max :
  bernoulli_beta c = true -> prior_ok c = true -> prior_positive c ->
  1 <= M c -> 0 < K c ->
  budget_configured c t_max = true -> time_values_bounded w t_max ->
  bernoulli_rewards w -> rewards_cover c w t_max ->
  exists s',
    execute c w t_max (init c) = Ok tt s'
    /\ allocated c t_max s' = true
    /\ length (reward_posterior_alpha s') = S t_max
    /\ history_positive c s'
    /\ budgets_ok s' t_max.
Proof.
  intros Hbb Hp Hpos HM HK Hcfg Hworld Hzo Hrew.
  destruct (execute_history c w t_max Hbb Hp) as [(n & _ & Hsnap) Hdom].
  specialize (Hdom Hzo). revert Hsnap Hdom.
  unfold execute. rewrite execute_steps_eq.
  destruct (run_loop c w t_max t_max 0 (allocate c t_max (init c)))
    as (s' & Hrun & Hal & Hhy & _ & Hbud & Hlen); auto.
  - split; [apply allocate_allocated|]. split; [|split; [apply allocate_blank|]].
    + destruct (prior_ok_spec c Hp) as [Ha Hb].
      unfold hyper_ok.
      cbn [allocate init reward_posterior_alpha reward_posterior_beta last].
      now rewrite Ha, Hb, Nat.eqb_refl.
    + split; [intros t Ht; lia|reflexivity].
  - rewrite Hrun. cbn [final]. intros Hsnap Hdom.
    exists s'. split; [reflexivity|]. split; [exact Hal|]. split; [exact Hlen|].
    split; [now apply (snapshots_positive c s' n)|exact Hbud].
Qed.

Lemma well_configured_run_completes_witness :
  exists s',
    execute demo_static demo_world 3 (init demo_static) = Ok tt s'
    /\ allocated demo_static 3 s' = true
    /\ length (reward_posterior_alpha s') = 4
    /\ history_positive demo_static s'
    /\ budgets_ok s' 3.
Proof.
  apply (well_configured_run_completes demo_static demo_world 3);
    first [reflexivity | exact demo_rewards | cbn; lia | idtac].
  - intros k Hk. destruct k as [|[|k]]; [| |cbn in Hk; lia];
      vm_compute; split; reflexivity.
  - intros t Ht. destruct t as [|[|[|t]]]; [| | |lia];
      vm_compute; split; discriminate.
  - intros t Ht. cbn. lia.
Defined.

(** ** The time slice of the posterior update *)

Lemma sum_axis1_upto_clipped (a : ndarray Q) n n' :
  shape1 a <= n -> shape1 a <= n' -> sum_axis1_upto a n = sum_axis1_upto a n'.
Proof.
  intros H H'. unfold sum_axis1_upto. now rewrite !Nat.min_r by assumption.
Qed.

(** X17.  The slices [[:, :t+1]] of the posterior update are clipped to
    the arrays: called with a time at or after the last column, the
    update raises no [IndexError] and does what it does at the last
    column, summing the whole action and return records. *)
Theorem update_clips_time c t t' s :
  shape1 (actions s) <= S t -> shape1 (returns s) <= S t ->
  shape1 (actions s) <= S t' -> shape1 (returns s) <= S t' ->
  update_reward_posterior c t s = update_reward_posterior c t' s.
Proof.
  intros Ha Hr Ha' Hr'. unfold update_reward_posterior.
  destruct (String.eqb (dist_name (reward_function c)) "bernoulli"
            && String.eqb (prior_name (reward_prior c)) "beta"); [|reflexivity].
  unfold bind at 1. unfold get at 1. unfold bind at 3. unfold get at 1.
  rewrite (sum_axis1_upto_clipped (returns s) (t + 1) (t' + 1)) by lia.
  rewrite (sum_axis1_upto_clipped (actions s) (t + 1) (t' + 1)) by lia.
  reflexivity.
Qed.

Lemma update_clips_time_witness :
  update_reward_posterior demo_static 2
    (final (execute demo_static demo_world 3 (init demo_static)))
  = update_reward_posterior demo_static 10
      (final (execute demo_static demo_world 3 (init demo_static))).
Proof.
  apply (update_clips_time demo_static 2 10); vm_compute; lia.
Defined.
